(** * Entity score cards: the validator and the aggregator

    A shallow embedding of [scripts/validate-scores.js] (class
    [ScoreValidator]) and [scripts/calculate-scores.js] (class
    [ScoreCalculator]), and the properties of the two scripts that the
    design document states.

    Both scripts work on the value returned by [JSON.parse].  The embedding
    keeps that value untyped, as JavaScript does: a record, an area or an
    entry is a [JsValue], property reads and method calls can throw a
    [TypeError], and the operators coerce their operands the way
    ECMAScript prescribes for values born from JSON text.

    What the two scripts do with files follows, and what
    [process-pr-merge.js] does with the two classes: the command lines,
    [validateFile], [calculateAllScores], [validateChangedFiles] and
    [filterEntityScoreFiles], over a host that stands for the file
    system. *)

From Stdlib Require Import List String Ascii Bool ZArith QArith Qcanon Qround Qabs Lia Lqa.
From Stdlib Require Import DecimalString Permutation Sorted OrderedTypeEx.
Import ListNotations.

Local Open Scope string_scope.
Local Open Scope list_scope.

(** String concatenation, kept apart from list append. *)
Infix "+++" := String.append (right associativity, at level 60).

(** ** Numbers

    A JavaScript number is an IEEE-754 binary64 value: [NaN], one of the
    two infinities, or a finite double.  The embedding keeps the exact
    rational value of a finite double; the numbers of a JSON text are
    doubles, and what the properties say of every [Fin q] they say of
    those.  The two zeros are one value: the
    scripts divide by counts only, they compare numbers and never tell the
    zeros apart, and [String] and [JSON.stringify] print both alike.

    A sum, a difference and a quotient are the exact result rounded to the
    nearest double, a tie going to the double whose last bit is 0, and to
    an infinity beyond the largest double: [Binary64.round]. *)

Inductive number : Type :=
| NaN
| Fin (q : Qc)
| Inf (negative : bool).

Definition ofZ (z : Z) : number := Fin (Q2Qc (inject_Z z)).
Definition ofNat (n : nat) : number := ofZ (Z.of_nat n).

Definition Qcleb (x y : Qc) : bool := Qle_bool (this x) (this y).
Definition Qcltb (x y : Qc) : bool := negb (Qle_bool (this y) (this x)).
Definition Qceqb (x y : Qc) : bool := Qeq_bool (this x) (this y).

Module Binary64.

(** The integer nearest to [n / d], for [d > 0]; a tie goes to the even
    one. *)
Definition nearestEven (n d : Z) : Z :=
  let f := (n / d)%Z in
  let r := (n mod d)%Z in
  if (2 * r <? d)%Z then f
  else if (d <? 2 * r)%Z then (f + 1)%Z
  else if Z.even f then f else (f + 1)%Z.

(** The binary exponent of [n / d], for [n, d > 0]: the [e] with
    [2^e <= n / d < 2^(e+1)]. *)
Definition exponent (n d : Z) : Z :=
  let e := (Z.log2 n - Z.log2 d)%Z in
  if (0 <=? e)%Z
  then (if (2 ^ e * d <=? n)%Z then e else e - 1)%Z
  else (if (d <=? 2 ^ (- e) * n)%Z then e else e - 1)%Z.

(** The double nearest to [n / d], for [n, d > 0]: 53 significant bits,
    the last one of weight [2^-1074] at least (the subnormal doubles);
    nothing from [2^1024] on. *)
Definition roundPositive (n d : Z) : option Q :=
  let e := (Z.max (exponent n d) (-1022) - 52)%Z in
  if (0 <=? e)%Z then
    let m := nearestEven n (d * 2 ^ e) in
    if (2 ^ 1024 <=? m * 2 ^ e)%Z then None else Some (inject_Z (m * 2 ^ e))
  else
    let m := nearestEven (n * 2 ^ (- e)) d in
    Some (m # Z.to_pos (2 ^ (- e))).

Definition round (q : Qc) : number :=
  match Qnum (this q) with
  | Z0 => Fin (Q2Qc 0)
  | Zpos n =>
      match roundPositive (Zpos n) (Zpos (Qden (this q))) with
      | Some r => Fin (Q2Qc (Qred r))
      | None => Inf false
      end
  | Zneg n =>
      match roundPositive (Zpos n) (Zpos (Qden (this q))) with
      | Some r => Fin (Q2Qc (Qred (- r)))
      | None => Inf true
      end
  end.

End Binary64.

Definition isNegative (x : Qc) : bool := (Qnum (this x) <? 0)%Z.
Definition isZero (x : Qc) : bool := (Qnum (this x) =? 0)%Z.

(** [a + b] on numbers. *)
Definition numAdd (a b : number) : number :=
  match a, b with
  | NaN, _ | _, NaN => NaN
  | Fin x, Fin y => Binary64.round (x + y)%Qc
  | Inf s, Inf t => if Bool.eqb s t then Inf s else NaN
  | Inf s, Fin _ | Fin _, Inf s => Inf s
  end.

(** [a - b]. *)
Definition numSub (a b : number) : number :=
  match a, b with
  | NaN, _ | _, NaN => NaN
  | Fin x, Fin y => Binary64.round (x - y)%Qc
  | Inf s, Inf t => if Bool.eqb s t then NaN else Inf s
  | Inf s, Fin _ => Inf s
  | Fin _, Inf s => Inf (negb s)
  end.

(** [a / b].  A division by zero gives an infinity, or [NaN] for [0 / 0];
    the sign of the infinity is that of [a], the zero being the positive
    one (every divisor of the two scripts is a count). *)
Definition numDiv (a b : number) : number :=
  match a, b with
  | NaN, _ | _, NaN => NaN
  | Fin x, Fin y =>
      if isZero y then (if isZero x then NaN else Inf (isNegative x))
      else Binary64.round (x / y)%Qc
  | Inf _, Inf _ => NaN
  | Inf s, Fin y => Inf (xorb s (isNegative y))
  | Fin _, Inf _ => Fin (Q2Qc 0)
  end.

(** The comparisons are exact; with [NaN] they are false. *)
Definition numLt (a b : number) : bool :=
  match a, b with
  | Fin x, Fin y => Qcltb x y
  | Inf true, Fin _ | Inf true, Inf false | Fin _, Inf false => true
  | _, _ => false
  end.
Definition numLe (a b : number) : bool :=
  match a, b with
  | Fin x, Fin y => Qcleb x y
  | Inf true, Fin _ | Inf true, Inf _ | Fin _, Inf false | Inf false, Inf false => true
  | _, _ => false
  end.
Definition numGt (a b : number) : bool := numLt b a.
Definition numGe (a b : number) : bool := numLe b a.

(** [Math.abs]. *)
Definition MathAbs (a : number) : number :=
  match a with
  | NaN => NaN
  | Fin x => if Qcltb x (Q2Qc 0) then Fin (- x)%Qc else Fin x
  | Inf _ => Inf false
  end.

(** [Math.round]: the nearest integer, a tie going up: [floor (x + 1/2)],
    which is a double whenever [x] is one. *)
Definition roundZ (x : Qc) : Z := Qfloor (this x + (1 # 2)).

Definition MathRound (a : number) : number :=
  match a with
  | NaN => NaN
  | Fin x => ofZ (roundZ x)
  | Inf s => Inf s
  end.

(** ** Values

    What [JSON.parse] returns, and [undefined], which a read of a missing
    property gives.  An object keeps its properties in insertion order. *)

#[warnings="-register-all"]
Inductive JsValue : Type :=
| JUndefined
| JNull
| JBool (b : bool)
| JNum (n : number)
| JStr (s : string)
| JArr (elems : list JsValue)
| JObj (props : list (string * JsValue)).

(** What the scripts throw, or the engine on their behalf. *)
Inductive Exn : Type :=
| TypeError
| Error (message : string).

(** A computation either returns or throws. *)
Inductive completion (A : Type) : Type :=
| Normal (a : A)
| Throw (e : Exn).
Arguments Normal {A} a.
Arguments Throw {A} e.

Definition bindC {A B} (m : completion A) (f : A -> completion B) : completion B :=
  match m with
  | Normal a => f a
  | Throw e => Throw e
  end.

Declare Scope js_scope.
Delimit Scope js_scope with js.
Notation "x <- m ;; k" := (bindC m (fun x => k))
  (at level 61, m at next level, right associativity) : js_scope.

Fixpoint lookup (k : string) (props : list (string * JsValue)) : option JsValue :=
  match props with
  | [] => None
  | (k', v) :: rest => if String.eqb k k' then Some v else lookup k rest
  end.

Definition keys (props : list (string * JsValue)) : list string := map fst props.

Definition hasKey (k : string) (props : list (string * JsValue)) : bool :=
  match lookup k props with Some _ => true | None => false end.

(** [v.k], for the property names the scripts read: none of them is defined
    on a prototype, so only an own property of an object answers. *)
Definition Get (v : JsValue) (k : string) : completion JsValue :=
  match v with
  | JUndefined | JNull => Throw TypeError
  | JObj props =>
      match lookup k props with
      | Some x => Normal x
      | None => Normal JUndefined
      end
  | _ => Normal JUndefined
  end.

(** [k in v]: a [TypeError] unless [v] is an object (an array is one). *)
Definition HasProperty (k : string) (v : JsValue) : completion bool :=
  match v with
  | JObj props => Normal (hasKey k props)
  | JArr _ => Normal false
  | _ => Throw TypeError
  end.

(** [ToBoolean]. *)
Definition truthy (v : JsValue) : bool :=
  match v with
  | JUndefined | JNull => false
  | JBool b => b
  | JNum NaN => false
  | JNum (Fin q) => negb (Qceqb q (Q2Qc 0))
  | JNum (Inf _) => true
  | JStr s => negb (String.eqb s "")
  | JArr _ | JObj _ => true
  end.

Definition isNull (v : JsValue) : bool :=
  match v with JNull => true | _ => false end.
Definition isUndefined (v : JsValue) : bool :=
  match v with JUndefined => true | _ => false end.
Definition isArray (v : JsValue) : bool :=
  match v with JArr _ => true | _ => false end.

Definition typeof (v : JsValue) : string :=
  match v with
  | JUndefined => "undefined"
  | JNull => "object"
  | JBool _ => "boolean"
  | JNum _ => "number"
  | JStr _ => "string"
  | JArr _ | JObj _ => "object"
  end.

(** [v === s] for a string [s]. *)
Definition isStr (s : string) (v : JsValue) : bool :=
  match v with JStr s' => String.eqb s' s | _ => false end.

(** [list.includes(v)] on an array of string literals. *)
Definition includesStr (l : list string) (v : JsValue) : bool :=
  existsb (fun s => isStr s v) l.

(** ** The runtime

    What the scripts ask of the engine and the embedding does not define:
    the conversions between numbers and strings, the parsing of dates and
    the clock.  Every definition below takes the runtime as a parameter and
    every theorem holds for all runtimes. *)

(** [new Date(v)] followed by [isNaN(date.getTime())]. *)
Inductive DateResult : Type :=
| DateValid
| DateInvalid
| DateThrows (message : string).

Record Runtime : Type := {
  (** [Number(s)] for a string [s] *)
  StringToNumber : string -> number;
  (** [String(n)] for a number [n] *)
  NumberToString : number -> string;
  (** [n.toFixed(1)] *)
  toFixed1 : number -> string;
  (** [new Date(v)]: a valid date, an invalid one, or a throw *)
  NewDate : JsValue -> DateResult;
  (** [new Date().toISOString()] *)
  nowISOString : string
}.

Section Coercions.

Variable rt : Runtime.

Local Open Scope js_scope.

(** [ToString].  An array joins its elements with commas, [null] and
    [undefined] elements printing as nothing.  A plain object prints as
    "[object Object]" unless an own property shadows [toString]: born from
    JSON that property is not callable, and the conversion throws. *)
Fixpoint ToString (v : JsValue) : completion string :=
  match v with
  | JUndefined => Normal "undefined"
  | JNull => Normal "null"
  | JBool true => Normal "true"
  | JBool false => Normal "false"
  | JNum n => Normal (NumberToString rt n)
  | JStr s => Normal s
  | JArr elems =>
      (fix join (l : list JsValue) : completion string :=
         match l with
         | [] => Normal ""
         | x :: rest =>
             s <- match x with
                  | JUndefined | JNull => Normal ""
                  | _ => ToString x
                  end ;;
             match rest with
             | [] => Normal s
             | _ :: _ => r <- join rest ;; Normal (s +++ "," +++ r)
             end
         end) elems
  | JObj props =>
      if hasKey "toString" props then Throw TypeError
      else Normal "[object Object]"
  end.

(** [ToPrimitive]: an array or an object becomes its string. *)
Definition ToPrimitive (v : JsValue) : completion JsValue :=
  match v with
  | JArr _ | JObj _ => s <- ToString v ;; Normal (JStr s)
  | _ => Normal v
  end.

(** [ToNumber]. *)
Definition ToNumber (v : JsValue) : completion number :=
  match v with
  | JUndefined => Normal NaN
  | JNull => Normal (ofZ 0)
  | JBool true => Normal (ofZ 1)
  | JBool false => Normal (ofZ 0)
  | JNum n => Normal n
  | JStr s => Normal (StringToNumber rt s)
  | JArr _ | JObj _ => s <- ToString v ;; Normal (StringToNumber rt s)
  end.

(** [a + b]: concatenation as soon as one primitive is a string. *)
Definition jsAdd (a b : JsValue) : completion JsValue :=
  pa <- ToPrimitive a ;;
  pb <- ToPrimitive b ;;
  match pa, pb with
  | JStr _, _ | _, JStr _ =>
      sa <- ToString pa ;; sb <- ToString pb ;; Normal (JStr (sa +++ sb))
  | _, _ =>
      na <- ToNumber pa ;; nb <- ToNumber pb ;; Normal (JNum (numAdd na nb))
  end.

(** [a - b] and [a / b]. *)
Definition jsSub (a b : JsValue) : completion number :=
  na <- ToNumber a ;; nb <- ToNumber b ;; Normal (numSub na nb).

Definition jsDiv (a b : JsValue) : completion number :=
  na <- ToNumber a ;; nb <- ToNumber b ;; Normal (numDiv na nb).

(** [v >= k], [v <= k] and [v > k] against a number [k]: the operands
    are never both strings, so the comparison is the numeric one. *)
Definition jsGe (v : JsValue) (k : number) : completion bool :=
  n <- ToNumber v ;; Normal (numGe n k).
Definition jsLe (v : JsValue) (k : number) : completion bool :=
  n <- ToNumber v ;; Normal (numLe n k).
Definition jsGt (v : JsValue) (k : number) : completion bool :=
  n <- ToNumber v ;; Normal (numGt n k).

End Coercions.

(** ** Array methods

    [forEach], [map], [filter] and [reduce] exist on arrays only: called on
    anything else the read of the method gives [undefined] (or a property
    that is not callable) and the call throws. *)

Definition arrayOf (v : JsValue) : completion (list JsValue) :=
  match v with
  | JArr elems => Normal elems
  | _ => Throw TypeError
  end.

Section ArrayMethods.

Local Open Scope js_scope.

Fixpoint mapC {A B} (f : A -> completion B) (l : list A) : completion (list B) :=
  match l with
  | [] => Normal []
  | x :: rest => y <- f x ;; ys <- mapC f rest ;; Normal (y :: ys)
  end.

Fixpoint filterC {A} (p : A -> completion bool) (l : list A) : completion (list A) :=
  match l with
  | [] => Normal []
  | x :: rest =>
      b <- p x ;; ys <- filterC p rest ;; Normal (if b then x :: ys else ys)
  end.

Fixpoint reduceC {A B} (f : B -> A -> completion B) (l : list A) (acc : B) : completion B :=
  match l with
  | [] => Normal acc
  | x :: rest => acc' <- f acc x ;; reduceC f rest acc'
  end.

End ArrayMethods.

(** ** The two range tables (both scripts declare the same ones) *)

Record range : Type := { min : Z; max : Z }.

Definition SCORE_SUCCESS_MAPPING : list (string * range) :=
  [ ("success", {| min := 80; max := 100 |});
    ("almost-success", {| min := 70; max := 79 |});
    ("partial", {| min := 50; max := 69 |});
    ("almost-failure", {| min := 30; max := 49 |});
    ("failure", {| min := 0; max := 29 |}) ].

Definition COLOR_MAPPING : list (string * range) :=
  [ ("Green", {| min := 70; max := 100 |});
    ("Yellow", {| min := 30; max := 69 |});
    ("Red", {| min := 0; max := 29 |}) ].

(** ** calculate-scores.js: class ScoreCalculator *)

Section ScoreCalculator.

Variable rt : Runtime.

Local Open Scope js_scope.

(** The loop shared by [getScoreLabel], [getScoreSuccess] and the
    validator's [getScoreCategory]:
    [for (const [name, range] of Object.entries(TABLE))
       if (percent >= range.min && percent <= range.max) return name;
     return fallback;] *)
Fixpoint firstInRange (table : list (string * range)) (percent : JsValue)
    (fallback : string) : completion string :=
  match table with
  | [] => Normal fallback
  | (name, r) :: rest =>
      ge <- jsGe rt percent (ofZ (min r)) ;;
      if ge then
        le <- jsLe rt percent (ofZ (max r)) ;;
        if le then Normal name else firstInRange rest percent fallback
      else firstInRange rest percent fallback
  end.

Definition getScoreLabel (percent : JsValue) : completion string :=
  firstInRange COLOR_MAPPING percent "Red".

Definition getScoreSuccess (percent : JsValue) : completion string :=
  firstInRange SCORE_SUCCESS_MAPPING percent "failure".

(** The filter of [processAreaScore]:
    [entry.scoreSuccess !== 'unknown' && entry.scorePercent !== null &&
     entry.scorePercent !== undefined && !entry.isOptional]. *)
Definition isScoredEntry (entry : JsValue) : completion bool :=
  scoreSuccess <- Get entry "scoreSuccess" ;;
  if isStr "unknown" scoreSuccess then Normal false else
  scorePercent <- Get entry "scorePercent" ;;
  if isNull scorePercent then Normal false else
  if isUndefined scorePercent then Normal false else
  isOptional <- Get entry "isOptional" ;;
  Normal (negb (truthy isOptional)).

(** [list.reduce((sum, x) => sum + x.scorePercent, 0)]. *)
Definition sumScorePercent (l : list JsValue) : completion JsValue :=
  reduceC (fun sum x => p <- Get x "scorePercent" ;; jsAdd rt sum p) l (JNum (ofZ 0)).

Definition processAreaScore (area : JsValue) : completion JsValue :=
  scoreEntries <- Get area "scoreEntries" ;;
  entries <- arrayOf scoreEntries ;;
  scoredEntries <- filterC isScoredEntry entries ;;
  areaScore <-
    (if (0 <? List.length scoredEntries)%nat then
       totalScore <- sumScorePercent scoredEntries ;;
       jsDiv rt totalScore (JNum (ofNat (List.length scoredEntries)))
     else Normal (ofZ 0)) ;;
  id <- Get area "id" ;;
  title <- Get area "title" ;;
  Normal (JObj [ ("id", id); ("title", title);
                 ("scorePercent", JNum areaScore);
                 ("scoreEntries", scoreEntries) ]).

Definition calculateOverallScore (areaScores : list JsValue) : completion JsValue :=
  scoredAreas <-
    filterC (fun area => p <- Get area "scorePercent" ;; jsGt rt p (ofZ 0)) areaScores ;;
  if (List.length scoredAreas =? 0)%nat then
    Normal (JObj [ ("scorePercent", JNum (ofZ 0)) ])
  else
    totalScore <- sumScorePercent scoredAreas ;;
    averageScore <- jsDiv rt totalScore (JNum (ofNat (List.length scoredAreas))) ;;
    Normal (JObj [ ("scorePercent", JNum averageScore) ]).

(** [Math.round(v)]. *)
Definition jsMathRound (v : JsValue) : completion JsValue :=
  n <- ToNumber rt v ;; Normal (JNum (MathRound n)).

(** [...(cond && { k: v })]: the property when [cond] is truthy, nothing
    otherwise. *)
Definition spreadIf (cond : bool) (k : string) (v : JsValue) : list (string * JsValue) :=
  if cond then [ (k, v) ] else [].

(** One element of the output's [areaScores]. *)
Definition areaSummary (area : JsValue) : completion JsValue :=
  id <- Get area "id" ;;
  title <- Get area "title" ;;
  p <- Get area "scorePercent" ;;
  scorePercent <- jsMathRound p ;;
  scoreLabel <- getScoreLabel p ;;
  scoreSuccess <- getScoreSuccess p ;;
  Normal (JObj [ ("id", id); ("title", title);
                 ("scorePercent", scorePercent);
                 ("scoreLabel", JStr scoreLabel);
                 ("scoreSuccess", JStr scoreSuccess) ]).

(** [processEntityFile], from the value [JSON.parse] returned on: reading
    the file and parsing it are the caller's side of the embedding. *)
Definition processEntityFile (data : JsValue) : completion JsValue :=
  entityRef <- Get data "entityRef" ;;
  if negb (truthy entityRef) then Throw (Error "Invalid entity score structure") else
  areaScores <- Get data "areaScores" ;;
  if negb (truthy areaScores) then Throw (Error "Invalid entity score structure") else
    areas <- arrayOf areaScores ;;
    processedAreaScores <- mapC processAreaScore areas ;;
    overallScore <- calculateOverallScore processedAreaScores ;;
    kind <- Get entityRef "kind" ;;
    name <- Get entityRef "name" ;;
    namespace <- Get entityRef "namespace" ;;
    generatedDateTimeUtc <- Get data "generatedDateTimeUtc" ;;
    overallPercent <- Get overallScore "scorePercent" ;;
    scorePercent <- jsMathRound overallPercent ;;
    scoreLabel <- getScoreLabel overallPercent ;;
    scoreSuccess <- getScoreSuccess overallPercent ;;
    scoringReviewer <- Get data "scoringReviewer" ;;
    scoringReviewDate <- Get data "scoringReviewDate" ;;
    summaries <- mapC areaSummary processedAreaScores ;;
    Normal (JObj (
      [ ("entityRef",
         JObj ([ ("kind", kind); ("name", name) ]
               ++ spreadIf (truthy namespace && negb (isStr "default" namespace))
                    "namespace" namespace));
        ("generatedDateTimeUtc",
         if truthy generatedDateTimeUtc then generatedDateTimeUtc
         else JStr (nowISOString rt));
        ("scorePercent", scorePercent);
        ("scoreLabel", JStr scoreLabel);
        ("scoreSuccess", JStr scoreSuccess) ]
      ++ spreadIf (truthy scoringReviewer) "scoringReviewer" scoringReviewer
      ++ spreadIf (truthy scoringReviewDate) "scoringReviewDate" scoringReviewDate
      ++ [ ("areaScores", JArr summaries) ])).

End ScoreCalculator.

(** ** validate-scores.js: class ScoreValidator *)

(** The two fields the constructor initialises to empty arrays. *)
Record ScoreValidator : Type := {
  errors : list string;
  warnings : list string
}.

Definition newScoreValidator : ScoreValidator :=
  {| errors := []; warnings := [] |}.

(** A method of the validator: it may push on [this.errors] and
    [this.warnings], and it returns or throws.  What was pushed before a
    throw stays pushed. *)
Definition V (A : Type) : Type := ScoreValidator -> ScoreValidator * completion A.

Definition retV {A} (a : A) : V A := fun this => (this, Normal a).

Definition bindV {A B} (m : V A) (f : A -> V B) : V B :=
  fun this =>
    match m this with
    | (this', Normal a) => f a this'
    | (this', Throw e) => (this', Throw e)
    end.

Definition liftV {A} (c : completion A) : V A := fun this => (this, c).

Declare Scope validator_scope.
Delimit Scope validator_scope with validator.
Notation "x <- m ;; k" := (bindV m (fun x => k))
  (at level 61, m at next level, right associativity) : validator_scope.
Notation "m ;; k" := (bindV m (fun _ => k))
  (at level 61, right associativity) : validator_scope.

Definition addError (message : string) : V unit :=
  fun this =>
    ({| errors := errors this ++ [ "❌ ERROR: " +++ message ];
        warnings := warnings this |}, Normal tt).

Definition addWarning (message : string) : V unit :=
  fun this =>
    ({| errors := errors this;
        warnings := warnings this ++ [ "⚠️  WARNING: " +++ message ] |}, Normal tt).

Definition when (b : bool) (m : V unit) : V unit :=
  if b then m else retV tt.

(** [list.forEach((x, index) => f(x, index))], from index [i] on. *)
Fixpoint forEachV {A} (f : A -> nat -> V unit) (l : list A) (i : nat) : V unit :=
  match l with
  | [] => retV tt
  | x :: rest => bindV (f x i) (fun _ => forEachV f rest (S i))
  end.

(** [s.includes(needle)] on a string. *)
Definition stringIncludes (needle s : string) : bool :=
  match String.index 0 needle s with
  | Some _ => true
  | None => false
  end.

(** [v.includes(needle)]: a substring test on a string, a membership test
    on an array, a [TypeError] on anything else. *)
Definition jsIncludes (v : JsValue) (needle : string) : completion bool :=
  match v with
  | JStr s => Normal (stringIncludes needle s)
  | JArr elems => Normal (existsb (isStr needle) elems)
  | _ => Throw TypeError
  end.

(** What [calculateScores] returns. *)
Record CalculatedScores : Type := { overall : number }.

Section ScoreValidator.

Variable rt : Runtime.

Definition validateRequired (obj : JsValue) (fields : list string) : V unit :=
  (forEachV (fun field _ =>
     present <- liftV (HasProperty field obj) ;;
     value <- liftV (Get obj field) ;;
     when (negb present || isNull value || isUndefined value)
       (addError ("Missing required field: " +++ field)))
     fields 0)%validator.

Definition validateEntityRef (entityRef : JsValue) : V unit :=
  (if negb (truthy entityRef) || negb (String.eqb (typeof entityRef) "object") then
     addError "entityRef must be an object"
   else
     validateRequired entityRef [ "kind"; "name" ] ;;
     kind <- liftV (Get entityRef "kind") ;;
     if truthy kind && negb (includesStr [ "component"; "api"; "system"; "resource" ] kind) then
       shown <- liftV (ToString rt kind) ;;
       addWarning ("Unusual entity kind: " +++ shown
                   +++ ". Expected one of: component, api, system, resource")
     else retV tt)%validator.

Definition validateDateTime (dateStr : JsValue) (fieldName : string) : V unit :=
  match NewDate rt dateStr with
  | DateValid => retV tt
  | DateInvalid => addError (fieldName +++ " is not a valid ISO date")
  | DateThrows message => addError (fieldName +++ " is not a valid date: " +++ message)
  end.

Definition getScoreCategory (percent : JsValue) : completion string :=
  firstInRange rt SCORE_SUCCESS_MAPPING percent "unknown".

Definition validateScoreEntry (entry : JsValue) (prefix : string) : V unit :=
  (validateRequired entry [ "id"; "title"; "scoreSuccess"; "details" ] ;;
   id <- liftV (Get entry "id") ;;
   when (negb (String.eqb (typeof id) "number"))
     (addError (prefix +++ ".id must be a number")) ;;
   scorePercent <- liftV (Get entry "scorePercent") ;;
   when (negb (isNull scorePercent) && negb (isUndefined scorePercent))
     (when (match scorePercent with
            | JNum n => numLt n (ofZ 0) || numGt n (ofZ 100)
            | _ => true
            end)
        (addError (prefix +++ ".scorePercent must be a number between 0-100"))) ;;
   scoreSuccess <- liftV (Get entry "scoreSuccess") ;;
   when (negb (includesStr [ "success"; "almost-success"; "partial";
                             "almost-failure"; "failure"; "unknown" ] scoreSuccess))
     (addError (prefix +++ ".scoreSuccess must be one of: success, almost-success, partial, almost-failure, failure, unknown")) ;;
   (if negb (isNull scorePercent) && negb (isStr "unknown" scoreSuccess) then
      expectedCategory <- liftV (getScoreCategory scorePercent) ;;
      if negb (isStr expectedCategory scoreSuccess) then
        shownPercent <- liftV (ToString rt scorePercent) ;;
        shownSuccess <- liftV (ToString rt scoreSuccess) ;;
        addWarning (prefix +++ ": scorePercent (" +++ shownPercent +++ ") suggests '"
                    +++ expectedCategory +++ "' but scoreSuccess is '"
                    +++ shownSuccess +++ "'")
      else retV tt
    else retV tt) ;;
   comments <- liftV (Get entry "selfAssessmentComments") ;;
   if truthy comments then
     todo <- liftV (jsIncludes comments "TODO:") ;;
     when todo (addWarning (prefix +++ ": Self-assessment comments contain TODO placeholder"))
   else retV tt)%validator.

Definition validateAreaScore (area : JsValue) (index : nat) : V unit :=
  let prefix := "areaScores[" +++ NumberToString rt (ofNat index) +++ "]" in
  (validateRequired area [ "id"; "title"; "scoreEntries" ] ;;
   id <- liftV (Get area "id") ;;
   when (negb (String.eqb (typeof id) "number"))
     (addError (prefix +++ ".id must be a number")) ;;
   scoreEntries <- liftV (Get area "scoreEntries") ;;
   match scoreEntries with
   | JArr entries =>
       when (List.length entries =? 0)%nat
         (addError (prefix +++ ".scoreEntries cannot be empty")) ;;
       forEachV (fun entry entryIndex =>
         validateScoreEntry entry
           (prefix +++ ".scoreEntries[" +++ NumberToString rt (ofNat entryIndex) +++ "]"))
         entries 0
   | _ => addError (prefix +++ ".scoreEntries must be an array")
   end)%validator.

(** The test of [calculateScores] on an entry:
    [entry.scorePercent !== null && entry.scoreSuccess !== 'unknown' &&
     !entry.isOptional]. *)
Definition isCountedEntry (entry : JsValue) : completion bool :=
  (scorePercent <- Get entry "scorePercent" ;;
   if isNull scorePercent then Normal false else
   scoreSuccess <- Get entry "scoreSuccess" ;;
   if isStr "unknown" scoreSuccess then Normal false else
   isOptional <- Get entry "isOptional" ;;
   Normal (negb (truthy isOptional)))%js.

(** The inner [forEach] of [calculateScores], on the pair
    [(areaScore, areaWeight)]. *)
Definition accumulateEntry (acc : JsValue * nat) (entry : JsValue)
    : completion (JsValue * nat) :=
  (counted <- isCountedEntry entry ;;
   if counted then
     scorePercent <- Get entry "scorePercent" ;;
     areaScore <- jsAdd rt (fst acc) scorePercent ;;
     Normal (areaScore, S (snd acc))
   else Normal acc)%js.

(** The outer [forEach], on the pair [(totalScore, totalWeight)]. *)
Definition accumulateArea (acc : number * nat) (area : JsValue)
    : completion (number * nat) :=
  (scoreEntries <- Get area "scoreEntries" ;;
   entries <- arrayOf scoreEntries ;;
   inner <- reduceC accumulateEntry entries (JNum (ofZ 0), 0%nat) ;;
   if (0 <? snd inner)%nat then
     avgAreaScore <- jsDiv rt (fst inner) (JNum (ofNat (snd inner))) ;;
     Normal (numAdd (fst acc) avgAreaScore, S (snd acc))
   else Normal acc)%js.

Definition calculateScores (data : JsValue) : completion CalculatedScores :=
  (areaScores <- Get data "areaScores" ;;
   areas <- arrayOf areaScores ;;
   totals <- reduceC accumulateArea areas (ofZ 0, 0%nat) ;;
   Normal {| overall :=
               if (0 <? snd totals)%nat
               then numDiv (fst totals) (ofNat (snd totals))
               else ofZ 0 |})%js.

Definition validateCalculatedScores (data : JsValue) : V unit :=
  (calculatedScores <- liftV (calculateScores data) ;;
   scorePercent <- liftV (Get data "scorePercent") ;;
   if truthy scorePercent then
     difference <- liftV (jsSub rt scorePercent (JNum (overall calculatedScores))) ;;
     if numGt (MathAbs difference) (ofZ 1) then
       shown <- liftV (ToString rt scorePercent) ;;
       addWarning ("Overall scorePercent (" +++ shown
                   +++ ") differs from calculated value ("
                   +++ toFixed1 rt (overall calculatedScores) +++ ")")
     else retV tt
   else retV tt)%validator.

Definition validateEntityScore (data : JsValue) : V bool :=
  (validateRequired data [ "entityRef"; "generatedDateTimeUtc"; "areaScores" ] ;;
   entityRef <- liftV (Get data "entityRef") ;;
   validateEntityRef entityRef ;;
   generatedDateTimeUtc <- liftV (Get data "generatedDateTimeUtc") ;;
   validateDateTime generatedDateTimeUtc "generatedDateTimeUtc" ;;
   scoringReviewDate <- liftV (Get data "scoringReviewDate") ;;
   when (truthy scoringReviewDate)
     (validateDateTime scoringReviewDate "scoringReviewDate") ;;
   areaScores <- liftV (Get data "areaScores") ;;
   match areaScores with
   | JArr areas => forEachV validateAreaScore areas 0
   | _ => addError "areaScores must be an array"
   end ;;
   validateCalculatedScores data ;;
   fun this => (this, Normal (List.length (errors this) =? 0)%nat))%validator.

End ScoreValidator.

(** ** The files and the command lines

    What the scripts ask of Node besides the runtime: the file system, the
    paths, [JSON] and the collation of strings.  The host answers the same
    all along one run.  What the scripts print is left out: [console.log]
    and its kin return nothing and change nothing that the methods read. *)

Record Host : Type := {
  (** [fs.existsSync(path)] *)
  existsSync : string -> bool;
  (** [fs.readdirSync(dir)] *)
  readdirSync : string -> completion (list string);
  (** [fs.readFileSync(path, 'utf8')] *)
  readFileSync : string -> completion string;
  (** [JSON.parse(text)] *)
  JSONparse : string -> completion JsValue;
  (** [JSON.stringify(value, null, 2)] *)
  JSONstringify : JsValue -> string;
  (** [path.join(dir, file)] and [path.dirname(path)] *)
  pathJoin : string -> string -> string;
  pathDirname : string -> string;
  (** [fs.mkdirSync(dir, { recursive: true })] and
      [fs.writeFileSync(path, content, 'utf8')]: they return or throw *)
  mkdirSync : string -> completion unit;
  writeFileSync : string -> string -> completion unit;
  (** [a.localeCompare(b)]: negative, zero or positive *)
  localeCompare : string -> string -> Z;
  (** the text the engine gives the [TypeError] that the file of this
      path raises: the engine words it after the operation that failed, and
      in one run the file decides which operation that is *)
  typeErrorMessage : string -> string
}.

(** [error.message], of the exception caught while [file] is processed. *)
Definition messageOf (h : Host) (file : string) (error : Exn) : string :=
  match error with
  | Error message => message
  | TypeError => typeErrorMessage h file
  end.

Section ValidatorOnFiles.

Variable h : Host.
Variable rt : Runtime.

(** [fs.readFileSync(filePath, 'utf8')] then [JSON.parse(content)]. *)
Definition readJSON (filePath : string) : completion JsValue :=
  (content <- readFileSync h filePath ;; JSONparse h content)%js.

Definition validateFile (filePath : string) : V bool :=
  (if negb (existsSync h filePath) then
     addError ("File not found: " +++ filePath) ;; retV false
   else
     match readJSON filePath with
     | Throw error => addError ("Invalid JSON: " +++ messageOf h filePath error) ;; retV false
     | Normal data => validateEntityScore rt data
     end)%validator.

(** [printResults], for what it returns. *)
Definition printResults : V bool :=
  fun this => (this, Normal (List.length (errors this) =? 0)%nat).

(** The loop of the command line of validate-scores.js, on the one
    validator it creates:
    [args.forEach(filePath => { const isValid = validator.validateFile(filePath);
                                if (!isValid) allValid = false; })]. *)
Fixpoint validateEach (args : list string) (allValid : bool) : V bool :=
  match args with
  | [] => retV allValid
  | filePath :: rest =>
      (isValid <- validateFile filePath ;;
       validateEach rest (if negb isValid then false else allValid))%validator
  end.

(** The command line of validate-scores.js: the code [process.exit] is
    given, or the exception that ends the process. *)
Definition validateScoresCommand (args : list string) : completion nat :=
  if (List.length args =? 0)%nat then Normal 1%nat
  else
    snd ((allValid <- validateEach args true ;;
          printResults ;;
          retV (if allValid then 0 else 1)%nat)%validator newScoreValidator).

(** process-pr-merge.js, [validateChangedFiles]: a validator of its own for
    each file. *)
Fixpoint validateEachAlone (files : list string) (hasErrors : bool) : completion bool :=
  match files with
  | [] => Normal hasErrors
  | file :: rest =>
      match validateFile file newScoreValidator with
      | (validator, Normal isValid) =>
          if negb isValid then
            match printResults validator with
            | (_, Normal _) => validateEachAlone rest true
            | (_, Throw e) => Throw e
            end
          else validateEachAlone rest hasErrors
      | (_, Throw e) => Throw e
      end
  end.

Definition validateChangedFiles (files : list string) : completion JsValue :=
  (hasErrors <- validateEachAlone files false ;;
   if hasErrors then
     Normal (JObj [ ("success", JBool false);
                    ("error", JStr "One or more entity score files failed validation. Please fix the errors and try again.") ])
   else Normal (JObj [ ("success", JBool true) ]))%js.

End ValidatorOnFiles.

(** ** calculate-scores.js: the batch *)

(** The fields the constructor sets. *)
Record ScoreCalculator : Type := {
  entityScoresDir : string;
  outputFile : string;
  verbose : bool
}.

(** The options the constructor is given: the command line and
    process-pr-merge.js pass strings, or leave them out, and [true] for
    [verbose], or leave it out. *)
Record Options : Type := {
  entityScoresDirOption : option string;
  outputFileOption : option string;
  verboseOption : bool
}.

(** [given || fallback] on a string that may be left out. *)
Definition orElse (given : option string) (fallback : string) : string :=
  match given with
  | Some s => if String.eqb s "" then fallback else s
  | None => fallback
  end.

Definition newScoreCalculator (options : Options) : ScoreCalculator :=
  {| entityScoresDir := orElse (entityScoresDirOption options) "./entity-scores";
     outputFile := orElse (outputFileOption options) "./all.json";
     verbose := verboseOption options |}.

(** [s.endsWith(suffix)]. *)
Definition endsWith (suffix s : string) : bool :=
  (String.length suffix <=? String.length s)%nat
  && String.eqb (substring (String.length s - String.length suffix)
                   (String.length suffix) s) suffix.

(** The calls that change the disk. *)
Inductive FsEffect : Type :=
| Mkdir (dir : string)
| WriteFile (path content : string).

(** [array.sort(compare)].  The standard asks for a stable sort and leaves
    the calls of [compare] to the engine.  Node's engine sorts by
    insertion, and the call it makes is [compare(later, earlier)]: the first
    argument stood behind the second in the array, and it is moved in front
    of it when the answer is negative.  The embedding does the same: it
    inserts the elements one after the other, each in front of the first
    element that it compares lower than.  So the first comparison is
    [compare(second, first)], the element a call reads [localeCompare] from
    is the one that is being inserted, and with a comparison that orders
    the elements consistently every stable sort returns this same array. *)
Fixpoint insertC {A} (compare : A -> A -> completion Z) (x : A) (sorted : list A)
    : completion (list A) :=
  match sorted with
  | [] => Normal [ x ]
  | y :: rest =>
      (c <- compare x y ;;
       if (c <? 0)%Z then Normal (x :: y :: rest)
       else (r <- insertC compare x rest ;; Normal (y :: r)))%js
  end.

Definition sortC {A} (compare : A -> A -> completion Z) (l : list A) : completion (list A) :=
  reduceC (fun sorted x => insertC compare x sorted) l [].

Section ScoreCalculatorOnFiles.

Variable h : Host.
Variable rt : Runtime.

Local Open Scope js_scope.

Definition getEntityScoreFiles (this : ScoreCalculator) : completion (list string) :=
  if negb (existsSync h (entityScoresDir this)) then
    Throw (Error ("Entity scores directory not found: " +++ entityScoresDir this))
  else
    files <- readdirSync h (entityScoresDir this) ;;
    Normal (map (pathJoin h (entityScoresDir this)) (filter (endsWith ".json") files)).

(** [processEntityFile] whole, from the path of the file. *)
Definition processEntityFileAt (filePath : string) : completion JsValue :=
  content <- readFileSync h filePath ;;
  data <- JSONparse h content ;;
  processEntityFile rt data.

(** The line printed for a processed file when [verbose] is set: its two
    substitutions convert to strings, inside the [try]. *)
Definition processedLine (entityScore : JsValue) : completion string :=
  entityRef <- Get entityScore "entityRef" ;;
  name <- Get entityRef "name" ;;
  shownName <- ToString rt name ;;
  scorePercent <- Get entityScore "scorePercent" ;;
  shownPercent <- ToString rt scorePercent ;;
  Normal ("✅ Processed: " +++ shownName +++ " (" +++ shownPercent +++ "%)").

Definition processingError (file : string) (error : Exn) : string :=
  "Error processing " +++ file +++ ": " +++ messageOf h file error.

(** One turn of the loop of [calculateAllScores], on [allScores] and
    [errors]. *)
Definition processOne (this : ScoreCalculator) (acc : list JsValue * list string)
    (file : string) : list JsValue * list string :=
  match processEntityFileAt file with
  | Normal entityScore =>
      if truthy entityScore then
        if verbose this then
          match processedLine entityScore with
          | Normal _ => (fst acc ++ [ entityScore ], snd acc)
          | Throw error =>
              (fst acc ++ [ entityScore ], snd acc ++ [ processingError file error ])
          end
        else (fst acc ++ [ entityScore ], snd acc)
      else acc
  | Throw error => (fst acc, snd acc ++ [ processingError file error ])
  end.

(** [(a, b) => a.entityRef.name.localeCompare(b.entityRef.name)]. *)
Definition compareByName (a b : JsValue) : completion Z :=
  entityRef <- Get a "entityRef" ;;
  name <- Get entityRef "name" ;;
  entityRef' <- Get b "entityRef" ;;
  name' <- Get entityRef' "name" ;;
  match name with
  | JStr s => t <- ToString rt name' ;; Normal (localeCompare h s t)
  | _ => Throw TypeError
  end.

Definition writeOutputFile (this : ScoreCalculator) (scores : list JsValue)
    : list FsEffect * completion unit :=
  let outputDir := pathDirname h (outputFile this) in
  let output := JSONstringify h (JArr scores) in
  if negb (existsSync h outputDir) then
    match mkdirSync h outputDir with
    | Normal _ =>
        ([ Mkdir outputDir; WriteFile (outputFile this) output ],
         writeFileSync h (outputFile this) output)
    | Throw error => ([ Mkdir outputDir ], Throw error)
    end
  else ([ WriteFile (outputFile this) output ], writeFileSync h (outputFile this) output).

(** [calculateAllScores]: the calls that change the disk, and the result or
    the exception of the promise. *)
Definition calculateAllScores (this : ScoreCalculator) : list FsEffect * completion JsValue :=
  match getEntityScoreFiles this with
  | Throw error => ([], Throw error)
  | Normal entityFiles =>
      let processed := fold_left (processOne this) entityFiles ([], []) in
      match sortC compareByName (fst processed) with
      | Throw error => ([], Throw error)
      | Normal allScores =>
          match writeOutputFile this allScores with
          | (effects, Throw error) => (effects, Throw error)
          | (effects, Normal _) =>
              (effects,
               Normal (JObj [ ("scores", JArr allScores);
                              ("errors", JArr (map JStr (snd processed)));
                              ("totalEntities", JNum (ofNat (List.length allScores))) ]))
          end
      end
  end.

End ScoreCalculatorOnFiles.

(** What the command line of calculate-scores.js parsed. *)
Inductive Parsed : Type :=
| Run (options : Options)
| Help.

(** The loop over [args]: an option takes the next argument as its value,
    whatever it is, and [undefined] when there is none. *)
Fixpoint parseArguments (args : list string) (options : Options) : Parsed :=
  match args with
  | [] => Run options
  | arg :: rest =>
      if String.eqb arg "--entity-scores-dir" then
        match rest with
        | [] => Run {| entityScoresDirOption := None;
                       outputFileOption := outputFileOption options;
                       verboseOption := verboseOption options |}
        | value :: rest' =>
            parseArguments rest'
              {| entityScoresDirOption := Some value;
                 outputFileOption := outputFileOption options;
                 verboseOption := verboseOption options |}
        end
      else if String.eqb arg "--output" then
        match rest with
        | [] => Run {| entityScoresDirOption := entityScoresDirOption options;
                       outputFileOption := None;
                       verboseOption := verboseOption options |}
        | value :: rest' =>
            parseArguments rest'
              {| entityScoresDirOption := entityScoresDirOption options;
                 outputFileOption := Some value;
                 verboseOption := verboseOption options |}
        end
      else if String.eqb arg "--verbose" then
        parseArguments rest
          {| entityScoresDirOption := entityScoresDirOption options;
             outputFileOption := outputFileOption options;
             verboseOption := true |}
      else if String.eqb arg "--help" then Help
      else parseArguments rest options
  end.

(** [const options = {}]. *)
Definition noOptions : Options :=
  {| entityScoresDirOption := None; outputFileOption := None; verboseOption := false |}.

(** The command line of calculate-scores.js: the calls that change the disk
    and the code [process.exit] is given. *)
Definition calculateScoresCommand (h : Host) (rt : Runtime) (args : list string)
    : list FsEffect * nat :=
  match parseArguments args noOptions with
  | Help => ([], 0%nat)
  | Run options =>
      match calculateAllScores h rt (newScoreCalculator options) with
      | (effects, Normal _) => (effects, 0%nat)
      | (effects, Throw _) => (effects, 1%nat)
      end
  end.

(** ** process-pr-merge.js: the files of a pull request *)

(** [s] without the prefix [p], when it starts with it. *)
Fixpoint stripPrefix (p s : string) : option string :=
  match p with
  | EmptyString => Some s
  | String c p' =>
      match s with
      | EmptyString => None
      | String d s' => if Ascii.eqb c d then stripPrefix p' s' else None
      end
  end.

(** No "/" in the string. *)
Fixpoint noSlash (s : string) : bool :=
  match s with
  | EmptyString => true
  | String c s' => negb (Ascii.eqb c "/") && noSlash s'
  end.

(** [/^entity-scores\/[^/]+\.json$/.test(file)]: after the directory, one
    character at least that is no "/", then ".json" and the end; the
    extension has no "/", so the rest of the string has none. *)
Definition entityScorePattern (file : string) : bool :=
  match stripPrefix "entity-scores/" file with
  | Some rest => noSlash rest && endsWith ".json" rest && (5 <? String.length rest)%nat
  | None => false
  end.

(** [filterEntityScoreFiles], on [this.changedFiles]. *)
Definition filterEntityScoreFiles (h : Host) (changedFiles : list string)
    : completion (list string) :=
  if (List.length changedFiles =? 0)%nat then
    if existsSync h "./entity-scores" then
      (files <- readdirSync h "./entity-scores" ;;
       Normal (map (pathJoin h "./entity-scores") (filter (endsWith ".json") files)))%js
    else Normal []
  else Normal (filter (existsSync h) (filter entityScorePattern changedFiles)).

(** The integers sit inside the rationals, order and all. *)
Definition ZtoQc (z : Z) : Qc := Q2Qc (inject_Z z).


(** ** The words of the design document

    The sums, means and inclusion rules as the document phrases them: the
    theorems below compare the scripts with these.  The numbers are
    doubles: a sum adds its terms from the first to the last, each addition
    rounded, and a mean is one more rounded division. *)

Module Spec.

Definition sum (l : list number) : number := fold_left numAdd l (ofZ 0).

(** The arithmetic mean; the mean of no value is taken to be 0. *)
Definition mean (l : list number) : number :=
  match l with
  | [] => ofZ 0
  | _ :: _ => numDiv (sum l) (ofNat (List.length l))
  end.

(** The same without rounding, on rationals. *)
Definition exactSum (l : list Qc) : Qc := fold_right Qcplus (Q2Qc 0) l.

Definition exactMean (l : list Qc) : Qc :=
  match l with
  | [] => Q2Qc 0
  | _ :: _ => (exactSum l / ZtoQc (Z.of_nat (List.length l)))%Qc
  end.

(** The property [k] of a record, [undefined] when there is none. *)
Definition field (v : JsValue) (k : string) : JsValue :=
  match v with
  | JObj props => match lookup k props with Some x => x | None => JUndefined end
  | _ => JUndefined
  end.

(** Present: neither [null] nor absent. *)
Definition present (v : JsValue) : bool :=
  match v with
  | JNull | JUndefined => false
  | _ => true
  end.

Definition isTrue (v : JsValue) : bool :=
  match v with
  | JBool true => true
  | _ => false
  end.

(** "include only entries where scoreSuccess != unknown AND scorePercent is
    present AND isOptional is not true" *)
Definition included (entry : JsValue) : bool :=
  negb (isStr "unknown" (field entry "scoreSuccess"))
  && present (field entry "scorePercent")
  && negb (isTrue (field entry "isOptional")).

(** The percent an entry or an area result carries. *)
Definition percentOf (v : JsValue) : number :=
  match field v "scorePercent" with
  | JNum n => n
  | _ => NaN
  end.

(** "arithmetic mean of included entries' scorePercent" *)
Definition areaPercent (entries : list JsValue) : number :=
  mean (map percentOf (filter included entries)).

(** strictly greater than zero *)
Definition positive (n : number) : bool := numLt (ofZ 0) n.

(** "arithmetic mean of all Area percents that are strictly greater than
    zero ...  If no area qualifies, overall is 0." *)
Definition overallPercent (areaPercents : list number) : number :=
  mean (filter positive areaPercents).

(** An entry as the data model types it: an object whose [scorePercent] is a
    number or is null or absent, and whose [isOptional] is a boolean or is
    null or absent. *)
Definition wellTypedEntry (entry : JsValue) : bool :=
  match entry with
  | JObj _ =>
      match field entry "scorePercent" with
      | JUndefined | JNull | JNum _ => true
      | _ => false
      end
      && match field entry "isOptional" with
         | JUndefined | JNull | JBool _ => true
         | _ => false
         end
  | _ => false
  end.

(** An object in the sense of [typeof]: what [in] accepts. *)
Definition isObject (v : JsValue) : bool :=
  match v with
  | JObj _ | JArr _ => true
  | _ => false
  end.

(** "numeric and within [0,100]" *)
Definition percentInRange (v : JsValue) : bool :=
  match v with
  | JNum (Fin q) => Qcleb (ZtoQc 0) q && Qcleb q (ZtoQc 100)
  | _ => false
  end.

(** The six fixed categories. *)
Definition categories : list string :=
  [ "success"; "almost-success"; "partial"; "almost-failure"; "failure"; "unknown" ].

(** An area result, as [processAreaScore] returns it: an object whose
    [scorePercent] is a number. *)
Definition isAreaResult (area : JsValue) : bool :=
  match area with
  | JObj _ =>
      match field area "scorePercent" with
      | JNum _ => true
      | _ => false
      end
  | _ => false
  end.

Definition entriesOf (area : JsValue) : list JsValue :=
  match field area "scoreEntries" with
  | JArr entries => entries
  | _ => []
  end.

Definition areasOf (data : JsValue) : list JsValue :=
  match field data "areaScores" with
  | JArr areas => areas
  | _ => []
  end.

(** An area: an object whose [scoreEntries] is an array of well-typed
    entries. *)
Definition wellFormedArea (area : JsValue) : bool :=
  match area with
  | JObj _ =>
      match field area "scoreEntries" with
      | JArr entries => forallb wellTypedEntry entries
      | _ => false
      end
  | _ => false
  end.

(** A record whose [areaScores] is an array of such areas. *)
Definition areasWellFormed (data : JsValue) : bool :=
  match data with
  | JObj _ =>
      match field data "areaScores" with
      | JArr areas => forallb wellFormedArea areas
      | _ => false
      end
  | _ => false
  end.

(** "structurally valid": the entity reference is there and the areas are
    well formed. *)
Definition wellFormedRecord (data : JsValue) : bool :=
  truthy (field data "entityRef") && areasWellFormed data.

(** An entry may lack the [scorePercent] property only when it is unknown
    or optional ("absent/null when scoreSuccess = unknown"). *)
Definition percentGivenWhenScored (entry : JsValue) : bool :=
  negb (isUndefined (field entry "scorePercent"))
  || isStr "unknown" (field entry "scoreSuccess")
  || isTrue (field entry "isOptional").

Definition percentsGivenWhenScored (data : JsValue) : bool :=
  forallb (fun area => forallb percentGivenWhenScored (entriesOf area)) (areasOf data).

(** An area that keeps at least one entry. *)
Definition hasIncludedEntry (area : JsValue) : bool :=
  existsb included (entriesOf area).

(** The overall percent as the validator recomputes it: the mean of the area
    means over the areas that keep at least one entry. *)
Definition recomputedOverall (areas : list JsValue) : number :=
  mean (map (fun area => areaPercent (entriesOf area)) (filter hasIncludedEntry areas)).

(** The overall percent of the aggregator, from the record. *)
Definition aggregatedOverall (areas : list JsValue) : number :=
  overallPercent (map (fun area => areaPercent (entriesOf area)) areas).

(** "a difference greater than 1 percentage point": the difference is a
    double too, the rounded one. *)
Definition differsByMoreThanOne (stored recomputed : number) : bool :=
  numLt (ofZ 1) (MathAbs (numSub stored recomputed)).

(** What [processAreaScore] returns on a well-formed area. *)
Definition areaResultOf (area : JsValue) : JsValue :=
  JObj [ ("id", field area "id"); ("title", field area "title");
         ("scorePercent", JNum (areaPercent (entriesOf area)));
         ("scoreEntries", JArr (entriesOf area)) ].

End Spec.

(** ** Devices of the proofs *)

(** A validator that holds messages, and what a method adds to it. *)
Definition shift (held this : ScoreValidator) : ScoreValidator :=
  {| errors := errors held ++ errors this;
     warnings := warnings held ++ warnings this |}.

Definition framed {A} (m : V A) : Prop :=
  forall held this, m (shift held this) = (shift held (fst (m this)), snd (m this)).





(** A method that throws whatever the validator holds. *)
Definition throws {A} (m : V A) : Prop :=
  forall this, exists this' e, m this = (this', Throw e).

Definition withErrors (this : ScoreValidator) (es : list string) : ScoreValidator :=
  {| errors := errors this ++ es; warnings := warnings this |}.

Definition errorIf (b : bool) (message : string) : list string :=
  if b then [ "❌ ERROR: " +++ message ] else [].

(** The errors of [validateRequired]: one for each field that is not
    present. *)
Definition missingFieldErrors (obj : JsValue) (fields : list string) : list string :=
  flat_map (fun field =>
              errorIf (negb (Spec.present (Spec.field obj field)))
                ("Missing required field: " +++ field)) fields.

Definition percentOutOfRange (scorePercent : JsValue) : bool :=
  match scorePercent with
  | JNum n => numLt n (ofZ 0) || numGt n (ofZ 100)
  | _ => true
  end.

(** All the errors [validateScoreEntry] pushes for an entry that is an
    object. *)
Definition entryErrors (prefix : string) (entry : JsValue) : list string :=
  missingFieldErrors entry [ "id"; "title"; "scoreSuccess"; "details" ]
  ++ errorIf (negb (String.eqb (typeof (Spec.field entry "id")) "number"))
       (prefix +++ ".id must be a number")
  ++ errorIf (Spec.present (Spec.field entry "scorePercent")
              && percentOutOfRange (Spec.field entry "scorePercent"))
       (prefix +++ ".scorePercent must be a number between 0-100")
  ++ errorIf (negb (includesStr Spec.categories (Spec.field entry "scoreSuccess")))
       (prefix +++ ".scoreSuccess must be one of: success, almost-success, partial, almost-failure, failure, unknown").

Section Phases.

Variable rt : Runtime.

(** [validateEntityScore] up to its last line, the read of
    [this.errors.length]. *)
Definition validateEntityScoreBody (data : JsValue) : V unit :=
  (validateRequired data [ "entityRef"; "generatedDateTimeUtc"; "areaScores" ] ;;
   entityRef <- liftV (Get data "entityRef") ;;
   validateEntityRef rt entityRef ;;
   generatedDateTimeUtc <- liftV (Get data "generatedDateTimeUtc") ;;
   validateDateTime rt generatedDateTimeUtc "generatedDateTimeUtc" ;;
   scoringReviewDate <- liftV (Get data "scoringReviewDate") ;;
   when (truthy scoringReviewDate)
     (validateDateTime rt scoringReviewDate "scoringReviewDate") ;;
   areaScores <- liftV (Get data "areaScores") ;;
   match areaScores with
   | JArr areas => forEachV (validateAreaScore rt) areas 0
   | _ => addError "areaScores must be an array"
   end ;;
   validateCalculatedScores rt data)%validator.

(** The statements of [validateScoreEntry] that push errors... *)
Definition entryErrorChecks (entry : JsValue) (prefix : string) : V (JsValue * JsValue) :=
  (validateRequired entry [ "id"; "title"; "scoreSuccess"; "details" ] ;;
   id <- liftV (Get entry "id") ;;
   when (negb (String.eqb (typeof id) "number"))
     (addError (prefix +++ ".id must be a number")) ;;
   scorePercent <- liftV (Get entry "scorePercent") ;;
   when (negb (isNull scorePercent) && negb (isUndefined scorePercent))
     (when (match scorePercent with
            | JNum n => numLt n (ofZ 0) || numGt n (ofZ 100)
            | _ => true
            end)
        (addError (prefix +++ ".scorePercent must be a number between 0-100"))) ;;
   scoreSuccess <- liftV (Get entry "scoreSuccess") ;;
   when (negb (includesStr [ "success"; "almost-success"; "partial";
                             "almost-failure"; "failure"; "unknown" ] scoreSuccess))
     (addError (prefix +++ ".scoreSuccess must be one of: success, almost-success, partial, almost-failure, failure, unknown")) ;;
   retV (scorePercent, scoreSuccess))%validator.

(** ... and those that push warnings. *)
Definition entryWarningChecks (entry : JsValue) (prefix : string)
    (scorePercent scoreSuccess : JsValue) : V unit :=
  ((if negb (isNull scorePercent) && negb (isStr "unknown" scoreSuccess) then
      expectedCategory <- liftV (getScoreCategory rt scorePercent) ;;
      if negb (isStr expectedCategory scoreSuccess) then
        shownPercent <- liftV (ToString rt scorePercent) ;;
        shownSuccess <- liftV (ToString rt scoreSuccess) ;;
        addWarning (prefix +++ ": scorePercent (" +++ shownPercent +++ ") suggests '"
                    +++ expectedCategory +++ "' but scoreSuccess is '"
                    +++ shownSuccess +++ "'")
      else retV tt
    else retV tt) ;;
   comments <- liftV (Get entry "selfAssessmentComments") ;;
   if truthy comments then
     todo <- liftV (jsIncludes comments "TODO:") ;;
     when todo (addWarning (prefix +++ ": Self-assessment comments contain TODO placeholder"))
   else retV tt)%validator.

(** The warning of [validateCalculatedScores]. *)
Definition driftWarning (stored recomputed : number) : string :=
  "Overall scorePercent (" +++ NumberToString rt stored
  +++ ") differs from calculated value (" +++ toFixed1 rt recomputed +++ ")".

End Phases.

(** ** A reference runtime

    One runtime, to evaluate the scripts on concrete records.  It does what
    Node does on the values the examples below print and parse: whole
    numbers and doubles with a short binary fraction (halves, quarters)
    print in decimal notation, plain digit strings convert to their number,
    and the ISO forms "YYYY-MM-DD" and "YYYY-MM-DDTHH:MM:SSZ" are the dates
    it parses.  The general theorems do not depend on it. *)

Module Reference.

Definition digitOf (c : ascii) : option nat :=
  let n := nat_of_ascii c in
  if (48 <=? n)%nat && (n <=? 57)%nat then Some (n - 48)%nat else None.

(** The number two digits spell, within [lo..hi]. *)
Definition twoDigits (a b : ascii) (lo hi : nat) : bool :=
  match digitOf a, digitOf b with
  | Some x, Some y => (lo <=? 10 * x + y)%nat && (10 * x + y <=? hi)%nat
  | _, _ => false
  end.

Definition isDigit (c : ascii) : bool :=
  match digitOf c with Some _ => true | None => false end.

Definition isoDate (l : list ascii) : bool :=
  match l with
  | [ y1; y2; y3; y4; d1; m1; m2; d2; a; b ] =>
      isDigit y1 && isDigit y2 && isDigit y3 && isDigit y4
      && Ascii.eqb d1 "-" && twoDigits m1 m2 1 12
      && Ascii.eqb d2 "-" && twoDigits a b 1 31
  | _ => false
  end.

Definition isoTime (l : list ascii) : bool :=
  match l with
  | [ t; h1; h2; c1; m1; m2; c2; s1; s2; z ] =>
      Ascii.eqb t "T" && twoDigits h1 h2 0 23
      && Ascii.eqb c1 ":" && twoDigits m1 m2 0 59
      && Ascii.eqb c2 ":" && twoDigits s1 s2 0 59
      && Ascii.eqb z "Z"
  | _ => false
  end.

Definition parsesAsDate (s : string) : bool :=
  let l := list_ascii_of_string s in
  isoDate l || (isoDate (firstn 10 l) && isoTime (skipn 10 l)).

Definition printZ (z : Z) : string := NilZero.string_of_int (Z.to_int z).

(** The digits after the point, by long division, [fuel] of them at most. *)
Fixpoint fraction (fuel : nat) (r d : Z) : string :=
  match fuel with
  | O => ""
  | S fuel' =>
      if (r =? 0)%Z then ""
      else printZ (10 * r / d) +++ fraction fuel' (10 * r mod d) d
  end.

Definition printQ (q : Q) : string :=
  let n := Z.abs (Qnum q) in
  let d := Z.pos (Qden q) in
  (if (Qnum q <? 0)%Z then "-" else "")
  +++ printZ (n / d)
  +++ (if (n mod d =? 0)%Z then "" else "." +++ fraction 16 (n mod d) d).

Definition printNumber (n : number) : string :=
  match n with
  | NaN => "NaN"
  | Fin q => printQ (this q)
  | Inf false => "Infinity"
  | Inf true => "-Infinity"
  end.

(** One digit after the point, the nearest, a tie going away from zero. *)
Definition printFixed1 (n : number) : string :=
  match n with
  | NaN => "NaN"
  | Fin q =>
      let tenths := Qfloor (Qabs (this q) * 10 + (1 # 2)) in
      (if (Qnum (this q) <? 0)%Z then "-" else "")
      +++ printZ (tenths / 10) +++ "." +++ printZ (tenths mod 10)
  | Inf false => "Infinity"
  | Inf true => "-Infinity"
  end.

Definition parseNumber (s : string) : number :=
  match NilEmpty.uint_of_string s with
  | Some u => ofZ (Z.of_uint u)
  | None => NaN
  end.

(** The conversions alone; [newDate] needs them to turn an array or an
    object into the string it parses. *)
Definition conversions : Runtime :=
  {| StringToNumber := parseNumber;
     NumberToString := printNumber;
     toFixed1 := printFixed1;
     NewDate := fun _ => DateInvalid;
     nowISOString := "" |}.

Definition newDate (v : JsValue) : DateResult :=
  match v with
  | JUndefined | JNum NaN | JNum (Inf _) => DateInvalid
  | JNull | JBool _ => DateValid
  | JNum (Fin q) =>
      if Qle_bool (Qabs (this q)) (inject_Z 8640000000000000) then DateValid
      else DateInvalid
  | JStr s => if parsesAsDate s then DateValid else DateInvalid
  | JArr _ | JObj _ =>
      match ToString conversions v with
      | Normal s => if parsesAsDate s then DateValid else DateInvalid
      | Throw _ => DateThrows "Cannot convert object to primitive value"
      end
  end.

Definition runtime : Runtime :=
  {| StringToNumber := parseNumber;
     NumberToString := printNumber;
     toFixed1 := printFixed1;
     NewDate := newDate;
     nowISOString := "2024-06-01T00:00:00.000Z" |}.

End Reference.

(** ** The range loop on a number

    What [firstInRange] computes when the percent is a number: no coercion
    takes place and nothing can throw. *)

Definition inRange (n : number) (r : range) : bool :=
  numGe n (ofZ (min r)) && numLe n (ofZ (max r)).

Fixpoint firstBand (table : list (string * range)) (n : number) (fallback : string)
    : string :=
  match table with
  | [] => fallback
  | (name, r) :: rest => if inRange n r then name else firstBand rest n fallback
  end.

Definition labelOf (n : number) : string := firstBand COLOR_MAPPING n "Red".

Definition successOf (n : number) : string :=
  firstBand SCORE_SUCCESS_MAPPING n "failure".

(** The summary of an area in the output, from the area of the record. *)
Definition areaSummaryOf (area : JsValue) : JsValue :=
  let percent := Spec.areaPercent (Spec.entriesOf area) in
  JObj [ ("id", Spec.field area "id"); ("title", Spec.field area "title");
         ("scorePercent", JNum (MathRound percent));
         ("scoreLabel", JStr (labelOf percent));
         ("scoreSuccess", JStr (successOf percent)) ].

(** The overall percent, label and category of the output. *)
Definition overallFieldsOf (areas : list JsValue) : list (string * JsValue) :=
  let overall := Spec.aggregatedOverall areas in
  [ ("scorePercent", JNum (MathRound overall));
    ("scoreLabel", JStr (labelOf overall));
    ("scoreSuccess", JStr (successOf overall)) ].

(** The shape of an area summary and of an output: the properties, in
    order, and where their values come from. *)
Definition isAreaSummary (summary : JsValue) : Prop :=
  exists id title percent label success,
    summary = JObj [ ("id", id); ("title", title);
                     ("scorePercent", JNum (MathRound percent));
                     ("scoreLabel", JStr label);
                     ("scoreSuccess", JStr success) ].

Definition isProjectionOf (rt : Runtime) (data output : JsValue) : Prop :=
  let entityRef := Spec.field data "entityRef" in
  let namespace := Spec.field entityRef "namespace" in
  let generated := Spec.field data "generatedDateTimeUtc" in
  let reviewer := Spec.field data "scoringReviewer" in
  let reviewDate := Spec.field data "scoringReviewDate" in
  exists percent label success summaries,
    output
    = JObj (
        [ ("entityRef",
           JObj ([ ("kind", Spec.field entityRef "kind");
                   ("name", Spec.field entityRef "name") ]
                 ++ (if truthy namespace && negb (isStr "default" namespace)
                     then [ ("namespace", namespace) ] else [])));
          ("generatedDateTimeUtc",
           if truthy generated then generated else JStr (nowISOString rt));
          ("scorePercent", JNum (MathRound percent));
          ("scoreLabel", JStr label);
          ("scoreSuccess", JStr success) ]
        ++ (if truthy reviewer then [ ("scoringReviewer", reviewer) ] else [])
        ++ (if truthy reviewDate then [ ("scoringReviewDate", reviewDate) ] else [])
        ++ [ ("areaScores", JArr summaries) ])
    /\ Forall isAreaSummary summaries
    /\ List.length summaries = List.length (Spec.areasOf data).

(** The output for a record all of whose areas have percent 0: it reads the
    entity reference, the dates, the reviewer and the areas' ids and titles,
    and nothing of the entries. *)
Definition zeroSummaryOf (area : JsValue) : JsValue :=
  JObj [ ("id", Spec.field area "id"); ("title", Spec.field area "title");
         ("scorePercent", JNum (ofZ 0));
         ("scoreLabel", JStr "Red");
         ("scoreSuccess", JStr "failure") ].

Definition zeroOutputOf (rt : Runtime) (data : JsValue) : JsValue :=
  let entityRef := Spec.field data "entityRef" in
  let namespace := Spec.field entityRef "namespace" in
  let generated := Spec.field data "generatedDateTimeUtc" in
  let reviewer := Spec.field data "scoringReviewer" in
  let reviewDate := Spec.field data "scoringReviewDate" in
  JObj (
    [ ("entityRef",
       JObj ([ ("kind", Spec.field entityRef "kind");
               ("name", Spec.field entityRef "name") ]
             ++ spreadIf (truthy namespace && negb (isStr "default" namespace))
                  "namespace" namespace));
      ("generatedDateTimeUtc",
       if truthy generated then generated else JStr (nowISOString rt));
      ("scorePercent", JNum (ofZ 0));
      ("scoreLabel", JStr "Red");
      ("scoreSuccess", JStr "failure") ]
    ++ spreadIf (truthy reviewer) "scoringReviewer" reviewer
    ++ spreadIf (truthy reviewDate) "scoringReviewDate" reviewDate
    ++ [ ("areaScores", JArr (map zeroSummaryOf (Spec.areasOf data))) ]).

(** ** Devices of the further proofs *)

(** Every kept entry of the area carries a percent of [0,100]. *)
Definition keptPercentsInRange (area : JsValue) : bool :=
  forallb (fun entry =>
             negb (Spec.included entry)
             || Spec.percentInRange (Spec.field entry "scorePercent"))
    (Spec.entriesOf area).

(** The arrays of the record have the size of a JavaScript array: a length
    below [2^32].  The sums of doubles need it: the sum of so many percents
    of [0,100] stays within 100 times their number, which is a double. *)
Definition fits {A} (l : list A) : bool := (Z.of_nat (List.length l) <? 2 ^ 32)%Z.

Definition arraysFit (data : JsValue) : bool :=
  fits (Spec.areasOf data)
  && forallb (fun area => fits (Spec.entriesOf area)) (Spec.areasOf data).

(** The sum of whole numbers. *)
Definition sumZ (l : list Z) : Z := fold_right Z.add 0%Z l.


(** A number of [0,100]. *)
Definition isPercent (n : number) : Prop :=
  exists q : Qc, n = Fin q /\ (ZtoQc 0 <= q)%Qc /\ (q <= ZtoQc 100)%Qc.

(** A whole number of 0..100. *)
Definition wholePercent (v : JsValue) : bool :=
  match v with
  | JNum (Fin q) =>
      Qceqb q (ZtoQc (Qfloor (this q))) && Qcleb (ZtoQc 0) q && Qcleb q (ZtoQc 100)
  | _ => false
  end.

(** An entry that is not kept, or whose percent is a whole number of
    0..100; and that number. *)
Definition keptPercentWhole (entry : JsValue) : bool :=
  negb (Spec.included entry) || wholePercent (Spec.field entry "scorePercent").

Definition wholeOf (entry : JsValue) : Z :=
  match Spec.percentOf entry with
  | Fin q => Qfloor (this q)
  | _ => 0%Z
  end.

(** A computation that throws nothing but a [TypeError]. *)
Definition throwsTypeErrorOnly {A} (c : completion A) : Prop :=
  forall e, c = Throw e -> e = TypeError.

(** A value that [ToString] converts without a throw: no object of it
    shadows [toString]. *)
Fixpoint printable (v : JsValue) : bool :=
  match v with
  | JArr elems => forallb printable elems
  | JObj props => negb (hasKey "toString" props)
  | _ => true
  end.

(** A primitive value, as [ToPrimitive] returns it. *)
Definition isPrimitive (v : JsValue) : bool :=
  match v with
  | JArr _ | JObj _ => false
  | _ => true
  end.

(** Comments on which [.includes] can be called, or that are not there. *)
Definition quietComments (comments : JsValue) : bool :=
  match comments with
  | JStr _ | JArr _ => true
  | _ => negb (truthy comments)
  end.

Definition quietEntry (entry : JsValue) : bool :=
  Spec.isObject entry
  && printable (Spec.field entry "scorePercent")
  && printable (Spec.field entry "scoreSuccess")
  && quietComments (Spec.field entry "selfAssessmentComments").

Definition quietArea (area : JsValue) : bool :=
  match Spec.field area "scoreEntries" with
  | JArr entries => forallb quietEntry entries
  | _ => false
  end.

Definition quietRecord (data : JsValue) : bool :=
  printable (Spec.field (Spec.field data "entityRef") "kind")
  && printable (Spec.field data "scorePercent")
  && match Spec.field data "areaScores" with
     | JArr areas => forallb quietArea areas
     | _ => false
     end.

(** The arrays and objects the validator walks through: an array of areas,
    each with an array of entries, each an object. *)
Definition hasSkeleton (data : JsValue) : bool :=
  match Spec.field data "areaScores" with
  | JArr areas =>
      forallb (fun area =>
                 match Spec.field area "scoreEntries" with
                 | JArr entries => forallb Spec.isObject entries
                 | _ => false
                 end) areas
  | _ => false
  end.

(** A method that returns [a] after pushing the errors [es], and warnings
    perhaps. *)
Definition reports {A} (m : V A) (es : list string) (a : A) : Prop :=
  forall this, exists ws,
    m this = ({| errors := errors this ++ es; warnings := warnings this ++ ws |}, Normal a).

Fixpoint flat_mapi {A B} (f : nat -> A -> list B) (l : list A) (i : nat) : list B :=
  match l with
  | [] => []
  | x :: rest => f i x ++ flat_mapi f rest (S i)
  end.

Definition entityRefErrors (entityRef : JsValue) : list string :=
  if negb (truthy entityRef) || negb (String.eqb (typeof entityRef) "object")
  then errorIf true "entityRef must be an object"
  else missingFieldErrors entityRef [ "kind"; "name" ].

Definition dateErrors (rt : Runtime) (dateStr : JsValue) (fieldName : string) : list string :=
  match NewDate rt dateStr with
  | DateValid => []
  | DateInvalid => errorIf true (fieldName +++ " is not a valid ISO date")
  | DateThrows message => errorIf true (fieldName +++ " is not a valid date: " +++ message)
  end.

Definition areaPrefix (rt : Runtime) (index : nat) : string :=
  "areaScores[" +++ NumberToString rt (ofNat index) +++ "]".

Definition entryPrefix (rt : Runtime) (index entryIndex : nat) : string :=
  areaPrefix rt index +++ ".scoreEntries[" +++ NumberToString rt (ofNat entryIndex) +++ "]".

Definition areaErrors (rt : Runtime) (index : nat) (area : JsValue) : list string :=
  missingFieldErrors area [ "id"; "title"; "scoreEntries" ]
  ++ errorIf (negb (String.eqb (typeof (Spec.field area "id")) "number"))
       (areaPrefix rt index +++ ".id must be a number")
  ++ match Spec.field area "scoreEntries" with
     | JArr entries =>
         errorIf (List.length entries =? 0)%nat
           (areaPrefix rt index +++ ".scoreEntries cannot be empty")
         ++ flat_mapi (fun entryIndex entry =>
                         entryErrors (entryPrefix rt index entryIndex) entry) entries 0
     | _ => errorIf true (areaPrefix rt index +++ ".scoreEntries must be an array")
     end.

(** All the errors [validateEntityScore] pushes for a record. *)
Definition recordErrors (rt : Runtime) (data : JsValue) : list string :=
  missingFieldErrors data [ "entityRef"; "generatedDateTimeUtc"; "areaScores" ]
  ++ entityRefErrors (Spec.field data "entityRef")
  ++ dateErrors rt (Spec.field data "generatedDateTimeUtc") "generatedDateTimeUtc"
  ++ (if truthy (Spec.field data "scoringReviewDate")
      then dateErrors rt (Spec.field data "scoringReviewDate") "scoringReviewDate"
      else [])
  ++ match Spec.field data "areaScores" with
     | JArr areas => flat_mapi (areaErrors rt) areas 0
     | _ => errorIf true "areaScores must be an array"
     end.

(** The rules a record is checked against, read as conditions on the
    record. *)
Module Rules.

Definition allPresent (obj : JsValue) (fields : list string) : bool :=
  forallb (fun field => Spec.present (Spec.field obj field)) fields.

Definition isNumber (v : JsValue) : bool :=
  match v with JNum _ => true | _ => false end.

Definition validDate (rt : Runtime) (v : JsValue) : bool :=
  match NewDate rt v with DateValid => true | _ => false end.

Definition entry (e : JsValue) : bool :=
  allPresent e [ "id"; "title"; "scoreSuccess"; "details" ]
  && isNumber (Spec.field e "id")
  && (negb (Spec.present (Spec.field e "scorePercent"))
      || negb (percentOutOfRange (Spec.field e "scorePercent")))
  && includesStr Spec.categories (Spec.field e "scoreSuccess").

Definition area (a : JsValue) : bool :=
  allPresent a [ "id"; "title" ]
  && isNumber (Spec.field a "id")
  && match Spec.field a "scoreEntries" with
     | JArr entries => negb (List.length entries =? 0)%nat && forallb entry entries
     | _ => false
     end.

Definition entityRef (r : JsValue) : bool :=
  Spec.isObject r && allPresent r [ "kind"; "name" ].

Definition record (rt : Runtime) (data : JsValue) : bool :=
  allPresent data [ "entityRef"; "generatedDateTimeUtc"; "areaScores" ]
  && entityRef (Spec.field data "entityRef")
  && validDate rt (Spec.field data "generatedDateTimeUtc")
  && (negb (truthy (Spec.field data "scoringReviewDate"))
      || validDate rt (Spec.field data "scoringReviewDate"))
  && match Spec.field data "areaScores" with
     | JArr areas => forallb area areas
     | _ => false
     end.

End Rules.

(** The field lists the script passes to [validateRequired]. *)
Definition requiredFieldLists : list (list string) :=
  [ [ "entityRef"; "generatedDateTimeUtc"; "areaScores" ];
    [ "kind"; "name" ];
    [ "id"; "title"; "scoreEntries" ];
    [ "id"; "title"; "scoreSuccess"; "details" ] ].

(** The warning of the consistency check, for a percent [n] declared [s]. *)
Definition consistencyWarnings (rt : Runtime) (prefix : string) (n : number) (s : string)
    : list string :=
  let expected := firstBand SCORE_SUCCESS_MAPPING n "unknown" in
  if negb (String.eqb s "unknown") && negb (String.eqb s expected)
  then [ "⚠️  WARNING: " +++ prefix +++ ": scorePercent (" +++ NumberToString rt n
         +++ ") suggests '" +++ expected +++ "' but scoreSuccess is '" +++ s +++ "'" ]
  else [].

(** Comments that hold the placeholder: a string that contains it, an array
    that has it as an element. *)
Definition mentionsTodo (comments : JsValue) : bool :=
  match comments with
  | JStr c => stringIncludes "TODO:" c
  | JArr elems => existsb (isStr "TODO:") elems
  | _ => false
  end.

Definition todoWarnings (prefix : string) (comments : JsValue) : list string :=
  if mentionsTodo comments
  then [ "⚠️  WARNING: " +++ prefix +++ ": Self-assessment comments contain TODO placeholder" ]
  else [].

(** What the validator does not look at: a percent is not [NaN] (JSON has
    none) and [isOptional], when given, is a boolean. *)
Definition entryAsDeclared (entry : JsValue) : bool :=
  match Spec.field entry "scorePercent" with
  | JNum NaN => false
  | _ => true
  end
  && match Spec.field entry "isOptional" with
     | JUndefined | JNull | JBool _ => true
     | _ => false
     end.

Definition entriesAsDeclared (data : JsValue) : bool :=
  forallb (fun area => forallb entryAsDeclared (Spec.entriesOf area)) (Spec.areasOf data).

(** A file that is valid when it is validated alone, on a validator of its
    own. *)
Definition validAlone (h : Host) (rt : Runtime) (file : string) : Prop :=
  snd (validateFile h rt file newScoreValidator) = Normal true.

(** The name the output of [processEntityFile] carries. *)
Definition nameOf (score : JsValue) : JsValue :=
  Spec.field (Spec.field score "entityRef") "name".

Definition nameText (score : JsValue) : string :=
  match nameOf score with
  | JStr s => s
  | _ => ""
  end.

Definition hasNameText (score : JsValue) : bool :=
  match nameOf score with
  | JStr _ => true
  | _ => false
  end.

(** The outputs of the files that [processEntityFile] returns on, in the
    order of the files. *)
Definition processedScores (h : Host) (rt : Runtime) (files : list string) : list JsValue :=
  flat_map (fun file =>
              match processEntityFileAt h rt file with
              | Normal entityScore => [ entityScore ]
              | Throw _ => []
              end) files.

(** The files it throws on. *)
Definition failedFiles (h : Host) (rt : Runtime) (files : list string) : list string :=
  filter (fun file =>
            match processEntityFileAt h rt file with
            | Normal _ => false
            | Throw _ => true
            end) files.

(** An order that [localeCompare] gives: total and transitive, and two
    strings that compare equal do so whichever is asked about the other. *)
Definition consistentCollation (h : Host) : Prop :=
  (forall a b, (localeCompare h a b <= 0)%Z \/ (localeCompare h b a <= 0)%Z)
  /\ (forall a b c,
         (localeCompare h a b <= 0)%Z -> (localeCompare h b c <= 0)%Z ->
         (localeCompare h a c <= 0)%Z)
  /\ (forall a b, localeCompare h a b = 0%Z -> localeCompare h b a = 0%Z).

Definition inNameOrder (h : Host) (a b : JsValue) : Prop :=
  (localeCompare h (nameText a) (nameText b) <= 0)%Z.

(** The error messages of the loop, in the order of the files. *)
Definition processingErrors (h : Host) (rt : Runtime) (this : ScoreCalculator)
    (files : list string) : list string :=
  flat_map (fun file =>
              match processEntityFileAt h rt file with
              | Normal entityScore =>
                  if verbose this then
                    match processedLine rt entityScore with
                    | Normal _ => []
                    | Throw error => [ processingError h file error ]
                    end
                  else []
              | Throw error => [ processingError h file error ]
              end) files.

(** The four options the command line knows. *)
Definition isOption (arg : string) : bool :=
  String.eqb arg "--entity-scores-dir" || String.eqb arg "--output"
  || String.eqb arg "--verbose" || String.eqb arg "--help".

(** The arguments end on "--entity-scores-dir" or "--output" read as an
    option: the argument that follows them is the value of that option. *)
Fixpoint expectsValue (args : list string) : bool :=
  match args with
  | [] => false
  | arg :: rest =>
      if String.eqb arg "--entity-scores-dir" || String.eqb arg "--output" then
        match rest with
        | [] => true
        | _ :: rest' => expectsValue rest'
        end
      else expectsValue rest
  end.

(** ** Records to run the scripts on *)

Module Example.

Definition num (z : Z) : JsValue := JNum (ofZ z).

(** The number a decimal literal of the JSON text denotes: the double
    nearest to it. *)
Definition dec (n : Z) (d : positive) : JsValue :=
  JNum (Binary64.round (Q2Qc (n # d))).

(** A complete entry: [{ id, title, scoreSuccess, scorePercent, details }]. *)
Definition entry (id : Z) (scorePercent : JsValue) (scoreSuccess : string) : JsValue :=
  JObj [ ("id", num id); ("title", JStr "Criterion");
         ("scoreSuccess", JStr scoreSuccess); ("scorePercent", scorePercent);
         ("details", JStr "Details") ].

(** The same with [isOptional: true]. *)
Definition optionalEntry (id : Z) (scorePercent : JsValue) (scoreSuccess : string) : JsValue :=
  JObj [ ("id", num id); ("title", JStr "Criterion");
         ("scoreSuccess", JStr scoreSuccess); ("scorePercent", scorePercent);
         ("details", JStr "Details"); ("isOptional", JBool true) ].

(** An entry that has no [scorePercent] property. *)
Definition entryWithoutPercent (id : Z) (scoreSuccess : string) : JsValue :=
  JObj [ ("id", num id); ("title", JStr "Criterion");
         ("scoreSuccess", JStr scoreSuccess); ("details", JStr "Details") ].

Definition areaProps (id : Z) (entries : list JsValue) : list (string * JsValue) :=
  [ ("id", num id); ("title", JStr "Documentation"); ("scoreEntries", JArr entries) ].

Definition area (id : Z) (entries : list JsValue) : JsValue :=
  JObj (areaProps id entries).

Definition entityRef : JsValue :=
  JObj [ ("kind", JStr "component"); ("name", JStr "billing-service") ].

Definition recordProps (areas : list JsValue) : list (string * JsValue) :=
  [ ("entityRef", entityRef);
    ("generatedDateTimeUtc", JStr "2024-01-15T10:30:00Z");
    ("areaScores", JArr areas) ].

Definition record (areas : list JsValue) : JsValue := JObj (recordProps areas).

(** An area result, as [processAreaScore] returns it. *)
Definition areaResultOf (id : Z) (scorePercent : JsValue) : JsValue :=
  JObj [ ("id", num id); ("title", JStr "Documentation");
         ("scorePercent", scorePercent); ("scoreEntries", JArr []) ].


(** Percents 80, 60 and 40, then an unknown entry with a stray percent and
    an optional one. *)
Definition mixedEntries : list JsValue :=
  [ entry 1 (num 80) "success"; entry 2 (num 60) "partial";
    entry 3 (num 40) "almost-failure"; entry 4 (num 10) "unknown";
    optionalEntry 5 (num 100) "success" ].

(** Percents 67.1, 70.3 and 72.6: their sum as doubles is not 210. *)
Definition decimalEntries : list JsValue :=
  [ entry 1 (dec 671 10) "partial"; entry 2 (dec 703 10) "almost-success";
    entry 3 (dec 726 10) "almost-success" ].

(** The same, the last two the other way round. *)
Definition decimalEntriesSwapped : list JsValue :=
  [ entry 1 (dec 671 10) "partial"; entry 3 (dec 726 10) "almost-success";
    entry 2 (dec 703 10) "almost-success" ].

(** Three areas that average to 47.5, 26.666666666666668 and
    83.33333333333333, and the same with the last two swapped. *)
Definition threeAreas : list JsValue :=
  [ area 1 [ entry 1 (num 9) "failure"; entry 2 (num 86) "success" ];
    area 2 [ entry 1 (num 20) "failure"; entry 2 (num 25) "failure";
             entry 3 (num 35) "almost-failure" ];
    area 3 [ entry 1 (num 75) "almost-success"; entry 2 (num 100) "success";
             entry 3 (num 75) "almost-success" ] ].

Definition threeAreasSwapped : list JsValue :=
  [ area 1 [ entry 1 (num 9) "failure"; entry 2 (num 86) "success" ];
    area 3 [ entry 1 (num 75) "almost-success"; entry 2 (num 100) "success";
             entry 3 (num 75) "almost-success" ];
    area 2 [ entry 1 (num 20) "failure"; entry 2 (num 25) "failure";
             entry 3 (num 35) "almost-failure" ] ].

(** One area whose two entries, 69 and 70, average to 69.5. *)
Definition betweenBands : JsValue :=
  record [ area 1 [ entry 1 (num 69) "partial"; entry 2 (num 70) "almost-success" ] ].

(** A record that has no [areaScores] property. *)
Definition recordWithoutAreas : JsValue :=
  JObj [ ("entityRef", entityRef);
         ("generatedDateTimeUtc", JStr "2024-01-15T10:30:00Z") ].

(** A record whose one area has no entry: an error. *)
Definition recordWithEmptyArea : JsValue := record [ area 1 [] ].

(** A record that passes every check. *)
Definition soundRecord : JsValue :=
  record [ area 1 [ entry 1 (num 90) "success" ] ].

(** An area whose one entry scored 0 and one whose entry scored 100, in a
    record that stores the overall percent 100. *)
Definition recordWithZeroArea : JsValue :=
  JObj (recordProps [ area 1 [ entry 1 (num 0) "failure" ];
                      area 2 [ entry 1 (num 100) "success" ] ]
        ++ [ ("scorePercent", num 100) ]).

(** One entry at 50, in a record that stores the overall percent 0. *)
Definition recordStoringZero : JsValue :=
  JObj (recordProps [ area 1 [ entry 1 (num 50) "partial" ] ]
        ++ [ ("scorePercent", num 0) ]).

(** Two areas at 90 and 70, in a record that stores the overall percent 60. *)
Definition recordThatDrifted : JsValue :=
  JObj (recordProps [ area 1 [ entry 1 (num 90) "success" ];
                      area 2 [ entry 1 (num 70) "almost-success" ] ]
        ++ [ ("scorePercent", num 60) ]).

(** Three areas that average to 60, 76.66666666666667 and
    28.333333333333332, in a record that stores the overall percent 54:
    the three doubles add up to a little more than 165. *)
Definition recordOffByOne : JsValue :=
  JObj (recordProps
          [ area 1 [ entry 1 (num 45) "almost-failure"; entry 2 (num 75) "almost-success";
                     entry 3 (num 60) "partial" ];
            area 2 [ entry 1 (num 60) "partial"; entry 2 (num 75) "almost-success";
                     entry 3 (num 95) "success" ];
            area 3 [ entry 1 (num 0) "failure"; entry 2 (num 60) "partial";
                     entry 3 (num 25) "failure" ] ]
        ++ [ ("scorePercent", num 54) ]).

(** A reviewed record in the namespace "payments": one area at 80, 60 and
    40, one at 66 and 67. *)
Definition reviewedRecord : JsValue :=
  JObj [ ("entityRef",
          JObj [ ("kind", JStr "component"); ("name", JStr "billing-service");
                 ("namespace", JStr "payments") ]);
         ("generatedDateTimeUtc", JStr "2024-01-15T10:30:00Z");
         ("scoringReviewer", JStr "A. Reviewer");
         ("scoringReviewDate", JStr "2024-02-01T09:00:00Z");
         ("areaScores",
          JArr [ area 1 mixedEntries;
                 area 2 [ entry 1 (num 66) "partial"; entry 2 (num 67) "partial" ] ]) ].

(** No timestamp, no reviewer, the namespace "default". *)
Definition bareRecord : JsValue :=
  JObj [ ("entityRef",
          JObj [ ("kind", JStr "api"); ("name", JStr "ledger");
                 ("namespace", JStr "default") ]);
         ("areaScores", JArr [ area 1 [ entry 1 (num 50) "partial" ] ]) ].

(** Three areas that average to 41.666666666666664, 44.5 and
    23.333333333333332: on paper the overall is 36.5, the doubles give
    36.49999999999999. *)
Definition recordBelowHalf : JsValue :=
  record
    [ area 1 [ entry 1 (num 100) "success"; entry 2 (num 20) "failure";
               entry 3 (num 5) "failure" ];
      area 2 [ entry 1 (num 47) "almost-failure"; entry 2 (num 42) "almost-failure" ];
      area 3 [ entry 1 (num 0) "failure"; entry 2 (num 40) "almost-failure";
               entry 3 (num 30) "almost-failure" ] ].

(** A record whose timestamp is there and is empty. *)
Definition recordWithEmptyTimestamp : JsValue :=
  JObj [ ("entityRef", entityRef);
         ("generatedDateTimeUtc", JStr EmptyString);
         ("areaScores", JArr [ area 1 [ entry 1 (num 50) "partial" ] ]) ].

(** Every entry unknown or optional... *)
Definition unscoredRecord : JsValue :=
  record [ area 1 [ entry 1 JNull "unknown"; optionalEntry 2 (num 90) "success" ];
           area 2 [ entry 1 (num 40) "unknown" ] ].

(** ... and the same areas, every entry scored 0. *)
Definition zeroScoredRecord : JsValue :=
  record [ area 1 [ entry 1 (num 0) "failure"; entry 2 (num 0) "failure" ];
           area 2 [ entry 1 (num 0) "failure" ] ].

End Example.

(** ** A disk to run the scripts on

    One host: the directory [./entity-scores] holds three records, a text
    that is not JSON and a file that is no record at all.  The theorems do
    not depend on it. *)

Module Disk.

(** The texts of the files, by name, and what [JSON.parse] makes of them. *)
Definition texts : list (string * string) :=
  [ ("entity-scores/ledger.json", "the text of ledger.json");
    ("entity-scores/billing-service.json", "the text of billing-service.json");
    ("entity-scores/broken.json", "{ not JSON");
    ("entity-scores/empty.json", "{}") ].

Definition parsed : list (string * JsValue) :=
  [ ("the text of ledger.json", Example.bareRecord);
    ("the text of billing-service.json", Example.reviewedRecord);
    ("{}", JObj []) ].

Fixpoint find {A} (k : string) (table : list (string * A)) : option A :=
  match table with
  | [] => None
  | (k', v) :: rest => if String.eqb k k' then Some v else find k rest
  end.

(** [path.join] on a directory and a name: a leading "./" goes. *)
Definition join (dir file : string) : string :=
  (if prefix "./" dir then substring 2 (String.length dir - 2) dir else dir)
  +++ "/" +++ file.

(** [path.dirname], for a path that has one separator at most. *)
Definition dirname (path : string) : string :=
  match index 0 "/" path with
  | Some n => if (n =? 0)%nat then "/" else substring 0 n path
  | None => "."
  end.

(** [JSON.stringify(value, null, 2)], for strings that need no escape. *)
Definition quote : string := String (ascii_of_nat 34) EmptyString.
Definition newline : string := String (ascii_of_nat 10) EmptyString.

Fixpoint spaces (n : nat) : string :=
  match n with
  | O => EmptyString
  | S n' => " " +++ spaces n'
  end.

Definition lines (l : list string) : string :=
  fold_right (fun line rest =>
                if String.eqb rest EmptyString then line
                else line +++ "," +++ newline +++ rest) EmptyString l.

Fixpoint stringify (indent : nat) (v : JsValue) : string :=
  match v with
  | JUndefined | JNull | JNum NaN | JNum (Inf _) => "null"
  | JBool true => "true"
  | JBool false => "false"
  | JNum n => Reference.printNumber n
  | JStr s => quote +++ s +++ quote
  | JArr [] => "[]"
  | JArr elems =>
      "[" +++ newline
      +++ lines (map (fun x => spaces (indent + 2) +++ stringify (indent + 2) x) elems)
      +++ newline +++ spaces indent +++ "]"
  | JObj [] => "{}"
  | JObj props =>
      "{" +++ newline
      +++ lines (map (fun kv => spaces (indent + 2) +++ quote +++ fst kv +++ quote +++ ": "
                                +++ stringify (indent + 2) (snd kv)) props)
      +++ newline +++ spaces indent +++ "}"
  end.

Definition compareStrings (a b : string) : Z :=
  match String.compare a b with
  | Lt => (-1)%Z
  | Eq => 0%Z
  | Gt => 1%Z
  end.

Definition host : Host :=
  {| existsSync := fun path =>
       String.eqb path "./entity-scores" || String.eqb path "."
       || match find path texts with Some _ => true | None => false end;
     readdirSync := fun dir =>
       if String.eqb dir "./entity-scores"
       then Normal [ "ledger.json"; "notes.txt"; "billing-service.json";
                     "broken.json"; "empty.json" ]
       else Throw (Error ("ENOENT: no such file or directory, scandir '" +++ dir +++ "'"));
     readFileSync := fun path =>
       match find path texts with
       | Some text => Normal text
       | None => Throw (Error ("ENOENT: no such file or directory, open '" +++ path +++ "'"))
       end;
     JSONparse := fun text =>
       match find text parsed with
       | Some value => Normal value
       | None => Throw (Error "Unexpected token n in JSON at position 2")
       end;
     JSONstringify := stringify 0;
     pathJoin := join;
     pathDirname := dirname;
     mkdirSync := fun _ => Normal tt;
     writeFileSync := fun _ _ => Normal tt;
     localeCompare := compareStrings;
     typeErrorMessage := fun _ => "Cannot read properties of undefined" |}.

(** The calculator of the command line without options. *)
Definition calculator : ScoreCalculator := newScoreCalculator noOptions.

Definition entityFiles : list string :=
  [ "entity-scores/ledger.json"; "entity-scores/billing-service.json";
    "entity-scores/broken.json"; "entity-scores/empty.json" ].

(** A disk whose two records carry no name. *)
Definition unnamed : Host :=
  {| existsSync := existsSync host;
     readdirSync := fun _ => Normal [ "first.json"; "second.json" ];
     readFileSync := fun _ => Normal "{}";
     JSONparse := fun _ =>
       Normal (JObj [ ("entityRef", JObj [ ("kind", JStr "component") ]);
                      ("areaScores", JArr []) ]);
     JSONstringify := JSONstringify host;
     pathJoin := join;
     pathDirname := dirname;
     mkdirSync := fun _ => Normal tt;
     writeFileSync := fun _ _ => Normal tt;
     localeCompare := compareStrings;
     typeErrorMessage := fun _ => "Cannot read properties of undefined" |}.

(** A disk whose two files parse to values that are no records: [null],
    and an object whose [areaScores] is the number 5.  The engine words the
    two [TypeError]s differently. *)
Definition malformed : Host :=
  {| existsSync := existsSync host;
     readdirSync := fun _ => Normal [ "null.json"; "areas.json" ];
     readFileSync := fun path =>
       Normal (if String.eqb path "entity-scores/null.json" then "null"
               else "the text of areas.json");
     JSONparse := fun text =>
       Normal (if String.eqb text "null" then JNull
               else JObj [ ("entityRef", Example.entityRef);
                           ("areaScores", Example.num 5) ]);
     JSONstringify := JSONstringify host;
     pathJoin := join;
     pathDirname := dirname;
     mkdirSync := fun _ => Normal tt;
     writeFileSync := fun _ _ => Normal tt;
     localeCompare := compareStrings;
     typeErrorMessage := fun file =>
       if String.eqb file "entity-scores/null.json"
       then "Cannot read properties of null (reading 'entityRef')"
       else "data.areaScores.map is not a function" |}.

End Disk.

(** * Properties *)

(** ** Arithmetic on the rationals *)

Lemma Qcleb_true (x y : Qc) : Qcleb x y = true <-> (x <= y)%Qc.
Proof. unfold Qcleb, Qcle. apply Qle_bool_iff. Qed.

Lemma Qcltb_true (x y : Qc) : Qcltb x y = true <-> (x < y)%Qc.
Proof.
  unfold Qcltb, Qclt. rewrite negb_true_iff, <- not_true_iff_false, Qle_bool_iff.
  split; [ apply Qnot_le_lt | apply Qlt_not_le ].
Qed.

Lemma Qceqb_true (x y : Qc) : Qceqb x y = true <-> x = y.
Proof.
  unfold Qceqb. rewrite Qeq_bool_iff. split.
  - apply Qc_is_canon.
  - intros ->. reflexivity.
Qed.

Lemma Qcleb_false (x y : Qc) : Qcleb x y = false <-> (y < x)%Qc.
Proof.
  rewrite <- not_true_iff_false, Qcleb_true.
  split; [ apply Qcnot_le_lt | apply Qclt_not_le ].
Qed.

Lemma Qcltb_false (x y : Qc) : Qcltb x y = false <-> (y <= x)%Qc.
Proof.
  rewrite <- not_true_iff_false, Qcltb_true.
  split; [ apply Qcnot_lt_le | apply Qcle_not_lt ].
Qed.

Lemma ZtoQc_le (a b : Z) : (ZtoQc a <= ZtoQc b)%Qc <-> (a <= b)%Z.
Proof.
  unfold ZtoQc, Qcle. cbn [this Q2Qc]. rewrite !Qred_correct, <- Zle_Qle. reflexivity.
Qed.

Lemma ZtoQc_lt (a b : Z) : (ZtoQc a < ZtoQc b)%Qc <-> (a < b)%Z.
Proof.
  unfold ZtoQc, Qclt. cbn [this Q2Qc]. rewrite !Qred_correct, <- Zlt_Qlt. reflexivity.
Qed.

Lemma ZtoQc_inj (a b : Z) : ZtoQc a = ZtoQc b -> a = b.
Proof.
  unfold ZtoQc. rewrite Q2Qc_eq_iff. unfold Qeq. cbn. lia.
Qed.

Lemma ZtoQc_plus (a b : Z) : (ZtoQc a + ZtoQc b)%Qc = ZtoQc (a + b).
Proof.
  apply Qc_is_canon. unfold ZtoQc. cbn [this Qcplus Q2Qc].
  rewrite !Qred_correct. now rewrite inject_Z_plus.
Qed.

(** ** Rounding to the nearest double *)

Lemma nearestEven_exact (m d : Z) : (0 < d)%Z -> Binary64.nearestEven (m * d) d = m.
Proof.
  intros Hd. unfold Binary64.nearestEven.
  rewrite Z.div_mul, Z.mod_mul by lia.
  destruct (2 * 0 <? d)%Z eqn:H; [ reflexivity |]. apply Z.ltb_ge in H. lia.
Qed.

Lemma nearestEven_le (n d M : Z) :
  (0 < d)%Z -> (n <= M * d)%Z -> (Binary64.nearestEven n d <= M)%Z.
Proof.
  intros Hd Hn. unfold Binary64.nearestEven.
  pose proof (Z.div_mod n d ltac:(lia)) as Hdm.
  pose proof (Z.mod_pos_bound n d Hd) as Hr.
  set (f := (n / d)%Z) in *. set (r := (n mod d)%Z) in *.
  assert (Hf : (f <= M)%Z) by nia.
  destruct (2 * r <? d)%Z eqn:H1; [ exact Hf |].
  apply Z.ltb_ge in H1.
  assert (Hlt : (f < M)%Z) by nia.
  destruct (d <? 2 * r)%Z; [ lia |]. destruct (Z.even f); lia.
Qed.

Lemma nearestEven_nonneg (n d : Z) :
  (0 < d)%Z -> (0 <= n)%Z -> (0 <= Binary64.nearestEven n d)%Z.
Proof.
  intros Hd Hn. unfold Binary64.nearestEven.
  pose proof (Z.div_pos n d Hn Hd) as Hf.
  destruct (2 * (n mod d) <? d)%Z; [ exact Hf |].
  destruct (d <? 2 * (n mod d))%Z; [ lia |]. destruct (Z.even (n / d)); lia.
Qed.

Lemma exponent_below (n d k : Z) :
  (0 < n)%Z -> (0 < d)%Z -> (0 <= k)%Z -> (n < 2 ^ k * d)%Z ->
  (Binary64.exponent n d < k)%Z.
Proof.
  intros Hn Hd Hk Hlt. unfold Binary64.exponent.
  pose proof (Z.log2_spec n Hn) as [Hn1 Hn2].
  pose proof (Z.log2_spec d Hd) as [Hd1 Hd2].
  pose proof (Z.log2_nonneg n) as Hln. pose proof (Z.log2_nonneg d) as Hld.
  set (ln := Z.log2 n) in *. set (ld := Z.log2 d) in *.
  assert (He : (ln - ld <= k)%Z).
  { destruct (Z.le_gt_cases (ln - ld) k) as [H | H]; [ exact H | exfalso ].
    assert (Hpow : (2 ^ k * 2 ^ Z.succ ld <= 2 ^ ln)%Z).
    { rewrite <- Z.pow_add_r by lia. apply Z.pow_le_mono_r; lia. }
    assert (0 < 2 ^ k)%Z by (apply Z.pow_pos_nonneg; lia).
    nia. }
  destruct (0 <=? ln - ld)%Z eqn:Hsign.
  - destruct (2 ^ (ln - ld) * d <=? n)%Z eqn:Htest; [| lia ].
    apply Z.leb_le in Htest.
    destruct (Z.eq_dec (ln - ld) k) as [E | E]; [| lia ].
    rewrite E in Htest. lia.
  - apply Z.leb_gt in Hsign. destruct (d <=? 2 ^ (- (ln - ld)) * n)%Z; lia.
Qed.

Lemma Q2Qc_le (x y : Q) : (x <= y)%Q -> (Q2Qc x <= Q2Qc y)%Qc.
Proof. intros H. unfold Qcle. cbn [this Q2Qc]. now rewrite !Qred_correct. Qed.

(** A sum or a quotient that lies between 0 and a whole number below
    [2^53] is rounded to a double that lies there too. *)
Lemma round_between (q : Qc) (z : Z) :
  (ZtoQc 0 <= q)%Qc -> (q <= ZtoQc z)%Qc -> (z < 2 ^ 53)%Z ->
  exists r : Qc, Binary64.round q = Fin r /\ (ZtoQc 0 <= r)%Qc /\ (r <= ZtoQc z)%Qc.
Proof.
  intros Hq0 Hqz Hz. unfold Binary64.round.
  unfold Qcle, ZtoQc in Hq0, Hqz. cbn [this Q2Qc] in Hq0, Hqz.
  rewrite Qred_correct in Hq0, Hqz.
  destruct (this q) as [n d]. cbn [Qnum Qden].
  unfold Qle in Hq0, Hqz. cbn in Hq0, Hqz.
  destruct n as [| n | n]; [| | exfalso; clear - Hq0; lia ].
  - exists (Q2Qc 0). split; [ reflexivity |]. split; [ apply Qcle_refl |].
    apply Q2Qc_le. unfold Qle. cbn. nia.
  - assert (Hexp : (Binary64.exponent (Z.pos n) (Z.pos d) < 53)%Z).
    { apply exponent_below; try lia. nia. }
    unfold Binary64.roundPositive.
    set (e := (Z.max (Binary64.exponent (Z.pos n) (Z.pos d)) (-1022) - 52)%Z).
    assert (He : (e <= 0)%Z) by (unfold e; lia).
    destruct (0 <=? e)%Z eqn:Hsign.
    + apply Z.leb_le in Hsign. assert (E : e = 0%Z) by lia. rewrite E.
      change (2 ^ 0)%Z with 1%Z. rewrite !Z.mul_1_r.
      assert (Hm : (Binary64.nearestEven (Z.pos n) (Z.pos d) <= z)%Z)
        by (apply nearestEven_le; lia).
      assert (Hm0 : (0 <= Binary64.nearestEven (Z.pos n) (Z.pos d))%Z)
        by (apply nearestEven_nonneg; lia).
      destruct (2 ^ 1024 <=? Binary64.nearestEven (Z.pos n) (Z.pos d))%Z eqn:Hover.
      { apply Z.leb_le in Hover.
        assert ((2 ^ 53 < 2 ^ 1024)%Z) by (apply Z.pow_lt_mono_r; lia). lia. }
      eexists. split; [ reflexivity |].
      split; apply Q2Qc_le; rewrite ?Qred_correct; unfold Qle; cbn; lia.
    + set (k := (- e)%Z). assert (Hk : (0 < k)%Z) by (apply Z.leb_gt in Hsign; unfold k; lia).
      assert (Hpow : (0 < 2 ^ k)%Z) by (apply Z.pow_pos_nonneg; lia).
      assert (Hm : (Binary64.nearestEven (Z.pos n * 2 ^ k) (Z.pos d) <= z * 2 ^ k)%Z)
        by (apply nearestEven_le; nia).
      assert (Hm0 : (0 <= Binary64.nearestEven (Z.pos n * 2 ^ k) (Z.pos d))%Z)
        by (apply nearestEven_nonneg; nia).
      eexists. split; [ reflexivity |].
      split; apply Q2Qc_le; rewrite ?Qred_correct; unfold Qle; cbn [Qnum Qden inject_Z];
        rewrite ?Z2Pos.id by exact Hpow; lia.
Qed.

Lemma this_ZtoQc (z : Z) : this (ZtoQc z) = inject_Z z.
Proof.
  unfold ZtoQc. cbn [this Q2Qc]. apply Qred_identity. cbn. apply Z.gcd_1_r.
Qed.

(** A whole number below [2^53] is a double. *)
Lemma round_integer (z : Z) :
  (Z.abs z < 2 ^ 53)%Z -> Binary64.round (ZtoQc z) = ofZ z.
Proof.
  intros Hz. unfold Binary64.round, ofZ. rewrite this_ZtoQc. cbn [Qnum Qden inject_Z].
  assert (Hpos : forall p, (Z.pos p < 2 ^ 53)%Z ->
            Binary64.roundPositive (Z.pos p) 1 = Some (inject_Z (Z.pos p))
            \/ exists k, (0 < k)%Z
                 /\ Binary64.roundPositive (Z.pos p) 1
                    = Some ((Z.pos p * 2 ^ k) # Z.to_pos (2 ^ k))).
  { intros p Hp. unfold Binary64.roundPositive.
    assert (Hexp : (Binary64.exponent (Z.pos p) 1 < 53)%Z) by (apply exponent_below; lia).
    set (e := (Z.max (Binary64.exponent (Z.pos p) 1) (-1022) - 52)%Z).
    assert (He : (e <= 0)%Z) by (unfold e; lia).
    destruct (0 <=? e)%Z eqn:Hsign.
    - apply Z.leb_le in Hsign. assert (E : e = 0%Z) by lia. rewrite E.
      change (2 ^ 0)%Z with 1%Z. rewrite !Z.mul_1_r.
      replace (Binary64.nearestEven (Z.pos p) 1) with (Z.pos p)
        by (rewrite <- (Z.mul_1_r (Z.pos p)) at 2; now rewrite nearestEven_exact).
      destruct (2 ^ 1024 <=? Z.pos p)%Z eqn:Hover; [| now left ].
      apply Z.leb_le in Hover.
      assert ((2 ^ 53 < 2 ^ 1024)%Z) by (apply Z.pow_lt_mono_r; lia). lia.
    - right. exists (- e)%Z. split; [ apply Z.leb_gt in Hsign; lia |].
      rewrite <- (Z.mul_1_r (Z.pos p * 2 ^ (- e))) at 1. now rewrite nearestEven_exact. }
  assert (Hscaled : forall p k, (0 < k)%Z ->
            ((Z.pos p * 2 ^ k) # Z.to_pos (2 ^ k)) == inject_Z (Z.pos p)).
  { intros p k Hk. unfold Qeq. cbn [Qnum Qden inject_Z].
    rewrite Z2Pos.id by (apply Z.pow_pos_nonneg; lia). lia. }
  destruct z as [| p | p]; [ reflexivity | |].
  - destruct (Hpos p Hz) as [-> | (k & Hk & ->)];
      f_equal; apply Qc_is_canon; cbn [this Q2Qc]; rewrite !Qred_correct;
      [ reflexivity | now apply Hscaled ].
  - destruct (Hpos p Hz) as [-> | (k & Hk & ->)];
      f_equal; apply Qc_is_canon; cbn [this Q2Qc]; rewrite !Qred_correct;
      [ reflexivity | rewrite (Hscaled p k Hk); unfold Qeq; cbn; lia ].
Qed.

(** Doubles as the engine has them: 0.1 is the double nearest to one
    tenth, 0.1 + 0.2 is 0.30000000000000004, one third is rounded down,
    [2^53 + 1] is [2^53] (the tie goes to the even double), 1e308 + 1e308 is
    [Infinity], half the smallest double is 0, and 0 / 0 is [NaN]. *)
Lemma doubles_of_the_engine :
  Binary64.round (Q2Qc (1 # 10)) = Fin (Q2Qc (3602879701896397 # 36028797018963968))
  /\ numAdd (Binary64.round (Q2Qc (1 # 10))) (Binary64.round (Q2Qc (2 # 10)))
     = Fin (Q2Qc (1351079888211149 # 4503599627370496))
  /\ numDiv (ofZ 1) (ofZ 3) = Fin (Q2Qc (6004799503160661 # 18014398509481984))
  /\ numAdd (ofZ (2 ^ 53)) (ofZ 1) = ofZ (2 ^ 53)
  /\ numAdd (Binary64.round (ZtoQc (10 ^ 308))) (Binary64.round (ZtoQc (10 ^ 308)))
     = Inf false
  /\ Binary64.round (Q2Qc (1 # Z.to_pos (2 ^ 1075))) = ofZ 0
  /\ numDiv (ofZ 0) (ofZ 0) = NaN.
Proof. repeat split; vm_compute; reflexivity. Qed.

(** ** Reading the scripts' loops on well-typed data *)

Lemma Get_object (props : list (string * JsValue)) (k : string) :
  Get (JObj props) k = Normal (Spec.field (JObj props) k).
Proof. cbn. destruct (lookup k props); reflexivity. Qed.

Lemma filter_map_commute {A B} (f : A -> B) (p : B -> bool) (l : list A) :
  filter p (map f l) = map f (filter (fun x => p (f x)) l).
Proof.
  induction l as [| x l IH]; cbn; [ reflexivity |].
  destruct (p (f x)); cbn; now rewrite IH.
Qed.

Section CalculatorFacts.

Variable rt : Runtime.

Lemma isScoredEntry_included (entry : JsValue) :
  Spec.wellTypedEntry entry = true ->
  isScoredEntry entry = Normal (Spec.included entry).
Proof.
  destruct entry as [| | | | | | props]; try discriminate.
  unfold Spec.wellTypedEntry, isScoredEntry, Spec.included.
  rewrite !Get_object. cbn [bindC].
  destruct (isStr "unknown" (Spec.field (JObj props) "scoreSuccess")); [ reflexivity |].
  destruct (Spec.field (JObj props) "scorePercent") as [| | | n | | |];
    try discriminate; try reflexivity;
    destruct (Spec.field (JObj props) "isOptional") as [| | [|] | | | |];
    try discriminate; reflexivity.
Qed.

Lemma scoredEntries_filter (entries : list JsValue) :
  forallb Spec.wellTypedEntry entries = true ->
  filterC isScoredEntry entries = Normal (filter Spec.included entries).
Proof.
  induction entries as [| e entries IH]; cbn [forallb filterC filter]; [ reflexivity |].
  rewrite andb_true_iff. intros [He Hes].
  rewrite (isScoredEntry_included e He), (IH Hes). reflexivity.
Qed.

(** An included, well-typed entry carries a number. *)
Lemma included_percent (entry : JsValue) :
  Spec.wellTypedEntry entry = true -> Spec.included entry = true ->
  Get entry "scorePercent" = Normal (JNum (Spec.percentOf entry)).
Proof.
  destruct entry as [| | | | | | props]; try discriminate.
  unfold Spec.wellTypedEntry, Spec.included, Spec.percentOf. rewrite Get_object.
  destruct (Spec.field (JObj props) "scorePercent") as [| | | [| q | s] | | |];
    rewrite ?andb_false_r; try discriminate; try reflexivity.
Qed.

(** The [reduce] of both reductions, on values that carry numbers: the
    additions are made from the first element to the last. *)
Lemma sumScorePercent_from (l : list JsValue) (acc : number) :
  Forall (fun x => Get x "scorePercent" = Normal (JNum (Spec.percentOf x))) l ->
  reduceC (fun sum x => bindC (Get x "scorePercent") (fun p => jsAdd rt sum p))
    l (JNum acc)
  = Normal (JNum (fold_left numAdd (map Spec.percentOf l) acc)).
Proof.
  revert acc. induction l as [| x l IH]; intros acc Hl; [ reflexivity |].
  inversion Hl as [| ? ? Hx Hl']; subst.
  cbn [reduceC map fold_left]. rewrite Hx. cbn [bindC jsAdd ToPrimitive ToNumber].
  apply IH, Hl'.
Qed.

Lemma sumScorePercent_numbers (l : list JsValue) :
  Forall (fun x => Get x "scorePercent" = Normal (JNum (Spec.percentOf x))) l ->
  sumScorePercent rt l = Normal (JNum (Spec.sum (map Spec.percentOf l))).
Proof. intros Hl. apply (sumScorePercent_from l _ Hl). Qed.

(** Sum, then divide by the count: the mean. *)
Lemma mean_by_reduce (l : list JsValue) :
  Forall (fun x => Get x "scorePercent" = Normal (JNum (Spec.percentOf x))) l ->
  (if (0 <? List.length l)%nat then
     bindC (sumScorePercent rt l)
       (fun totalScore => jsDiv rt totalScore (JNum (ofNat (List.length l))))
   else Normal (ofZ 0))
  = Normal (Spec.mean (map Spec.percentOf l)).
Proof.
  intros Hl. destruct l as [| x l]; [ reflexivity |].
  change (0 <? List.length (x :: l))%nat with true. cbv iota.
  rewrite (sumScorePercent_numbers _ Hl). cbn [bindC jsDiv ToNumber].
  unfold Spec.mean. cbn [map List.length]. now rewrite length_map.
Qed.

End CalculatorFacts.

(** ** The aggregator's two reductions *)


Lemma processAreaScore_mean (rt : Runtime) (props : list (string * JsValue))
    (entries : list JsValue) :
  lookup "scoreEntries" props = Some (JArr entries) ->
  forallb Spec.wellTypedEntry entries = true ->
  processAreaScore rt (JObj props)
  = Normal (JObj [ ("id", Spec.field (JObj props) "id");
                   ("title", Spec.field (JObj props) "title");
                   ("scorePercent", JNum (Spec.areaPercent entries));
                   ("scoreEntries", JArr entries) ]).
Proof.
  intros Hentries Htyped. unfold processAreaScore.
  rewrite !Get_object. unfold Spec.field at 1. rewrite Hentries.
  cbn [bindC arrayOf]. rewrite (scoredEntries_filter entries Htyped). cbn [bindC].
  rewrite mean_by_reduce; [ reflexivity |].
  apply Forall_forall. intros e He. apply filter_In in He. destruct He as [He Hinc].
  apply included_percent; [| exact Hinc ].
  rewrite forallb_forall in Htyped. now apply Htyped.
Qed.

(** Whole numbers add up without rounding as long as the sums stay below
    [2^53]. *)
Lemma numAdd_integers (a b : Z) :
  (Z.abs (a + b) < 2 ^ 53)%Z -> numAdd (ofZ a) (ofZ b) = ofZ (a + b).
Proof.
  intros H. unfold numAdd, ofZ.
  replace (Q2Qc (inject_Z a) + Q2Qc (inject_Z b))%Qc with (ZtoQc (a + b)).
  - now apply round_integer.
  - apply Qc_is_canon. unfold ZtoQc. cbn [this Qcplus Q2Qc].
    rewrite !Qred_correct, inject_Z_plus. reflexivity.
Qed.

Lemma fold_numAdd_integers (l : list Z) (acc bound : Z) :
  (0 <= acc)%Z ->
  Forall (fun z => 0 <= z <= bound)%Z l ->
  (acc + bound * Z.of_nat (List.length l) < 2 ^ 53)%Z ->
  fold_left numAdd (map ofZ l) (ofZ acc) = ofZ (acc + sumZ l).
Proof.
  revert acc. induction l as [| z l IH]; intros acc Hacc Hl Hsize.
  - cbn. now rewrite Z.add_0_r.
  - inversion Hl as [| ? ? Hz Hl']; subst.
    cbn [map fold_left sumZ fold_right List.length] in *.
    rewrite numAdd_integers by nia.
    rewrite IH; [ f_equal; unfold sumZ; lia | lia | exact Hl' | nia ].
Qed.

Lemma sumZ_bounds (l : list Z) (bound : Z) :
  Forall (fun z => 0 <= z <= bound)%Z l ->
  (0 <= sumZ l <= bound * Z.of_nat (List.length l))%Z.
Proof.
  induction 1 as [| z l Hz _ IH]; cbn [sumZ fold_right List.length]; [ lia |].
  fold (sumZ l). nia.
Qed.

Lemma exactSum_integers (l : list Z) : Spec.exactSum (map ZtoQc l) = ZtoQc (sumZ l).
Proof.
  induction l as [| z l IH]; [ reflexivity |].
  cbn [map Spec.exactSum fold_right sumZ]. fold (Spec.exactSum (map ZtoQc l)). rewrite IH.
  apply Qc_is_canon. unfold ZtoQc. cbn [this Qcplus Q2Qc].
  rewrite !Qred_correct, inject_Z_plus. reflexivity.
Qed.

Lemma isZero_count (n : nat) : isZero (Q2Qc (inject_Z (Z.of_nat (S n)))) = false.
Proof.
  unfold isZero. fold (ZtoQc (Z.of_nat (S n))). rewrite this_ZtoQc. cbn [Qnum inject_Z].
  apply Z.eqb_neq. lia.
Qed.

(** The mean of whole numbers of 0..100, fewer than [2^32] of them: the
    sum is exact, and the mean is the exact mean rounded once. *)
Lemma mean_of_integers (l : list Z) :
  Forall (fun z => 0 <= z <= 100)%Z l -> fits l = true ->
  Spec.mean (map ofZ l) = Binary64.round (Spec.exactMean (map ZtoQc l)).
Proof.
  intros Hl Hfits. unfold fits in Hfits. apply Z.ltb_lt in Hfits.
  destruct l as [| z l]; [ reflexivity |].
  unfold Spec.mean, Spec.exactMean. cbn [map].
  change (ofZ z :: map ofZ l) with (map ofZ (z :: l)).
  change (ZtoQc z :: map ZtoQc l) with (map ZtoQc (z :: l)).
  rewrite !length_map, exactSum_integers. unfold Spec.sum.
  assert (Hsize : (0 + 100 * Z.of_nat (List.length (z :: l)) < 2 ^ 53)%Z).
  { change (2 ^ 53)%Z with 9007199254740992%Z.
    change (2 ^ 32)%Z with 4294967296%Z in Hfits. lia. }
  rewrite (fold_numAdd_integers (z :: l) 0 100 ltac:(lia) Hl Hsize).
  cbn [Z.add]. unfold numDiv, ofNat, ofZ. cbn [List.length].
  now rewrite isZero_count.
Qed.

(** *** How far rounding goes *)














Lemma areaResult_percent (area : JsValue) :
  Spec.isAreaResult area = true ->
  Get area "scorePercent" = Normal (JNum (Spec.percentOf area)).
Proof.
  destruct area as [| | | | | | props]; try discriminate.
  unfold Spec.isAreaResult, Spec.percentOf. rewrite Get_object.
  destruct (Spec.field (JObj props) "scorePercent"); try discriminate; reflexivity.
Qed.

Lemma scoredAreas_filter (rt : Runtime) (areas : list JsValue) :
  forallb Spec.isAreaResult areas = true ->
  filterC (fun area => bindC (Get area "scorePercent") (fun p => jsGt rt p (ofZ 0))) areas
  = Normal (filter (fun a => Spec.positive (Spec.percentOf a)) areas).
Proof.
  induction areas as [| a areas IH]; cbn [forallb filterC filter]; [ reflexivity |].
  rewrite andb_true_iff. intros [Ha Has].
  rewrite (areaResult_percent a Ha), (IH Has). reflexivity.
Qed.

Lemma calculateOverallScore_mean (rt : Runtime) (areas : list JsValue) :
  forallb Spec.isAreaResult areas = true ->
  calculateOverallScore rt areas
  = Normal (JObj [ ("scorePercent",
                    JNum (Spec.overallPercent (map Spec.percentOf areas))) ]).
Proof.
  intros Hareas. unfold calculateOverallScore.
  rewrite (scoredAreas_filter rt areas Hareas). cbn [bindC].
  unfold Spec.overallPercent. rewrite filter_map_commute.
  set (scored := filter (fun a => Spec.positive (Spec.percentOf a)) areas).
  assert (Hscored : Forall (fun x => Get x "scorePercent"
            = Normal (JNum (Spec.percentOf x))) scored).
  { apply Forall_forall. intros a Ha. apply filter_In in Ha. destruct Ha as [Ha Hpos].
    rewrite forallb_forall in Hareas. apply (areaResult_percent a (Hareas a Ha)). }
  pose proof (mean_by_reduce rt scored Hscored) as Hmean.
  destruct scored as [| a scored']; [ reflexivity |].
  change (List.length (a :: scored') =? 0)%nat with false.
  change (0 <? List.length (a :: scored'))%nat with true in Hmean. cbv iota in Hmean |- *.
  destruct (sumScorePercent rt (a :: scored')) as [totalScore | e];
    cbn [bindC] in Hmean |- *; [| discriminate ].
  now rewrite Hmean.
Qed.




(** ** The two mappings on numbers *)

Lemma firstInRange_number (rt : Runtime) (table : list (string * range))
    (n : number) (fallback : string) :
  firstInRange rt table (JNum n) fallback = Normal (firstBand table n fallback).
Proof.
  induction table as [| [name r] rest IH]; cbn [firstInRange firstBand]; [ reflexivity |].
  cbn [jsGe jsLe ToNumber bindC]. unfold inRange.
  destruct (numGe n (ofZ (min r))); cbn [andb]; [| exact IH ].
  destruct (numLe n (ofZ (max r))); [ reflexivity | exact IH ].
Qed.

Lemma inRange_integer (z : Z) (r : range) :
  inRange (ofZ z) r = ((min r <=? z)%Z && (z <=? max r)%Z).
Proof.
  unfold inRange, numGe, numLe, ofZ. fold (ZtoQc z) (ZtoQc (min r)) (ZtoQc (max r)).
  f_equal; apply eq_true_iff_eq; rewrite Qcleb_true, ZtoQc_le, Z.leb_le; reflexivity.
Qed.

(** On the integers of [0, 100] both tables are total and read as the
    design document prints them. *)
Lemma getScoreLabel_integer (rt : Runtime) (z : Z) :
  (0 <= z <= 100)%Z ->
  getScoreLabel rt (JNum (ofZ z))
  = Normal (if (70 <=? z)%Z then "Green" else if (30 <=? z)%Z then "Yellow" else "Red").
Proof.
  intros Hz. unfold getScoreLabel. rewrite firstInRange_number.
  unfold COLOR_MAPPING. cbn [firstBand]. rewrite !inRange_integer. cbn [min max].
  destruct (70 <=? z)%Z eqn:H70, (30 <=? z)%Z eqn:H30;
    repeat match goal with
           | |- context [(?a <=? ?b)%Z] => destruct (Z.leb_spec a b); try lia
           end; reflexivity.
Qed.

Lemma getScoreSuccess_integer (rt : Runtime) (z : Z) :
  (0 <= z <= 100)%Z ->
  getScoreSuccess rt (JNum (ofZ z))
  = Normal (if (80 <=? z)%Z then "success"
            else if (70 <=? z)%Z then "almost-success"
            else if (50 <=? z)%Z then "partial"
            else if (30 <=? z)%Z then "almost-failure"
            else "failure").
Proof.
  intros Hz. unfold getScoreSuccess. rewrite firstInRange_number.
  unfold SCORE_SUCCESS_MAPPING. cbn [firstBand]. rewrite !inRange_integer. cbn [min max].
  repeat match goal with
         | |- context [(?a <=? ?b)%Z] => destruct (Z.leb_spec a b); try lia
         end; reflexivity.
Qed.

(** On the rationals the default is taken wherever no range matches. *)
Lemma getScoreLabel_rational (rt : Runtime) (q : Qc) :
  getScoreLabel rt (JNum (Fin q))
  = Normal (if Qcleb (ZtoQc 70) q && Qcleb q (ZtoQc 100) then "Green"
            else if Qcleb (ZtoQc 30) q && Qcleb q (ZtoQc 69) then "Yellow"
            else "Red").
Proof.
  unfold getScoreLabel. rewrite firstInRange_number.
  unfold COLOR_MAPPING. cbn [firstBand]. unfold inRange, numGe, numLe, ofZ. cbn [min max].
  fold (ZtoQc 70) (ZtoQc 100) (ZtoQc 30) (ZtoQc 69) (ZtoQc 0) (ZtoQc 29).
  destruct (Qcleb (ZtoQc 70) q && Qcleb q (ZtoQc 100)); [ reflexivity |].
  destruct (Qcleb (ZtoQc 30) q && Qcleb q (ZtoQc 69)); [ reflexivity |].
  destruct (Qcleb (ZtoQc 0) q && Qcleb q (ZtoQc 29)); reflexivity.
Qed.

Lemma getScoreSuccess_rational (rt : Runtime) (q : Qc) :
  getScoreSuccess rt (JNum (Fin q))
  = Normal (if Qcleb (ZtoQc 80) q && Qcleb q (ZtoQc 100) then "success"
            else if Qcleb (ZtoQc 70) q && Qcleb q (ZtoQc 79) then "almost-success"
            else if Qcleb (ZtoQc 50) q && Qcleb q (ZtoQc 69) then "partial"
            else if Qcleb (ZtoQc 30) q && Qcleb q (ZtoQc 49) then "almost-failure"
            else "failure").
Proof.
  unfold getScoreSuccess. rewrite firstInRange_number.
  unfold SCORE_SUCCESS_MAPPING. cbn [firstBand]. unfold inRange, numGe, numLe, ofZ.
  cbn [min max].
  fold (ZtoQc 80) (ZtoQc 100) (ZtoQc 70) (ZtoQc 79) (ZtoQc 50) (ZtoQc 69) (ZtoQc 30)
       (ZtoQc 49) (ZtoQc 0) (ZtoQc 29).
  repeat match goal with
         | |- context [if ?a && ?b then _ else _] => destruct (a && b); try reflexivity
         end.
Qed.

Lemma between_69_and_70 (rt : Runtime) (q : Qc) :
  (ZtoQc 69 < q)%Qc -> (q < ZtoQc 70)%Qc ->
  getScoreLabel rt (JNum (Fin q)) = Normal "Red"
  /\ getScoreSuccess rt (JNum (Fin q)) = Normal "failure".
Proof.
  intros Hlo Hhi.
  assert (Habove : forall z, (z <= 69)%Z -> Qcleb q (ZtoQc z) = false).
  { intros z Hz. apply Qcleb_false. eapply Qcle_lt_trans; [| exact Hlo ].
    now apply ZtoQc_le. }
  assert (Hbelow : forall z, (70 <= z)%Z -> Qcleb (ZtoQc z) q = false).
  { intros z Hz. apply Qcleb_false. eapply Qclt_le_trans; [ exact Hhi |].
    now apply ZtoQc_le. }
  rewrite getScoreLabel_rational, getScoreSuccess_rational.
  rewrite (Hbelow 70%Z), (Hbelow 80%Z), (Habove 69%Z), (Habove 49%Z) by lia.
  rewrite !andb_false_r. cbn [andb]. split; reflexivity.
Qed.

(** C3: the scripts depart from the design document between two bands of
    a table.  There no range matches and the loop falls through to its
    default: every percent strictly between 69 and 70 is Red and 'failure'.
    The mean 69.5 of the entries 69 and 70 is reported as 70 percent, Red,
    'failure', while 70 itself is Green and 'almost-success', and 69 Yellow
    and 'partial'. *)
Theorem C3_percent_between_bands_takes_the_default (rt : Runtime) :
  (forall q : Qc,
      (ZtoQc 69 < q)%Qc -> (q < ZtoQc 70)%Qc ->
      getScoreLabel rt (JNum (Fin q)) = Normal "Red"
      /\ getScoreSuccess rt (JNum (Fin q)) = Normal "failure")
  /\ processEntityFile rt Example.betweenBands
     = Normal (JObj
         [ ("entityRef", Example.entityRef);
           ("generatedDateTimeUtc", JStr "2024-01-15T10:30:00Z");
           ("scorePercent", Example.num 70);
           ("scoreLabel", JStr "Red");
           ("scoreSuccess", JStr "failure");
           ("areaScores",
            JArr [ JObj [ ("id", Example.num 1); ("title", JStr "Documentation");
                          ("scorePercent", Example.num 70);
                          ("scoreLabel", JStr "Red");
                          ("scoreSuccess", JStr "failure") ] ]) ])
  /\ getScoreLabel rt (Example.num 70) = Normal "Green"
  /\ getScoreSuccess rt (Example.num 70) = Normal "almost-success"
  /\ getScoreLabel rt (Example.num 69) = Normal "Yellow"
  /\ getScoreSuccess rt (Example.num 69) = Normal "partial".
Proof.
  split; [ intros q; apply between_69_and_70 |].
  repeat split; reflexivity.
Qed.

(** ** The validator only ever appends

    Running a method on a validator that already holds messages gives what
    it gives on an empty one, with the held messages in front. *)

Lemma shift_new (held : ScoreValidator) : shift held newScoreValidator = held.
Proof. destruct held. unfold shift. cbn. now rewrite !app_nil_r. Qed.

Lemma framed_ret {A} (a : A) : framed (retV a).
Proof. intros held this. reflexivity. Qed.

Lemma framed_lift {A} (c : completion A) : framed (liftV c).
Proof. intros held this. reflexivity. Qed.

Lemma framed_addError (message : string) : framed (addError message).
Proof. intros held this. unfold addError, shift. cbn. now rewrite app_assoc. Qed.

Lemma framed_addWarning (message : string) : framed (addWarning message).
Proof. intros held this. unfold addWarning, shift. cbn. now rewrite app_assoc. Qed.

Lemma framed_bind {A B} (m : V A) (f : A -> V B) :
  framed m -> (forall a, framed (f a)) -> framed (bindV m f).
Proof.
  intros Hm Hf held this. unfold bindV. rewrite Hm.
  destruct (m this) as [this' [a | e]]; cbn [fst snd]; [ apply Hf | reflexivity ].
Qed.

Lemma framed_when (b : bool) (m : V unit) : framed m -> framed (when b m).
Proof. destruct b; cbn; [ trivial | intros _; apply framed_ret ]. Qed.

Lemma framed_forEach {A} (f : A -> nat -> V unit) (l : list A) (i : nat) :
  (forall x j, framed (f x j)) -> framed (forEachV f l i).
Proof.
  intros Hf. revert i. induction l as [| x l IH]; intros i; cbn [forEachV].
  - apply framed_ret.
  - apply framed_bind; [ apply Hf | intros _; apply IH ].
Qed.

Ltac framed_step :=
  first
    [ apply framed_ret
    | apply framed_lift
    | apply framed_addError
    | apply framed_addWarning
    | apply framed_when
    | apply framed_forEach; intros ? ?
    | apply framed_bind; [| intros ? ]
    | match goal with
      | |- framed (if ?b then _ else _) => destruct b
      | |- framed (match ?x with _ => _ end) => destruct x
      end ].

Ltac framed_auto := repeat framed_step.

Section ValidatorFrames.

Variable rt : Runtime.

Lemma framed_validateRequired (obj : JsValue) (fields : list string) :
  framed (validateRequired obj fields).
Proof. unfold validateRequired. framed_auto. Qed.

Lemma framed_validateDateTime (dateStr : JsValue) (fieldName : string) :
  framed (validateDateTime rt dateStr fieldName).
Proof. unfold validateDateTime. framed_auto. Qed.

Lemma framed_validateEntityRef (entityRef : JsValue) :
  framed (validateEntityRef rt entityRef).
Proof.
  unfold validateEntityRef.
  repeat first [ apply framed_validateRequired | framed_step ].
Qed.

Lemma framed_validateScoreEntry (entry : JsValue) (prefix : string) :
  framed (validateScoreEntry rt entry prefix).
Proof.
  unfold validateScoreEntry.
  repeat first [ apply framed_validateRequired | framed_step ].
Qed.

Lemma framed_validateAreaScore (area : JsValue) (index : nat) :
  framed (validateAreaScore rt area index).
Proof.
  unfold validateAreaScore. cbv zeta.
  repeat first [ apply framed_validateRequired | apply framed_validateScoreEntry
               | framed_step ].
Qed.

Lemma framed_validateCalculatedScores (data : JsValue) :
  framed (validateCalculatedScores rt data).
Proof. unfold validateCalculatedScores. framed_auto. Qed.

Lemma framed_validateEntityScoreBody (data : JsValue) :
  framed (validateEntityScoreBody rt data).
Proof.
  unfold validateEntityScoreBody.
  repeat first [ apply framed_validateRequired | apply framed_validateEntityRef
               | apply framed_validateDateTime | apply framed_validateAreaScore
               | apply framed_validateCalculatedScores | framed_step ].
Qed.

End ValidatorFrames.

Lemma bindV_assoc {A B C} (m : V A) (f : A -> V B) (g : B -> V C) (this : ScoreValidator) :
  bindV (bindV m f) g this = bindV m (fun a => bindV (f a) g) this.
Proof.
  unfold bindV. destruct (m this) as [this' [a | e]]; reflexivity.
Qed.

Lemma bindV_cong {A B} (m : V A) (f g : A -> V B) (this : ScoreValidator) :
  (forall a this', f a this' = g a this') -> bindV m f this = bindV m g this.
Proof.
  intros Hfg. unfold bindV. destruct (m this) as [this' [a | e]]; [ apply Hfg | reflexivity ].
Qed.

Lemma validateEntityScore_body (rt : Runtime) (data : JsValue) (this : ScoreValidator) :
  validateEntityScore rt data this
  = bindV (validateEntityScoreBody rt data)
      (fun _ this' => (this', Normal (List.length (errors this') =? 0)%nat)) this.
Proof.
  unfold validateEntityScore, validateEntityScoreBody.
  repeat (rewrite bindV_assoc; apply bindV_cong; intros ? ?).
  reflexivity.
Qed.

(** ** Errors are errors and warnings are warnings

    Every message on [errors] carries the error mark and every message on
    [warnings] the warning mark: an invariant of all the methods. *)













(** ** One validator, several records *)

Lemma validateEntityScore_on_held (rt : Runtime) (data : JsValue) (held : ScoreValidator) :
  let fresh := validateEntityScore rt data newScoreValidator in
  let after := validateEntityScore rt data held in
  errors (fst after) = errors held ++ errors (fst fresh)
  /\ warnings (fst after) = warnings held ++ warnings (fst fresh)
  /\ snd after
     = match snd fresh with
       | Normal valid => Normal (valid && (List.length (errors held) =? 0)%nat)
       | Throw e => Throw e
       end.
Proof.
  cbv zeta. rewrite !validateEntityScore_body. unfold bindV.
  pose proof (framed_validateEntityScoreBody rt data held newScoreValidator) as Hframe.
  rewrite shift_new in Hframe. rewrite Hframe.
  destruct (validateEntityScoreBody rt data newScoreValidator) as [this' [[] | e]];
    cbn [fst snd shift errors warnings]; repeat split.
  f_equal. rewrite length_app.
  destruct (errors held), (errors this'); reflexivity.
Qed.

(** C5, as the validator has it: validating [r2] on the validator that validated
    [r1] appends to the lists it holds exactly the errors and the warnings
    that [r2] gets on a fresh validator, and returns or throws as it does
    there; the verdict it returns is valid exactly when [r2] is valid on a
    fresh validator and [r1] left no error. *)
Theorem C5_validation_appends_to_the_held_messages
    (rt : Runtime) (r1 r2 : JsValue) :
  let held := fst (validateEntityScore rt r1 newScoreValidator) in
  let fresh := validateEntityScore rt r2 newScoreValidator in
  let after := validateEntityScore rt r2 held in
  errors (fst after) = errors held ++ errors (fst fresh)
  /\ warnings (fst after) = warnings held ++ warnings (fst fresh)
  /\ snd after
     = match snd fresh with
       | Normal valid => Normal (valid && (List.length (errors held) =? 0)%nat)
       | Throw e => Throw e
       end.
Proof.
  cbv zeta. apply validateEntityScore_on_held.
Qed.

(** C5 does not hold as the design document states it: a sound record is
    found invalid on a validator that has seen a record with an error, and
    valid on a fresh one. *)
Lemma C5_counterexample :
  snd (validateEntityScore Reference.runtime Example.recordWithEmptyArea newScoreValidator)
  = Normal false
  /\ snd (validateEntityScore Reference.runtime Example.soundRecord newScoreValidator)
     = Normal true
  /\ snd (validateEntityScore Reference.runtime Example.soundRecord
            (fst (validateEntityScore Reference.runtime Example.recordWithEmptyArea
                    newScoreValidator)))
     = Normal false.
Proof. repeat split; vm_compute; reflexivity. Qed.

(** ** Validation can throw *)

Lemma throws_bind_l {A B} (m : V A) (f : A -> V B) : throws m -> throws (bindV m f).
Proof.
  intros Hm this. destruct (Hm this) as (this' & e & H).
  exists this', e. unfold bindV. now rewrite H.
Qed.

Lemma throws_bind_r {A B} (m : V A) (f : A -> V B) :
  (forall a, throws (f a)) -> throws (bindV m f).
Proof.
  intros Hf this. unfold bindV. destruct (m this) as [this' [a | e]].
  - apply Hf.
  - now exists this', e.
Qed.

Lemma calculateScores_throws (rt : Runtime) (data : JsValue) :
  isArray (Spec.field data "areaScores") = false ->
  exists e, calculateScores rt data = Throw e.
Proof.
  intros Hnot. unfold calculateScores.
  destruct data as [| | b | n | s | elems | props];
    try (eexists; reflexivity).
  rewrite Get_object. cbn [bindC].
  destruct (Spec.field (JObj props) "areaScores"); try discriminate;
    eexists; reflexivity.
Qed.

Lemma validateCalculatedScores_throws (rt : Runtime) (data : JsValue) :
  isArray (Spec.field data "areaScores") = false ->
  throws (validateCalculatedScores rt data).
Proof.
  intros Hnot. unfold validateCalculatedScores. apply throws_bind_l.
  intros this. destruct (calculateScores_throws rt data Hnot) as [e He].
  exists this, e. unfold liftV. now rewrite He.
Qed.

(** C4: the validator departs from the design document when the record has
    no area list, or one that is not an array: it pushes its errors and then
    throws while it recomputes the scores; no verdict is returned. *)
Theorem C4_validation_throws_without_an_array_of_areas
    (rt : Runtime) (data : JsValue) (held : ScoreValidator)
    (Hareas : isArray (Spec.field data "areaScores") = false) :
  exists this' e, validateEntityScore rt data held = (this', Throw e).
Proof.
  rewrite validateEntityScore_body. apply throws_bind_l.
  unfold validateEntityScoreBody.
  repeat lazymatch goal with
         | |- throws (bindV _ (fun _ => validateCalculatedScores _ _)) =>
             apply throws_bind_r; intros ?
         | |- throws (bindV _ _) => apply throws_bind_r; intros ?
         end.
  now apply validateCalculatedScores_throws.
Qed.

(** The record without [areaScores]: two errors are pushed, then a
    [TypeError] is thrown. *)
Lemma C4_witness :
  validateEntityScore Reference.runtime Example.recordWithoutAreas newScoreValidator
  = ({| errors := [ "❌ ERROR: Missing required field: areaScores";
                    "❌ ERROR: areaScores must be an array" ];
        warnings := [] |}, Throw TypeError)
  /\ exists this' e,
       validateEntityScore Reference.runtime Example.recordWithoutAreas newScoreValidator
       = (this', Throw e).
Proof.
  split; [ vm_compute; reflexivity |].
  apply (C4_validation_throws_without_an_array_of_areas Reference.runtime
           Example.recordWithoutAreas newScoreValidator).
  reflexivity.
Defined.

(** ** The consistency check of an entry *)

(** C6: the validator departs from the design document on an entry that
    has no [scorePercent]: the consistency check tests
    [scorePercent !== null] only.  An entry that has no [scorePercent]
    passes the test, [getScoreCategory(undefined)] answers 'unknown', and a
    consistency warning is pushed; with [scorePercent: null] none is.  On a
    present percent the check does what the document says: 85 declared
    'partial' draws one warning and no error. *)
Theorem C6_absent_percent_draws_a_consistency_warning
    (rt : Runtime) (prefix : string) (held : ScoreValidator) :
  getScoreCategory rt JUndefined = Normal "unknown"
  /\ validateScoreEntry rt (Example.entryWithoutPercent 1 "partial") prefix held
     = ({| errors := errors held;
           warnings := warnings held
             ++ [ "⚠️  WARNING: " +++ prefix
                  +++ ": scorePercent (undefined) suggests 'unknown' but scoreSuccess is 'partial'" ] |},
        Normal tt)
  /\ validateScoreEntry rt (Example.entry 1 JNull "partial") prefix held
     = (held, Normal tt)
  /\ validateScoreEntry rt (Example.entry 1 (Example.num 85) "partial") prefix held
     = ({| errors := errors held;
           warnings := warnings held
             ++ [ "⚠️  WARNING: " +++ prefix
                  +++ ": scorePercent (" +++ NumberToString rt (ofZ 85)
                  +++ ") suggests 'success' but scoreSuccess is 'partial'" ] |},
        Normal tt).
Proof.
  repeat split; reflexivity.
Qed.

(** ** The errors an entry draws *)

Lemma withErrors_nil (this : ScoreValidator) : withErrors this [] = this.
Proof. destruct this. unfold withErrors. cbn. now rewrite app_nil_r. Qed.

Lemma withErrors_app (this : ScoreValidator) (es es' : list string) :
  withErrors (withErrors this es) es' = withErrors this (es ++ es').
Proof. unfold withErrors. cbn. now rewrite app_assoc. Qed.

Lemma when_addError (b : bool) (message : string) (this : ScoreValidator) :
  when b (addError message) this = (withErrors this (errorIf b message), Normal tt).
Proof.
  destruct b; cbn; [ reflexivity |]. now rewrite withErrors_nil.
Qed.

Lemma Get_of_object (v : JsValue) (k : string) :
  Spec.isObject v = true -> Get v k = Normal (Spec.field v k).
Proof.
  destruct v; try discriminate; intros _; [ reflexivity | apply Get_object ].
Qed.

Lemma validateRequired_object (obj : JsValue) (fields : list string) (this : ScoreValidator) :
  Spec.isObject obj = true ->
  validateRequired obj fields this
  = (withErrors this (missingFieldErrors obj fields), Normal tt).
Proof.
  intros Hobj. unfold validateRequired. generalize 0%nat. revert this.
  induction fields as [| field fields IH]; intros this i; cbn [forEachV missingFieldErrors flat_map].
  - unfold retV. now rewrite withErrors_nil.
  - unfold bindV at 1. unfold bindV at 1. unfold liftV at 1.
    assert (Hin : exists present, HasProperty field obj = Normal present
                  /\ (negb present || isNull (Spec.field obj field)
                      || isUndefined (Spec.field obj field))
                     = negb (Spec.present (Spec.field obj field))).
    { destruct obj as [| | | | | elems | props]; try discriminate.
      - exists false. split; reflexivity.
      - exists (hasKey field props). split; [ reflexivity |].
        unfold hasKey, Spec.field. destruct (lookup field props) as [x |]; [| reflexivity ].
        destruct x; reflexivity. }
    destruct Hin as (present & Hhas & Hcond). rewrite Hhas.
    unfold bindV at 1. unfold liftV at 1. rewrite (Get_of_object obj field Hobj), Hcond.
    rewrite when_addError, IH, withErrors_app. reflexivity.
Qed.

Section EntryChecks.

Variable rt : Runtime.

Lemma validateScoreEntry_phases (entry : JsValue) (prefix : string) (this : ScoreValidator) :
  validateScoreEntry rt entry prefix this
  = bindV (entryErrorChecks entry prefix)
      (fun p => entryWarningChecks rt entry prefix (fst p) (snd p)) this.
Proof.
  unfold validateScoreEntry, entryErrorChecks.
  repeat (rewrite bindV_assoc; apply bindV_cong; intros ? ?).
  reflexivity.
Qed.


End EntryChecks.

Lemma bindV_known {A B} (m : V A) (f : A -> V B) (this this' : ScoreValidator) (a : A) :
  m this = (this', Normal a) -> bindV m f this = f a this'.
Proof. intros H. unfold bindV. now rewrite H. Qed.

Lemma entryErrorChecks_object (entry : JsValue) (prefix : string) (this : ScoreValidator) :
  Spec.isObject entry = true ->
  entryErrorChecks entry prefix this
  = (withErrors this (entryErrors prefix entry),
     Normal (Spec.field entry "scorePercent", Spec.field entry "scoreSuccess")).
Proof.
  intros Hobj. unfold entryErrorChecks.
  rewrite (bindV_known _ _ _ _ _ (validateRequired_object entry _ this Hobj)).
  rewrite !(Get_of_object entry _ Hobj).
  rewrite (bindV_known (liftV _) _ _ _ _ eq_refl).
  rewrite (bindV_known _ _ _ _ _ (when_addError _ _ _)).
  rewrite (bindV_known (liftV _) _ _ _ _ eq_refl).
  replace (when (negb (isNull (Spec.field entry "scorePercent"))
                 && negb (isUndefined (Spec.field entry "scorePercent"))) _)
    with (when (Spec.present (Spec.field entry "scorePercent")
                && percentOutOfRange (Spec.field entry "scorePercent"))
            (addError (prefix +++ ".scorePercent must be a number between 0-100"))).
  2: { unfold percentOutOfRange.
       destruct (Spec.field entry "scorePercent"); reflexivity. }
  rewrite (bindV_known _ _ _ _ _ (when_addError _ _ _)).
  rewrite (bindV_known (liftV _) _ _ _ _ eq_refl).
  rewrite (bindV_known _ _ _ _ _ (when_addError _ _ _)).
  unfold retV, entryErrors. now rewrite !withErrors_app.
Qed.



Lemma percentOutOfRange_spec (v : JsValue) :
  v <> JNum NaN -> percentOutOfRange v = negb (Spec.percentInRange v).
Proof.
  intros Hnan. destruct v as [| | | [| q | [|]] | | |]; try reflexivity; [ congruence |].
  unfold percentOutOfRange, Spec.percentInRange, numLt, numGt, numLt, ofZ.
  fold (ZtoQc 0) (ZtoQc 100). unfold Qcltb, Qcleb.
  rewrite negb_andb. reflexivity.
Qed.



(** ** The validator's own recomputation *)

Lemma existsb_filter_length {A} (p : A -> bool) (l : list A) :
  existsb p l = (0 <? List.length (filter p l))%nat.
Proof.
  induction l as [| x l IH]; cbn; [ reflexivity |].
  destruct (p x); cbn; [ reflexivity | exact IH ].
Qed.

Lemma isCountedEntry_included (entry : JsValue) :
  Spec.wellTypedEntry entry = true ->
  Spec.percentGivenWhenScored entry = true ->
  isCountedEntry entry = Normal (Spec.included entry).
Proof.
  destruct entry as [| | | | | | props]; try discriminate.
  unfold Spec.wellTypedEntry, Spec.percentGivenWhenScored, isCountedEntry, Spec.included.
  rewrite !Get_object. cbn [bindC].
  destruct (Spec.field (JObj props) "scorePercent") as [| | | [| q | s] | | |];
    try discriminate; cbn [isNull isUndefined Spec.present negb orb andb];
    destruct (isStr "unknown" (Spec.field (JObj props) "scoreSuccess"));
    cbn [negb orb andb]; try reflexivity;
    destruct (Spec.field (JObj props) "isOptional") as [| | [|] | | | |];
    try discriminate; reflexivity.
Qed.

Section RecomputationFacts.

Variable rt : Runtime.

Lemma reduce_accumulateEntry (entries : list JsValue) (acc : number) (n : nat) :
  forallb Spec.wellTypedEntry entries = true ->
  forallb Spec.percentGivenWhenScored entries = true ->
  reduceC (accumulateEntry rt) entries (JNum acc, n)
  = Normal (JNum (fold_left numAdd (map Spec.percentOf (filter Spec.included entries)) acc),
            (n + List.length (filter Spec.included entries))%nat).
Proof.
  revert acc n. induction entries as [| e entries IH]; intros acc n;
    cbn [forallb reduceC filter].
  - intros _ _. cbn. now rewrite Nat.add_0_r.
  - rewrite !andb_true_iff. intros [He Hes] [Hg Hgs].
    unfold accumulateEntry at 1. rewrite (isCountedEntry_included e He Hg).
    cbn [bindC fst snd]. destruct (Spec.included e) eqn:Hinc.
    + rewrite (included_percent e He Hinc).
      cbn [bindC jsAdd ToPrimitive ToNumber].
      rewrite (IH _ _ Hes Hgs). cbn [map fold_left List.length].
      now rewrite Nat.add_succ_r.
    + apply (IH _ _ Hes Hgs).
Qed.

Lemma accumulateArea_wellFormed (area : JsValue) (total : number) (weight : nat) :
  Spec.wellFormedArea area = true ->
  forallb Spec.percentGivenWhenScored (Spec.entriesOf area) = true ->
  accumulateArea rt (total, weight) area
  = Normal (if Spec.hasIncludedEntry area
            then (numAdd total (Spec.areaPercent (Spec.entriesOf area)), S weight)
            else (total, weight)).
Proof.
  destruct area as [| | | | | | props]; try discriminate.
  unfold Spec.wellFormedArea, Spec.hasIncludedEntry, Spec.entriesOf, accumulateArea.
  rewrite Get_object.
  destruct (Spec.field (JObj props) "scoreEntries") as [| | | | | entries |];
    try discriminate.
  intros Htyped Hgiven. cbn [bindC arrayOf].
  rewrite (reduce_accumulateEntry entries _ _ Htyped Hgiven). cbn [bindC fst snd Nat.add].
  rewrite existsb_filter_length. unfold Spec.areaPercent, Spec.mean, Spec.sum.
  destruct (filter Spec.included entries) as [| e kept] eqn:Hkept; [ reflexivity |].
  change (0 <? List.length (e :: kept))%nat with true. cbv iota.
  cbn [jsDiv ToNumber bindC fst snd map List.length]. now rewrite length_map.
Qed.

Lemma reduce_accumulateArea (areas : list JsValue) (total : number) (weight : nat) :
  forallb Spec.wellFormedArea areas = true ->
  forallb (fun area => forallb Spec.percentGivenWhenScored (Spec.entriesOf area)) areas = true ->
  reduceC (accumulateArea rt) areas (total, weight)
  = Normal (fold_left numAdd
              (map (fun a => Spec.areaPercent (Spec.entriesOf a))
                 (filter Spec.hasIncludedEntry areas)) total,
            (weight + List.length (filter Spec.hasIncludedEntry areas))%nat).
Proof.
  revert total weight. induction areas as [| a areas IH]; intros total weight;
    cbn [forallb reduceC filter].
  - intros _ _. cbn. now rewrite Nat.add_0_r.
  - rewrite !andb_true_iff. intros [Ha Has] [Hg Hgs].
    rewrite (accumulateArea_wellFormed a total weight Ha Hg). cbn [bindC].
    destruct (Spec.hasIncludedEntry a).
    + rewrite (IH _ _ Has Hgs). cbn [map fold_left List.length].
      now rewrite Nat.add_succ_r.
    + apply (IH _ _ Has Hgs).
Qed.

Lemma calculateScores_recomputed (data : JsValue) :
  Spec.areasWellFormed data = true ->
  Spec.percentsGivenWhenScored data = true ->
  calculateScores rt data
  = Normal {| overall := Spec.recomputedOverall (Spec.areasOf data) |}.
Proof.
  destruct data as [| | | | | | props]; try discriminate.
  unfold Spec.areasWellFormed, Spec.percentsGivenWhenScored, Spec.areasOf, calculateScores.
  rewrite Get_object.
  destruct (Spec.field (JObj props) "areaScores") as [| | | | | areas |];
    try discriminate.
  intros Hwf Hgiven. cbn [bindC arrayOf].
  rewrite (reduce_accumulateArea areas _ _ Hwf Hgiven). cbn [bindC fst snd Nat.add].
  unfold Spec.recomputedOverall, Spec.mean, Spec.sum.
  destruct (filter Spec.hasIncludedEntry areas) as [| a kept]; [ reflexivity |].
  change (0 <? List.length (a :: kept))%nat with true. cbv iota.
  cbn [map List.length]. now rewrite length_map.
Qed.

End RecomputationFacts.

Section DriftCheck.

Variable rt : Runtime.

Lemma validateCalculatedScores_stored (data : JsValue) (held : ScoreValidator) (s : Qc) :
  Spec.areasWellFormed data = true ->
  Spec.percentsGivenWhenScored data = true ->
  Spec.field data "scorePercent" = JNum (Fin s) ->
  s <> Q2Qc 0 ->
  validateCalculatedScores rt data held
  = if Spec.differsByMoreThanOne (Fin s) (Spec.recomputedOverall (Spec.areasOf data))
    then addWarning (driftWarning rt (Fin s) (Spec.recomputedOverall (Spec.areasOf data))) held
    else (held, Normal tt).
Proof.
  intros Hwf Hgiven Hstored Hnz. unfold validateCalculatedScores.
  rewrite (calculateScores_recomputed rt data Hwf Hgiven).
  assert (Hobj : Spec.isObject data = true) by (destruct data; try discriminate; reflexivity).
  rewrite (Get_of_object data _ Hobj), Hstored.
  rewrite (bindV_known (liftV _) _ _ _ _ eq_refl).
  rewrite (bindV_known (liftV _) _ _ _ _ eq_refl).
  assert (Htruthy : truthy (JNum (Fin s)) = true).
  { cbn. apply negb_true_iff, not_true_iff_false. now rewrite Qceqb_true. }
  rewrite Htruthy. cbn [overall jsSub ToNumber bindC].
  rewrite (bindV_known (liftV _) _ _ _ _ eq_refl).
  change (numGt (MathAbs (numSub (Fin s) ?r)) (ofZ 1))
    with (Spec.differsByMoreThanOne (Fin s) r).
  destruct (Spec.differsByMoreThanOne (Fin s) _); reflexivity.
Qed.

Lemma validateCalculatedScores_absent (data : JsValue) (held : ScoreValidator) :
  Spec.areasWellFormed data = true ->
  Spec.percentsGivenWhenScored data = true ->
  Spec.present (Spec.field data "scorePercent") = false ->
  validateCalculatedScores rt data held = (held, Normal tt).
Proof.
  intros Hwf Hgiven Habsent. unfold validateCalculatedScores.
  rewrite (calculateScores_recomputed rt data Hwf Hgiven).
  assert (Hobj : Spec.isObject data = true) by (destruct data; try discriminate; reflexivity).
  rewrite (Get_of_object data _ Hobj).
  rewrite (bindV_known (liftV _) _ _ _ _ eq_refl).
  rewrite (bindV_known (liftV _) _ _ _ _ eq_refl).
  destruct (Spec.field data "scorePercent"); try discriminate; reflexivity.
Qed.

Lemma processAreaScore_wellFormed (area : JsValue) :
  Spec.wellFormedArea area = true ->
  processAreaScore rt area = Normal (Spec.areaResultOf area).
Proof.
  destruct area as [| | | | | | props]; try discriminate.
  unfold Spec.wellFormedArea, Spec.areaResultOf, Spec.entriesOf.
  destruct (Spec.field (JObj props) "scoreEntries") as [| | | | | entries |] eqn:Hentries;
    try discriminate.
  intros Htyped. apply processAreaScore_mean; [| exact Htyped ].
  unfold Spec.field in Hentries.
  destruct (lookup "scoreEntries" props); [ now subst | discriminate ].
Qed.

Lemma mapC_processAreaScore (areas : list JsValue) :
  forallb Spec.wellFormedArea areas = true ->
  mapC (processAreaScore rt) areas = Normal (map Spec.areaResultOf areas).
Proof.
  induction areas as [| a areas IH]; cbn [forallb mapC map]; [ reflexivity |].
  rewrite andb_true_iff. intros [Ha Has].
  now rewrite (processAreaScore_wellFormed a Ha), (IH Has).
Qed.

Lemma calculateOverallScore_aggregated (areas : list JsValue) :
  calculateOverallScore rt (map Spec.areaResultOf areas)
  = Normal (JObj [ ("scorePercent", JNum (Spec.aggregatedOverall areas)) ]).
Proof.
  rewrite calculateOverallScore_mean.
  - rewrite map_map. reflexivity.
  - rewrite forallb_forall. intros x Hx. apply in_map_iff in Hx.
    destruct Hx as (a & <- & _). reflexivity.
Qed.

End DriftCheck.

(** Where every area that keeps an entry averages above zero, the
    validator's mean and the aggregator's are the same number: the same
    additions and divisions, in the same order. *)
Lemma recomputed_is_aggregated (areas : list JsValue) :
  (forall a, In a areas -> Spec.hasIncludedEntry a = true ->
             Spec.positive (Spec.areaPercent (Spec.entriesOf a)) = true) ->
  Spec.aggregatedOverall areas = Spec.recomputedOverall areas.
Proof.
  intros Hpos. unfold Spec.aggregatedOverall, Spec.overallPercent, Spec.recomputedOverall.
  rewrite filter_map_commute. f_equal. f_equal.
  apply filter_ext_in. intros a Ha.
  destruct (Spec.hasIncludedEntry a) eqn:Hkept.
  - now apply Hpos.
  - unfold Spec.hasIncludedEntry in Hkept. rewrite existsb_filter_length in Hkept.
    unfold Spec.areaPercent.
    destruct (filter Spec.included (Spec.entriesOf a)); [ reflexivity | discriminate ].
Qed.

(** C7, as the validator has it: on a record whose own [scorePercent] is a
    number other than 0, the validator recomputes the overall percent as the
    mean of the area means over the areas that keep at least one entry, and
    pushes the drift warning exactly when the stored and the recomputed
    values differ by more than 1, the difference being the double the
    subtraction gives; it pushes none when the stored value is null or
    absent.  The recomputed value is the aggregator's overall whenever
    every area that keeps an entry averages above zero. *)
Theorem C7_drift_warning_against_the_validators_mean
    (rt : Runtime) (data : JsValue) (held : ScoreValidator)
    (Hwf : Spec.areasWellFormed data = true)
    (Hgiven : Spec.percentsGivenWhenScored data = true) :
  let areas := Spec.areasOf data in
  let recomputed := Spec.recomputedOverall areas in
  calculateScores rt data = Normal {| overall := recomputed |}
  /\ recomputed
     = Spec.mean (map (fun area => Spec.areaPercent (Spec.entriesOf area))
                    (filter Spec.hasIncludedEntry areas))
  /\ (forall s : Qc,
         Spec.field data "scorePercent" = JNum (Fin s) -> s <> Q2Qc 0 ->
         validateCalculatedScores rt data held
         = if numLt (ofZ 1) (MathAbs (numSub (Fin s) recomputed))
           then ({| errors := errors held;
                    warnings := warnings held
                      ++ [ "⚠️  WARNING: " +++ driftWarning rt (Fin s) recomputed ] |},
                 Normal tt)
           else (held, Normal tt))
  /\ (Spec.present (Spec.field data "scorePercent") = false ->
      validateCalculatedScores rt data held = (held, Normal tt))
  /\ ((forall a, In a areas -> Spec.hasIncludedEntry a = true ->
                 Spec.positive (Spec.areaPercent (Spec.entriesOf a)) = true) ->
      bindC (mapC (processAreaScore rt) areas) (calculateOverallScore rt)
      = Normal (JObj [ ("scorePercent", JNum recomputed) ])).
Proof.
  cbv zeta. split; [ now apply calculateScores_recomputed |].
  split; [ reflexivity |].
  split; [ intros s Hs Hnz; now apply validateCalculatedScores_stored |].
  split; [ now apply validateCalculatedScores_absent |].
  intros Hpos.
  assert (Hareas : forallb Spec.wellFormedArea (Spec.areasOf data) = true).
  { destruct data; try discriminate. unfold Spec.areasWellFormed in Hwf.
    unfold Spec.areasOf. destruct (Spec.field _ "areaScores"); try discriminate.
    exact Hwf. }
  rewrite (mapC_processAreaScore rt _ Hareas). cbn [bindC].
  rewrite calculateOverallScore_aggregated. now rewrite (recomputed_is_aggregated _ Hpos).
Qed.

(** Areas at 90 and 70, the record stores 60: the warning is pushed.  Areas
    that average to 165 / 3 on paper, the record stores 54: the doubles add
    up to more than 165, the difference is more than 1, and the warning is
    pushed. *)
Lemma C7_witness :
  validateCalculatedScores Reference.runtime Example.recordThatDrifted newScoreValidator
  = ({| errors := [];
        warnings :=
          [ "⚠️  WARNING: Overall scorePercent (60) differs from calculated value (80.0)" ] |},
     Normal tt)
  /\ validateCalculatedScores Reference.runtime Example.recordOffByOne newScoreValidator
     = ({| errors := [];
           warnings :=
             [ "⚠️  WARNING: Overall scorePercent (54) differs from calculated value (55.0)" ] |},
        Normal tt).
Proof.
  split.
  - destruct (C7_drift_warning_against_the_validators_mean Reference.runtime
                Example.recordThatDrifted newScoreValidator eq_refl eq_refl)
      as (_ & _ & Hstored & _).
    rewrite (Hstored (ZtoQc 60) eq_refl).
    + vm_compute. reflexivity.
    + intros E. apply (ZtoQc_inj 60 0) in E. discriminate E.
  - destruct (C7_drift_warning_against_the_validators_mean Reference.runtime
                Example.recordOffByOne newScoreValidator eq_refl eq_refl)
      as (_ & _ & Hstored & _).
    rewrite (Hstored (ZtoQc 54) eq_refl).
    + vm_compute. reflexivity.
    + intros E. apply (ZtoQc_inj 54 0) in E. discriminate E.
Defined.

(** C7 does not hold as the design document states it, twice over.  The
    aggregator gives the record with a zero area the overall percent 100,
    which is what the record stores, and the validator, which counts the
    zero area, recomputes 50 and warns.  And a stored percent of 0 is never
    compared: no warning although the recomputed value is 50. *)
Lemma C7_counterexample :
  bindC (processEntityFile Reference.runtime Example.recordWithZeroArea)
    (fun output => Get output "scorePercent")
  = Normal (Example.num 100)
  /\ Spec.field Example.recordWithZeroArea "scorePercent" = Example.num 100
  /\ validateCalculatedScores Reference.runtime Example.recordWithZeroArea newScoreValidator
     = ({| errors := [];
           warnings :=
             [ "⚠️  WARNING: Overall scorePercent (100) differs from calculated value (50.0)" ] |},
        Normal tt)
  /\ Spec.field Example.recordStoringZero "scorePercent" = Example.num 0
  /\ calculateScores Reference.runtime Example.recordStoringZero
     = Normal {| overall := ofZ 50 |}
  /\ validateCalculatedScores Reference.runtime Example.recordStoringZero newScoreValidator
     = (newScoreValidator, Normal tt).
Proof. repeat split; vm_compute; reflexivity. Qed.

(** ** The aggregator's output *)

Lemma Get_truthy (v : JsValue) (k : string) :
  truthy v = true -> Get v k = Normal (Spec.field v k).
Proof.
  destruct v; try discriminate; intros _; try reflexivity. apply Get_object.
Qed.

Section OutputFacts.

Variable rt : Runtime.

Lemma areaSummary_of_result (area : JsValue) :
  areaSummary rt (Spec.areaResultOf area) = Normal (areaSummaryOf area).
Proof.
  unfold areaSummary, Spec.areaResultOf, getScoreLabel, getScoreSuccess.
  cbn [Get lookup String.eqb Ascii.eqb Bool.eqb bindC jsMathRound ToNumber MathRound].
  rewrite !firstInRange_number. reflexivity.
Qed.

Lemma mapC_areaSummary (areas : list JsValue) :
  mapC (areaSummary rt) (map Spec.areaResultOf areas) = Normal (map areaSummaryOf areas).
Proof.
  induction areas as [| a areas IH]; cbn [mapC map]; [ reflexivity |].
  now rewrite areaSummary_of_result, IH.
Qed.

Lemma processEntityFile_wellFormed (data : JsValue) :
  Spec.wellFormedRecord data = true ->
  let entityRef := Spec.field data "entityRef" in
  let namespace := Spec.field entityRef "namespace" in
  let generated := Spec.field data "generatedDateTimeUtc" in
  let reviewer := Spec.field data "scoringReviewer" in
  let reviewDate := Spec.field data "scoringReviewDate" in
  let areas := Spec.areasOf data in
  let overall := Spec.aggregatedOverall areas in
  processEntityFile rt data
  = Normal (JObj (
      [ ("entityRef",
         JObj ([ ("kind", Spec.field entityRef "kind");
                 ("name", Spec.field entityRef "name") ]
               ++ spreadIf (truthy namespace && negb (isStr "default" namespace))
                    "namespace" namespace));
        ("generatedDateTimeUtc",
         if truthy generated then generated else JStr (nowISOString rt));
        ("scorePercent", JNum (MathRound overall));
        ("scoreLabel", JStr (labelOf overall));
        ("scoreSuccess", JStr (successOf overall)) ]
      ++ spreadIf (truthy reviewer) "scoringReviewer" reviewer
      ++ spreadIf (truthy reviewDate) "scoringReviewDate" reviewDate
      ++ [ ("areaScores", JArr (map areaSummaryOf areas)) ])).
Proof.
  unfold Spec.wellFormedRecord. rewrite andb_true_iff. intros [Href Hareas].
  destruct data as [| | | | | | props]; try discriminate.
  unfold Spec.areasWellFormed in Hareas. cbv zeta. unfold Spec.areasOf, processEntityFile.
  rewrite !Get_object.
  destruct (Spec.field (JObj props) "areaScores") as [| | | | | areas |];
    try discriminate.
  cbn [bindC]. rewrite Href. cbn [negb truthy arrayOf bindC].
  rewrite (mapC_processAreaScore rt areas Hareas). cbn [bindC].
  rewrite calculateOverallScore_aggregated. cbn [bindC].
  rewrite !(Get_truthy _ _ Href). cbn [bindC].
  cbn [Get lookup String.eqb Ascii.eqb Bool.eqb bindC jsMathRound ToNumber MathRound].
  unfold getScoreLabel, getScoreSuccess. rewrite !firstInRange_number. cbn [bindC].
  rewrite mapC_areaSummary. reflexivity.
Qed.

End OutputFacts.

(** Whatever the record, an output has the shape of a projection. *)

Lemma Get_normal (v : JsValue) (k : string) (x : JsValue) :
  Get v k = Normal x -> x = Spec.field v k.
Proof.
  destruct v; cbn; try discriminate; try (intros H; now inversion H).
  destruct (lookup k props); intros H; now inversion H.
Qed.

Lemma mapC_length {A B} (f : A -> completion B) (l : list A) (l' : list B) :
  mapC f l = Normal l' -> List.length l' = List.length l.
Proof.
  revert l'. induction l as [| x l IH]; intros l'; cbn [mapC].
  - intros H. now inversion H.
  - destruct (f x) as [y | e]; cbn [bindC]; [| discriminate ].
    destruct (mapC f l) as [ys | e]; cbn [bindC]; [| discriminate ].
    intros H. inversion H. cbn. f_equal. now apply IH.
Qed.

Lemma areaSummary_shape (rt : Runtime) (area summary : JsValue) :
  areaSummary rt area = Normal summary -> isAreaSummary summary.
Proof.
  unfold areaSummary, jsMathRound. intros H.
  repeat match type of H with
         | bindC (bindC ?m _) _ = Normal _ =>
             destruct m; cbn [bindC] in H; [| discriminate H ]
         | bindC ?m _ = Normal _ =>
             destruct m; cbn [bindC] in H; [| discriminate H ]
         end.
  inversion H. unfold isAreaSummary. do 5 eexists. reflexivity.
Qed.

Lemma mapC_areaSummary_shape (rt : Runtime) (areas summaries : list JsValue) :
  mapC (areaSummary rt) areas = Normal summaries -> Forall isAreaSummary summaries.
Proof.
  revert summaries. induction areas as [| a areas IH]; intros summaries; cbn [mapC].
  - intros H. inversion H. constructor.
  - destruct (areaSummary rt a) as [y | e] eqn:Ha; cbn [bindC]; [| discriminate ].
    destruct (mapC (areaSummary rt) areas) as [ys | e]; cbn [bindC]; [| discriminate ].
    intros H. inversion H. constructor; [ now apply (areaSummary_shape rt a) | now apply IH ].
Qed.

Lemma processEntityFile_shape (rt : Runtime) (data output : JsValue) :
  processEntityFile rt data = Normal output -> isProjectionOf rt data output.
Proof.
  unfold processEntityFile. intros H.
  destruct (Get data "entityRef") as [entityRef |] eqn:Href; cbn [bindC] in H;
    [| discriminate H ].
  apply Get_normal in Href. subst entityRef.
  destruct (truthy (Spec.field data "entityRef")) eqn:Htruthy; cbn [negb] in H;
    [| discriminate H ].
  destruct (Get data "areaScores") as [areaScores |] eqn:Hareas; cbn [bindC] in H;
    [| discriminate H ].
  apply Get_normal in Hareas. subst areaScores.
  destruct (truthy (Spec.field data "areaScores")); cbn [negb] in H; [| discriminate H ].
  destruct (arrayOf (Spec.field data "areaScores")) as [areas |] eqn:Harray;
    cbn [bindC] in H; [| discriminate H ].
  destruct (mapC (processAreaScore rt) areas) as [processed |] eqn:Hprocessed;
    cbn [bindC] in H; [| discriminate H ].
  destruct (calculateOverallScore rt processed) as [overallScore |];
    cbn [bindC] in H; [| discriminate H ].
  rewrite !(Get_truthy _ _ Htruthy) in H. cbn [bindC] in H.
  destruct (Get data "generatedDateTimeUtc") as [generated |] eqn:Hgenerated;
    cbn [bindC] in H; [| discriminate H ].
  apply Get_normal in Hgenerated. subst generated.
  destruct (Get overallScore "scorePercent") as [overallPercent |];
    cbn [bindC] in H; [| discriminate H ].
  unfold jsMathRound in H.
  destruct (ToNumber rt overallPercent) as [percent |]; cbn [bindC] in H;
    [| discriminate H ].
  destruct (getScoreLabel rt overallPercent) as [label |]; cbn [bindC] in H;
    [| discriminate H ].
  destruct (getScoreSuccess rt overallPercent) as [success |]; cbn [bindC] in H;
    [| discriminate H ].
  destruct (Get data "scoringReviewer") as [reviewer |] eqn:Hreviewer;
    cbn [bindC] in H; [| discriminate H ].
  apply Get_normal in Hreviewer. subst reviewer.
  destruct (Get data "scoringReviewDate") as [reviewDate |] eqn:HreviewDate;
    cbn [bindC] in H; [| discriminate H ].
  apply Get_normal in HreviewDate. subst reviewDate.
  destruct (mapC (areaSummary rt) processed) as [summaries |] eqn:Hsummaries;
    cbn [bindC] in H; [| discriminate H ].
  inversion H. exists percent, label, success, summaries.
  split; [ reflexivity |]. split; [ now apply (mapC_areaSummary_shape rt processed) |].
  rewrite (mapC_length _ _ _ Hsummaries), (mapC_length _ _ _ Hprocessed).
  unfold Spec.areasOf. destruct (Spec.field data "areaScores"); try discriminate Harray.
  now inversion Harray.
Qed.

Lemma roundZ_nearest (q : Qc) :
  (inject_Z (roundZ q) - (1 # 2) <= this q)%Q
  /\ (this q < inject_Z (roundZ q) + (1 # 2))%Q.
Proof.
  unfold roundZ. set (x := (this q + (1 # 2))%Q).
  pose proof (Qfloor_le x) as Hle. pose proof (Qlt_floor x) as Hlt.
  rewrite inject_Z_plus in Hlt. unfold x in Hle, Hlt. fold x in Hle, Hlt.
  split.
  - apply (Qplus_le_l _ _ (1 # 2)). unfold x in Hle.
    setoid_replace (inject_Z (Qfloor x) - (1 # 2) + (1 # 2))%Q
      with (inject_Z (Qfloor x)) by ring.
    exact Hle.
  - apply (Qplus_lt_l _ _ (1 # 2)). unfold x in Hlt.
    setoid_replace (inject_Z (Qfloor x) + (1 # 2) + (1 # 2))%Q
      with (inject_Z (Qfloor x) + inject_Z 1)%Q by ring.
    exact Hlt.
Qed.

(** C9, as the aggregator has it: on a structurally valid record it
    returns, and returns exactly this object.  The entity reference has its
    kind and name, and its namespace only when that is truthy (so present)
    and is not "default"; the timestamp is the record's when that is
    truthy, and the current instant otherwise: when the record has none,
    and also when it has an empty one; the overall percent and the area
    percents are the computed means, which are doubles, rounded to the
    nearest integer, within one half of them; the reviewer and the review
    date appear only when truthy, so only when present; an area summary has
    the five properties id, title, scorePercent, scoreLabel and
    scoreSuccess and no entries.  And whatever the record, an object the
    aggregator returns has this shape. *)
Theorem C9_output_is_the_specified_projection
    (rt : Runtime) (data : JsValue)
    (Hwf : Spec.wellFormedRecord data = true) :
  let entityRef := Spec.field data "entityRef" in
  let namespace := Spec.field entityRef "namespace" in
  let generated := Spec.field data "generatedDateTimeUtc" in
  let reviewer := Spec.field data "scoringReviewer" in
  let reviewDate := Spec.field data "scoringReviewDate" in
  let areas := Spec.areasOf data in
  let overall := Spec.aggregatedOverall areas in
  processEntityFile rt data
  = Normal (JObj (
      [ ("entityRef",
         JObj ([ ("kind", Spec.field entityRef "kind");
                 ("name", Spec.field entityRef "name") ]
               ++ (if truthy namespace && negb (isStr "default" namespace)
                   then [ ("namespace", namespace) ] else [])));
        ("generatedDateTimeUtc",
         if truthy generated then generated else JStr (nowISOString rt));
        ("scorePercent", JNum (MathRound overall));
        ("scoreLabel", JStr (labelOf overall));
        ("scoreSuccess", JStr (successOf overall)) ]
      ++ (if truthy reviewer then [ ("scoringReviewer", reviewer) ] else [])
      ++ (if truthy reviewDate then [ ("scoringReviewDate", reviewDate) ] else [])
      ++ [ ("areaScores", JArr (map areaSummaryOf areas)) ]))
  /\ (truthy namespace && negb (isStr "default" namespace) = true ->
      Spec.present namespace = true /\ namespace <> JStr "default")
  /\ (Spec.present generated = false -> truthy generated = false)
  /\ (truthy reviewer = true -> Spec.present reviewer = true)
  /\ (truthy reviewDate = true -> Spec.present reviewDate = true)
  /\ getScoreLabel rt (JNum overall) = Normal (labelOf overall)
  /\ getScoreSuccess rt (JNum overall) = Normal (successOf overall)
  /\ (forall q : Qc,
         MathRound (Fin q) = ofZ (roundZ q)
         /\ (inject_Z (roundZ q) - (1 # 2) <= this q)%Q
         /\ (this q < inject_Z (roundZ q) + (1 # 2))%Q)
  /\ Forall (fun summary =>
               exists props,
                 summary = JObj props
                 /\ keys props = [ "id"; "title"; "scorePercent"; "scoreLabel"; "scoreSuccess" ]
                 /\ lookup "scoreEntries" props = None)
       (map areaSummaryOf areas)
  /\ (forall any output,
         processEntityFile rt any = Normal output -> isProjectionOf rt any output).
Proof.
  cbv zeta. split; [ exact (processEntityFile_wellFormed rt data Hwf) |].
  split.
  { rewrite andb_true_iff, negb_true_iff. intros [Hns Hdefault]. split.
    - destruct (Spec.field _ "namespace"); try discriminate; reflexivity.
    - intros E. rewrite E in Hdefault. discriminate. }
  split; [ destruct (Spec.field data "generatedDateTimeUtc"); try discriminate; reflexivity |].
  split; [ destruct (Spec.field data "scoringReviewer"); try discriminate; reflexivity |].
  split; [ destruct (Spec.field data "scoringReviewDate"); try discriminate; reflexivity |].
  split; [ apply firstInRange_number |].
  split; [ apply firstInRange_number |].
  split; [ intros q; split; [ reflexivity | apply roundZ_nearest ] |].
  split; [| apply processEntityFile_shape ].
  apply Forall_forall. intros summary Hin. apply in_map_iff in Hin.
  destruct Hin as (area & <- & _). eexists. repeat split.
Qed.

(** The reviewed record: overall 63 (the mean of 60 and 66.5, 63.25), the
    second area 67 (66.5 rounds up); the bare record, whose namespace
    "default" is left out and whose timestamp is the clock's; and the record
    whose overall is 36.49999999999999, which rounds to 36. *)
Lemma C9_witness :
  processEntityFile Reference.runtime Example.reviewedRecord
  = Normal (JObj
      [ ("entityRef",
         JObj [ ("kind", JStr "component"); ("name", JStr "billing-service");
                ("namespace", JStr "payments") ]);
        ("generatedDateTimeUtc", JStr "2024-01-15T10:30:00Z");
        ("scorePercent", Example.num 63);
        ("scoreLabel", JStr "Yellow");
        ("scoreSuccess", JStr "partial");
        ("scoringReviewer", JStr "A. Reviewer");
        ("scoringReviewDate", JStr "2024-02-01T09:00:00Z");
        ("areaScores",
         JArr [ JObj [ ("id", Example.num 1); ("title", JStr "Documentation");
                       ("scorePercent", Example.num 60);
                       ("scoreLabel", JStr "Yellow");
                       ("scoreSuccess", JStr "partial") ];
                JObj [ ("id", Example.num 2); ("title", JStr "Documentation");
                       ("scorePercent", Example.num 67);
                       ("scoreLabel", JStr "Yellow");
                       ("scoreSuccess", JStr "partial") ] ]) ])
  /\ processEntityFile Reference.runtime Example.bareRecord
     = Normal (JObj
         [ ("entityRef", JObj [ ("kind", JStr "api"); ("name", JStr "ledger") ]);
           ("generatedDateTimeUtc", JStr "2024-06-01T00:00:00.000Z");
           ("scorePercent", Example.num 50);
           ("scoreLabel", JStr "Yellow");
           ("scoreSuccess", JStr "partial");
           ("areaScores",
            JArr [ JObj [ ("id", Example.num 1); ("title", JStr "Documentation");
                          ("scorePercent", Example.num 50);
                          ("scoreLabel", JStr "Yellow");
                          ("scoreSuccess", JStr "partial") ] ]) ])
  /\ bindC (processEntityFile Reference.runtime Example.recordBelowHalf)
       (fun output => Get output "scorePercent")
     = Normal (Example.num 36).
Proof.
  destruct (C9_output_is_the_specified_projection Reference.runtime
              Example.reviewedRecord eq_refl) as (Hreviewed & _).
  destruct (C9_output_is_the_specified_projection Reference.runtime
              Example.bareRecord eq_refl) as (Hbare & _).
  destruct (C9_output_is_the_specified_projection Reference.runtime
              Example.recordBelowHalf eq_refl) as (Hbelow & _).
  split; [| split ].
  - rewrite Hreviewed. vm_compute. reflexivity.
  - rewrite Hbare. vm_compute. reflexivity.
  - rewrite Hbelow. vm_compute. reflexivity.
Defined.

(** C9 does not hold as the design document states it: a record whose
    timestamp is present and empty is structurally valid, and the output
    carries the current instant in its place, not the record's timestamp. *)
Lemma C9_counterexample :
  Spec.wellFormedRecord Example.recordWithEmptyTimestamp = true
  /\ Spec.field Example.recordWithEmptyTimestamp "generatedDateTimeUtc" = JStr EmptyString
  /\ Spec.present (Spec.field Example.recordWithEmptyTimestamp "generatedDateTimeUtc") = true
  /\ bindC (processEntityFile Reference.runtime Example.recordWithEmptyTimestamp)
        (fun output => Get output "generatedDateTimeUtc")
     = Normal (JStr "2024-06-01T00:00:00.000Z").
Proof. repeat split; vm_compute; reflexivity. Qed.

(** ** A record without any score *)

Lemma areaPercent_unscored (area : JsValue) :
  Spec.hasIncludedEntry area = false -> Spec.areaPercent (Spec.entriesOf area) = ofZ 0.
Proof.
  unfold Spec.hasIncludedEntry. rewrite existsb_filter_length. unfold Spec.areaPercent.
  destruct (filter Spec.included (Spec.entriesOf area)); [ reflexivity | discriminate ].
Qed.

Lemma aggregatedOverall_zero (areas : list JsValue) :
  (forall a, In a areas -> Spec.areaPercent (Spec.entriesOf a) = ofZ 0) ->
  Spec.aggregatedOverall areas = ofZ 0.
Proof.
  intros Hzero. unfold Spec.aggregatedOverall, Spec.overallPercent.
  replace (filter Spec.positive
             (map (fun area => Spec.areaPercent (Spec.entriesOf area)) areas))
    with (@nil number); [ reflexivity |].
  induction areas as [| a areas IH]; [ reflexivity |].
  cbn [map filter]. rewrite (Hzero a (or_introl eq_refl)).
  change (Spec.positive (ofZ 0)) with false. cbv iota.
  apply IH. intros b Hb. apply Hzero. now right.
Qed.

Lemma processEntityFile_zero (rt : Runtime) (data : JsValue) :
  Spec.wellFormedRecord data = true ->
  (forall a, In a (Spec.areasOf data) -> Spec.areaPercent (Spec.entriesOf a) = ofZ 0) ->
  processEntityFile rt data = Normal (zeroOutputOf rt data).
Proof.
  intros Hwf Hzero. rewrite (processEntityFile_wellFormed rt data Hwf).
  rewrite (aggregatedOverall_zero _ Hzero). unfold zeroOutputOf.
  replace (map areaSummaryOf (Spec.areasOf data))
    with (map zeroSummaryOf (Spec.areasOf data)); [ reflexivity |].
  apply map_ext_in. intros a Ha. unfold areaSummaryOf, zeroSummaryOf.
  now rewrite (Hzero a Ha).
Qed.

Lemma unknown_or_optional_is_not_kept (area : JsValue) :
  (forall e, In e (Spec.entriesOf area) ->
             isStr "unknown" (Spec.field e "scoreSuccess") = true
             \/ Spec.isTrue (Spec.field e "isOptional") = true) ->
  Spec.hasIncludedEntry area = false.
Proof.
  intros Hall. unfold Spec.hasIncludedEntry. apply not_true_iff_false.
  rewrite existsb_exists. intros (e & He & Hkept).
  unfold Spec.included in Hkept. rewrite !andb_true_iff, !negb_true_iff in Hkept.
  destruct Hkept as [[Hknown _] Hmandatory].
  destruct (Hall e He) as [H | H]; congruence.
Qed.

(** C10: when no area of a structurally valid record keeps an entry, the
    output has the overall percent 0, the label Red and the category
    'failure', and so has every area summary; an area all of whose entries
    are unknown or optional keeps none.  A record whose areas honestly
    average to 0 gets the output of the same form: nothing in the output
    tells the two apart. *)
Theorem C10_unscored_record_reads_as_zero
    (rt : Runtime) (data : JsValue)
    (Hwf : Spec.wellFormedRecord data = true)
    (Hnone : forallb (fun area => negb (Spec.hasIncludedEntry area))
               (Spec.areasOf data) = true) :
  let entityRef := Spec.field data "entityRef" in
  let namespace := Spec.field entityRef "namespace" in
  let generated := Spec.field data "generatedDateTimeUtc" in
  let reviewer := Spec.field data "scoringReviewer" in
  let reviewDate := Spec.field data "scoringReviewDate" in
  processEntityFile rt data
  = Normal (JObj (
      [ ("entityRef",
         JObj ([ ("kind", Spec.field entityRef "kind");
                 ("name", Spec.field entityRef "name") ]
               ++ (if truthy namespace && negb (isStr "default" namespace)
                   then [ ("namespace", namespace) ] else [])));
        ("generatedDateTimeUtc",
         if truthy generated then generated else JStr (nowISOString rt));
        ("scorePercent", JNum (ofZ 0));
        ("scoreLabel", JStr "Red");
        ("scoreSuccess", JStr "failure") ]
      ++ (if truthy reviewer then [ ("scoringReviewer", reviewer) ] else [])
      ++ (if truthy reviewDate then [ ("scoringReviewDate", reviewDate) ] else [])
      ++ [ ("areaScores",
            JArr (map (fun area =>
                         JObj [ ("id", Spec.field area "id");
                                ("title", Spec.field area "title");
                                ("scorePercent", JNum (ofZ 0));
                                ("scoreLabel", JStr "Red");
                                ("scoreSuccess", JStr "failure") ])
                    (Spec.areasOf data))) ]))
  /\ processEntityFile rt data = Normal (zeroOutputOf rt data)
  /\ (forall scored,
         Spec.wellFormedRecord scored = true ->
         (forall a, In a (Spec.areasOf scored) ->
                    Spec.areaPercent (Spec.entriesOf a) = ofZ 0) ->
         processEntityFile rt scored = Normal (zeroOutputOf rt scored))
  /\ (forall area,
         (forall e, In e (Spec.entriesOf area) ->
                    isStr "unknown" (Spec.field e "scoreSuccess") = true
                    \/ Spec.isTrue (Spec.field e "isOptional") = true) ->
         Spec.hasIncludedEntry area = false).
Proof.
  assert (Hzero : forall a, In a (Spec.areasOf data) ->
                            Spec.areaPercent (Spec.entriesOf a) = ofZ 0).
  { intros a Ha. apply areaPercent_unscored.
    rewrite forallb_forall in Hnone. apply negb_true_iff. now apply Hnone. }
  cbv zeta. split; [| split; [| split ] ].
  - exact (processEntityFile_zero rt data Hwf Hzero).
  - exact (processEntityFile_zero rt data Hwf Hzero).
  - intros scored Hscored Hscored0. now apply processEntityFile_zero.
  - apply unknown_or_optional_is_not_kept.
Qed.

(** The record whose entries are all unknown or optional, and the record
    whose entries all scored 0, give the same output. *)
Lemma C10_witness :
  processEntityFile Reference.runtime Example.unscoredRecord
  = Normal (JObj
      [ ("entityRef", Example.entityRef);
        ("generatedDateTimeUtc", JStr "2024-01-15T10:30:00Z");
        ("scorePercent", Example.num 0);
        ("scoreLabel", JStr "Red");
        ("scoreSuccess", JStr "failure");
        ("areaScores",
         JArr [ JObj [ ("id", Example.num 1); ("title", JStr "Documentation");
                       ("scorePercent", Example.num 0);
                       ("scoreLabel", JStr "Red");
                       ("scoreSuccess", JStr "failure") ];
                JObj [ ("id", Example.num 2); ("title", JStr "Documentation");
                       ("scorePercent", Example.num 0);
                       ("scoreLabel", JStr "Red");
                       ("scoreSuccess", JStr "failure") ] ]) ])
  /\ processEntityFile Reference.runtime Example.zeroScoredRecord
     = processEntityFile Reference.runtime Example.unscoredRecord.
Proof.
  destruct (C10_unscored_record_reads_as_zero Reference.runtime
              Example.unscoredRecord eq_refl eq_refl) as (Houtput & Hzero & Hscored & _).
  split; [ exact Houtput |].
  rewrite Hzero, (Hscored Example.zeroScoredRecord eq_refl); [ reflexivity |].
  intros a Ha. cbn in Ha.
  destruct Ha as [<- | [<- | []]]; vm_compute; reflexivity.
Defined.

(** * Further properties *)

(** ** The order of the entries and of the areas *)

Lemma filter_Permutation {A} (p : A -> bool) (l l' : list A) :
  Permutation l l' -> Permutation (filter p l) (filter p l').
Proof.
  induction 1 as [| x l l' _ IH | x y l | l l' l'' _ IH1 _ IH2]; cbn.
  - constructor.
  - destruct (p x); [ now constructor | exact IH ].
  - destruct (p x), (p y); try reflexivity. apply perm_swap.
  - now transitivity (filter p l').
Qed.

Lemma exactSum_Permutation (l l' : list Qc) :
  Permutation l l' -> Spec.exactSum l = Spec.exactSum l'.
Proof.
  unfold Spec.exactSum.
  induction 1 as [| x l l' _ IH | x y l | l l' l'' _ IH1 _ IH2]; cbn.
  - reflexivity.
  - now rewrite IH.
  - ring.
  - now rewrite IH1.
Qed.

Lemma exactMean_Permutation (l l' : list Qc) :
  Permutation l l' -> Spec.exactMean l = Spec.exactMean l'.
Proof.
  intros Hperm. pose proof (Permutation_length Hperm) as Hlen.
  pose proof (exactSum_Permutation l l' Hperm) as Hsum.
  destruct l as [| x l], l' as [| x' l']; try discriminate; [ reflexivity |].
  unfold Spec.exactMean. now rewrite Hsum, Hlen.
Qed.

Lemma forallb_Permutation {A} (p : A -> bool) (l l' : list A) :
  Permutation l l' -> forallb p l = true -> forallb p l' = true.
Proof.
  intros Hperm. rewrite !forallb_forall. intros H x Hx.
  apply H. eapply Permutation_in; [ symmetry; exact Hperm | exact Hx ].
Qed.

Lemma wholePercent_ofZ (entry : JsValue) :
  wholePercent (Spec.field entry "scorePercent") = true ->
  Spec.percentOf entry = ofZ (wholeOf entry) /\ (0 <= wholeOf entry <= 100)%Z.
Proof.
  unfold wholePercent, wholeOf, Spec.percentOf.
  destruct (Spec.field entry "scorePercent") as [| | | [| q | s] | | |]; try discriminate.
  rewrite !andb_true_iff, Qceqb_true, !Qcleb_true. intros [[Hwhole H0] H100].
  remember (Qfloor (this q)) as z eqn:Hz. clear Hz. subst q.
  split; [ reflexivity |].
  apply (proj1 (ZtoQc_le _ _)) in H0. apply (proj1 (ZtoQc_le _ _)) in H100. lia.
Qed.

Lemma kept_whole (entries : list JsValue) :
  forallb keptPercentWhole entries = true ->
  let kept := filter Spec.included entries in
  map Spec.percentOf kept = map ofZ (map wholeOf kept)
  /\ Forall (fun z => 0 <= z <= 100)%Z (map wholeOf kept).
Proof.
  rewrite forallb_forall. intros Hall. cbv zeta.
  induction entries as [| e entries IH]; [ split; [ reflexivity | constructor ] |].
  destruct IH as [IHmap IHrange]; [ intros x Hx; apply Hall; now right |].
  cbn [filter]. destruct (Spec.included e) eqn:Hkept; [| now split ].
  specialize (Hall e (or_introl eq_refl)). unfold keptPercentWhole in Hall.
  rewrite Hkept in Hall. cbn [negb orb] in Hall.
  destruct (wholePercent_ofZ e Hall) as [Hpercent Hrange].
  cbn [map]. split; [ now rewrite Hpercent, IHmap | now constructor ].
Qed.

Lemma fits_shorter {A B} (l : list A) (l' : list B) :
  (List.length l' <= List.length l)%nat -> fits l = true -> fits l' = true.
Proof.
  unfold fits. rewrite !Z.ltb_lt. lia.
Qed.

Lemma filter_shorter {A} (p : A -> bool) (l : list A) :
  (List.length (filter p l) <= List.length l)%nat.
Proof.
  induction l as [| x l IH]; cbn; [ lia |]. destruct (p x); cbn; lia.
Qed.

Lemma areaPercent_whole (entries : list JsValue) :
  forallb keptPercentWhole entries = true -> fits entries = true ->
  Spec.areaPercent entries
  = Binary64.round
      (Spec.exactMean (map ZtoQc (map wholeOf (filter Spec.included entries)))).
Proof.
  intros Hwhole Hfits. destruct (kept_whole entries Hwhole) as [Hmap Hrange].
  unfold Spec.areaPercent. rewrite Hmap. apply mean_of_integers; [ exact Hrange |].
  apply (fits_shorter entries); [| exact Hfits ].
  rewrite length_map. apply filter_shorter.
Qed.

(** X1: with whole percents the percent of an area does not depend on the
    order of its entries, with decimals it can.  Two areas whose entry
    lists are permutations of one another, fewer than [2^32] entries whose
    kept percents are whole numbers of 0..100, get the same [scorePercent]
    from [processAreaScore]: the exact mean, rounded once.  The percents
    67.1, 70.3 and 72.6 give the double below 70 in this order, which falls
    between two bands and reads 'failure', and 70 when the last two are
    swapped, which reads 'almost-success'. *)
Theorem X1_area_percent_ignores_the_order_of_whole_percents
    (rt : Runtime) (props props' : list (string * JsValue))
    (entries entries' : list JsValue)
    (Hentries : lookup "scoreEntries" props = Some (JArr entries))
    (Hentries' : lookup "scoreEntries" props' = Some (JArr entries'))
    (Htyped : forallb Spec.wellTypedEntry entries = true)
    (Hwhole : forallb keptPercentWhole entries = true)
    (Hfits : fits entries = true)
    (Hperm : Permutation entries entries') :
  (exists percent : number,
      bindC (processAreaScore rt (JObj props)) (fun result => Get result "scorePercent")
      = Normal (JNum percent)
      /\ bindC (processAreaScore rt (JObj props')) (fun result => Get result "scorePercent")
         = Normal (JNum percent)
      /\ percent
         = Binary64.round
             (Spec.exactMean (map ZtoQc (map wholeOf (filter Spec.included entries)))))
  /\ bindC (processAreaScore rt (Example.area 1 Example.decimalEntries))
       (fun result => getScoreSuccess rt (Spec.field result "scorePercent"))
     = Normal "failure"
  /\ bindC (processAreaScore rt (Example.area 1 Example.decimalEntriesSwapped))
       (fun result => getScoreSuccess rt (Spec.field result "scorePercent"))
     = Normal "almost-success"
  /\ Permutation Example.decimalEntries Example.decimalEntriesSwapped.
Proof.
  split.
  - assert (Htyped' := forallb_Permutation _ _ _ Hperm Htyped).
    assert (Hwhole' := forallb_Permutation _ _ _ Hperm Hwhole).
    assert (Hfits' : fits entries' = true).
    { apply (fits_shorter entries); [| exact Hfits ].
      now rewrite (Permutation_length Hperm). }
    exists (Spec.areaPercent entries).
    rewrite (processAreaScore_mean rt props entries Hentries Htyped).
    rewrite (processAreaScore_mean rt props' entries' Hentries' Htyped').
    cbn [bindC Get lookup String.eqb Ascii.eqb Bool.eqb].
    rewrite (areaPercent_whole entries Hwhole Hfits).
    rewrite (areaPercent_whole entries' Hwhole' Hfits').
    split; [ reflexivity |]. split; [| reflexivity ].
    do 3 f_equal. symmetry.
    apply exactMean_Permutation, Permutation_map, Permutation_map, filter_Permutation, Hperm.
  - split; [| split ].
    + unfold Example.area.
      rewrite (processAreaScore_mean rt (Example.areaProps 1 Example.decimalEntries)
                 Example.decimalEntries eq_refl eq_refl).
      cbn [bindC]. unfold getScoreSuccess. cbn [Spec.field lookup String.eqb Ascii.eqb Bool.eqb].
      rewrite firstInRange_number. vm_compute. reflexivity.
    + unfold Example.area.
      rewrite (processAreaScore_mean rt (Example.areaProps 1 Example.decimalEntriesSwapped)
                 Example.decimalEntriesSwapped eq_refl eq_refl).
      cbn [bindC]. unfold getScoreSuccess. cbn [Spec.field lookup String.eqb Ascii.eqb Bool.eqb].
      rewrite firstInRange_number. vm_compute. reflexivity.
    + unfold Example.decimalEntries, Example.decimalEntriesSwapped.
      apply perm_skip, perm_swap.
Qed.

(** The five entries of the examples, and the same in the reverse order. *)
Lemma X1_witness :
  exists percent : number,
    bindC (processAreaScore Reference.runtime (Example.area 1 Example.mixedEntries))
      (fun result => Get result "scorePercent")
    = Normal (JNum percent)
    /\ bindC (processAreaScore Reference.runtime (Example.area 2 (rev Example.mixedEntries)))
         (fun result => Get result "scorePercent")
       = Normal (JNum percent)
    /\ percent = ofZ 60.
Proof.
  destruct (X1_area_percent_ignores_the_order_of_whole_percents Reference.runtime
              (Example.areaProps 1 Example.mixedEntries)
              (Example.areaProps 2 (rev Example.mixedEntries))
              Example.mixedEntries (rev Example.mixedEntries)
              eq_refl eq_refl eq_refl eq_refl eq_refl (Permutation_rev Example.mixedEntries))
    as [(percent & H1 & H2 & Hpercent) _].
  exists percent. split; [ exact H1 |]. split; [ exact H2 |].
  rewrite Hpercent. vm_compute. reflexivity.
Defined.

Lemma lookup_app (k : string) (before after : list (string * JsValue)) :
  lookup k (before ++ after)
  = match lookup k before with Some x => Some x | None => lookup k after end.
Proof.
  induction before as [| [k' x] before IH]; cbn; [ reflexivity |].
  destruct (String.eqb k k'); [ reflexivity | exact IH ].
Qed.

Lemma field_replaced (before after : list (string * JsValue)) (k0 k : string)
    (v v' : JsValue) :
  String.eqb k k0 = false ->
  Spec.field (JObj (before ++ (k0, v) :: after)) k
  = Spec.field (JObj (before ++ (k0, v') :: after)) k.
Proof.
  intros Hk. unfold Spec.field. rewrite !lookup_app. cbn [lookup]. now rewrite Hk.
Qed.

Lemma field_placed (before after : list (string * JsValue)) (k : string) (v : JsValue) :
  lookup k before = None ->
  Spec.field (JObj (before ++ (k, v) :: after)) k = v.
Proof.
  intros Hk. unfold Spec.field. rewrite lookup_app, Hk. cbn [lookup].
  now rewrite String.eqb_refl.
Qed.

(** X2: permuting the areas of a structurally valid record permutes the
    area summaries of the output, each of which is computed from its own
    area, and leaves the entity reference, the timestamp, the reviewer and
    the review date as they are.  The overall percent, label and category
    are those of the new order: the mean adds up the area percents, which
    are doubles, from the first to the last, and it can change with the
    order.  The areas that average to 47.5, 26.666666666666668 and
    83.33333333333333 give the overall percent 53 in this order and 52 when
    the last two are swapped. *)
Theorem X2_permuting_the_areas_permutes_the_summaries
    (rt : Runtime) (before after : list (string * JsValue)) (areas areas' : list JsValue)
    (Hbefore : lookup "areaScores" before = None)
    (Hwf : Spec.wellFormedRecord (JObj (before ++ ("areaScores", JArr areas) :: after)) = true)
    (Hperm : Permutation areas areas') :
  (exists front back,
      processEntityFile rt (JObj (before ++ ("areaScores", JArr areas) :: after))
      = Normal (JObj (front ++ overallFieldsOf areas ++ back
                      ++ [ ("areaScores", JArr (map areaSummaryOf areas)) ]))
      /\ processEntityFile rt (JObj (before ++ ("areaScores", JArr areas') :: after))
         = Normal (JObj (front ++ overallFieldsOf areas' ++ back
                         ++ [ ("areaScores", JArr (map areaSummaryOf areas')) ]))
      /\ keys front = [ "entityRef"; "generatedDateTimeUtc" ]
      /\ lookup "areaScores" back = None)
  /\ Permutation (map areaSummaryOf areas) (map areaSummaryOf areas')
  /\ bindC (processEntityFile rt (Example.record Example.threeAreas))
       (fun output => Get output "scorePercent")
     = Normal (Example.num 53)
  /\ bindC (processEntityFile rt (Example.record Example.threeAreasSwapped))
       (fun output => Get output "scorePercent")
     = Normal (Example.num 52)
  /\ Permutation Example.threeAreas Example.threeAreasSwapped.
Proof.
  split; [| split; [ now apply Permutation_map | split; [| split ] ] ].
  - set (data := JObj (before ++ ("areaScores", JArr areas) :: after)) in *.
    set (data' := JObj (before ++ ("areaScores", JArr areas') :: after)).
    assert (Hareas : Spec.areasOf data = areas).
    { unfold Spec.areasOf, data. now rewrite field_placed. }
    assert (Hareas' : Spec.areasOf data' = areas').
    { unfold Spec.areasOf, data'. now rewrite field_placed. }
    assert (Hsame : forall k, String.eqb k "areaScores" = false ->
                              Spec.field data' k = Spec.field data k).
    { intros k Hk. now apply field_replaced. }
    assert (Hwf' : Spec.wellFormedRecord data' = true).
    { unfold Spec.wellFormedRecord in *. rewrite andb_true_iff in *.
      destruct Hwf as [Href Hformed]. split.
      - now rewrite Hsame.
      - unfold Spec.areasWellFormed in *. unfold data' at 1. unfold data at 1 in Hformed.
        unfold data in Hformed. unfold data'. rewrite field_placed in * by assumption.
        exact (forallb_Permutation _ _ _ Hperm Hformed). }
    rewrite (processEntityFile_wellFormed rt data Hwf).
    rewrite (processEntityFile_wellFormed rt data' Hwf').
    cbv zeta. rewrite Hareas, Hareas', !Hsame by reflexivity.
    eexists [ _; _ ],
      (spreadIf (truthy (Spec.field data "scoringReviewer")) "scoringReviewer"
         (Spec.field data "scoringReviewer")
       ++ spreadIf (truthy (Spec.field data "scoringReviewDate")) "scoringReviewDate"
            (Spec.field data "scoringReviewDate")).
    unfold overallFieldsOf. cbn [app]. rewrite <- !app_assoc.
    split; [ reflexivity |]. split; [ reflexivity |]. split; [ reflexivity |].
    unfold spreadIf.
    destruct (truthy (Spec.field data "scoringReviewer")),
             (truthy (Spec.field data "scoringReviewDate")); reflexivity.
  - rewrite (processEntityFile_wellFormed rt _ (eq_refl : Spec.wellFormedRecord
               (Example.record Example.threeAreas) = true)).
    vm_compute. reflexivity.
  - rewrite (processEntityFile_wellFormed rt _ (eq_refl : Spec.wellFormedRecord
               (Example.record Example.threeAreasSwapped) = true)).
    vm_compute. reflexivity.
  - unfold Example.threeAreas, Example.threeAreasSwapped. apply perm_skip, perm_swap.
Qed.

(** Two areas, and the two the other way round. *)
Lemma X2_witness :
  Permutation
    (map areaSummaryOf
       [ Example.area 1 Example.mixedEntries;
         Example.area 2 [ Example.entry 1 (Example.num 90) "success" ] ])
    (map areaSummaryOf
       [ Example.area 2 [ Example.entry 1 (Example.num 90) "success" ];
         Example.area 1 Example.mixedEntries ]).
Proof.
  exact (proj1 (proj2 (X2_permuting_the_areas_permutes_the_summaries Reference.runtime
           [ ("entityRef", Example.entityRef);
             ("generatedDateTimeUtc", JStr "2024-01-15T10:30:00Z") ] []
           [ Example.area 1 Example.mixedEntries;
             Example.area 2 [ Example.entry 1 (Example.num 90) "success" ] ]
           [ Example.area 2 [ Example.entry 1 (Example.num 90) "success" ];
             Example.area 1 Example.mixedEntries ]
           eq_refl eq_refl (perm_swap _ _ [])))).
Defined.

(** ** Percents within bounds *)

Lemma sum_within (l : list number) (a : Qc) (k : Z) :
  (ZtoQc 0 <= a)%Qc -> (a <= ZtoQc (100 * k))%Qc ->
  (100 * (k + Z.of_nat (List.length l)) < 2 ^ 53)%Z ->
  (forall x, In x l -> isPercent x) ->
  exists s : Qc,
    fold_left numAdd l (Fin a) = Fin s
    /\ (ZtoQc 0 <= s)%Qc /\ (s <= ZtoQc (100 * (k + Z.of_nat (List.length l))))%Qc.
Proof.
  revert a k. induction l as [| x l IH]; intros a k Ha0 Hak Hsize Hall.
  - exists a. cbn [fold_left List.length]. rewrite Z.add_0_r. now repeat split.
  - destruct (Hall x (or_introl eq_refl)) as (q & -> & Hq0 & Hq100).
    cbn [fold_left numAdd]. cbn [List.length] in Hsize |- *.
    rewrite Nat2Z.inj_succ in Hsize |- *.
    destruct (round_between (a + q)%Qc (100 * (k + 1))) as (r & Hr & Hr0 & Hrk).
    + change (ZtoQc 0) with (ZtoQc 0 + ZtoQc 0)%Qc. now apply Qcplus_le_compat.
    + replace (100 * (k + 1))%Z with (100 * k + 100)%Z by ring.
      rewrite <- ZtoQc_plus. now apply Qcplus_le_compat.
    + lia.
    + rewrite Hr.
      destruct (IH r (k + 1)%Z Hr0 Hrk) as (s & Hs & Hs0 & Hsk).
      * lia.
      * intros y Hy. apply Hall. now right.
      * exists s. split; [ exact Hs |]. split; [ exact Hs0 |].
        now replace (k + Z.succ (Z.of_nat (List.length l)))%Z
          with (k + 1 + Z.of_nat (List.length l))%Z by lia.
Qed.

Lemma mean_percent (l : list number) :
  fits l = true -> (forall x, In x l -> isPercent x) -> isPercent (Spec.mean l).
Proof.
  intros Hfits Hall. unfold fits in Hfits. apply Z.ltb_lt in Hfits.
  destruct l as [| x l].
  - exists (ZtoQc 0). split; [ reflexivity |]. split; apply Qcleb_true; reflexivity.
  - unfold Spec.mean, Spec.sum.
    destruct (sum_within (x :: l) (ZtoQc 0) 0) as (s & Hs & Hs0 & Hsn).
    + apply Qcle_refl.
    + apply Qcle_refl.
    + change (2 ^ 53)%Z with 9007199254740992%Z.
      change (2 ^ 32)%Z with 4294967296%Z in Hfits. lia.
    + exact Hall.
    + change (ofZ 0) with (Fin (ZtoQc 0)). rewrite Hs.
      set (n := List.length (x :: l)) in *.
      assert (Hn : (0 < Z.of_nat n)%Z) by (subst n; cbn [List.length]; lia).
      unfold ofNat, ofZ. cbn [numDiv].
      assert (Hzero : isZero (Q2Qc (inject_Z (Z.of_nat n))) = false).
      { subst n. cbn [List.length]. apply isZero_count. }
      rewrite Hzero.
      assert (Hpos : (ZtoQc 0 < ZtoQc (Z.of_nat n))%Qc) by (apply ZtoQc_lt; lia).
      change (Q2Qc (inject_Z (Z.of_nat n))) with (ZtoQc (Z.of_nat n)).
      assert (Hback : (s / ZtoQc (Z.of_nat n) * ZtoQc (Z.of_nat n))%Qc = s).
      { rewrite Qcmult_comm. apply Qcmult_div_r. intros H. rewrite H in Hpos.
        exact (Qclt_not_eq _ _ Hpos eq_refl). }
      destruct (round_between (s / ZtoQc (Z.of_nat n))%Qc 100) as (r & Hr & Hr0 & Hr100).
      * apply (Qcmult_lt_0_le_reg_r _ _ _ Hpos). rewrite Hback.
        change (ZtoQc 0) with (Q2Qc 0). now rewrite Qcmult_0_l.
      * apply (Qcmult_lt_0_le_reg_r _ _ _ Hpos). rewrite Hback.
        rewrite Z.add_0_l in Hsn.
        replace (ZtoQc (100 * Z.of_nat n)) with (ZtoQc 100 * ZtoQc (Z.of_nat n))%Qc in Hsn;
          [ exact Hsn |].
        apply Qc_is_canon. unfold ZtoQc. cbn [this Qcmult Q2Qc].
        rewrite !Qred_correct. now rewrite inject_Z_mult.
      * reflexivity.
      * exists r. now repeat split.
Qed.

Lemma roundZ_percent (q : Qc) :
  (ZtoQc 0 <= q)%Qc -> (q <= ZtoQc 100)%Qc -> (0 <= roundZ q <= 100)%Z.
Proof.
  intros Hlo Hhi. unfold roundZ. split.
  - change 0%Z with (Qfloor (this (ZtoQc 0) + (1 # 2))).
    apply Qfloor_resp_le. apply Qplus_le_l. exact Hlo.
  - change 100%Z with (Qfloor (this (ZtoQc 100) + (1 # 2))).
    apply Qfloor_resp_le. apply Qplus_le_l. exact Hhi.
Qed.

Lemma MathRound_percent (n : number) :
  isPercent n -> exists z, MathRound n = ofZ z /\ (0 <= z <= 100)%Z.
Proof.
  intros (q & -> & H0 & H100). exists (roundZ q). split; [ reflexivity |].
  now apply roundZ_percent.
Qed.

Lemma areaPercent_percent (area : JsValue) :
  fits (Spec.entriesOf area) = true ->
  keptPercentsInRange area = true ->
  isPercent (Spec.areaPercent (Spec.entriesOf area)).
Proof.
  unfold keptPercentsInRange. rewrite forallb_forall. intros Hfits Hall.
  unfold Spec.areaPercent. apply mean_percent.
  - apply (fits_shorter (Spec.entriesOf area)); [| exact Hfits ].
    rewrite length_map. apply filter_shorter.
  - intros x Hx.
    apply in_map_iff in Hx. destruct Hx as (e & <- & He).
    apply filter_In in He. destruct He as [He Hkept].
    specialize (Hall e He). rewrite Hkept in Hall. cbn in Hall.
    unfold Spec.percentInRange, Spec.percentOf in *.
    destruct (Spec.field e "scorePercent") as [| | | [| q | s] | | |]; try discriminate.
    apply andb_true_iff in Hall. destruct Hall as [H0 H100].
    exists q. split; [ reflexivity |]. split; now apply Qcleb_true.
Qed.

Lemma aggregatedOverall_percent (areas : list JsValue) :
  fits areas = true ->
  forallb (fun area => fits (Spec.entriesOf area)) areas = true ->
  forallb keptPercentsInRange areas = true ->
  isPercent (Spec.aggregatedOverall areas).
Proof.
  rewrite !forallb_forall. intros Hfits Hfit Hall.
  unfold Spec.aggregatedOverall, Spec.overallPercent. apply mean_percent.
  - apply (fits_shorter areas); [| exact Hfits ].
    rewrite <- (length_map (fun area => Spec.areaPercent (Spec.entriesOf area)) areas).
    apply filter_shorter.
  - intros x Hx. apply filter_In in Hx. destruct Hx as [Hx _].
    apply in_map_iff in Hx. destruct Hx as (a & <- & Ha).
    apply areaPercent_percent; [ now apply Hfit | now apply Hall ].
Qed.

Lemma processEntityFile_percents (rt : Runtime) (data : JsValue) :
  Spec.wellFormedRecord data = true ->
  arraysFit data = true ->
  forallb keptPercentsInRange (Spec.areasOf data) = true ->
  exists (output : JsValue) (z : Z) (summaries : list JsValue),
    processEntityFile rt data = Normal output
    /\ Spec.field output "scorePercent" = JNum (ofZ z)
    /\ (0 <= z <= 100)%Z
    /\ Spec.field output "areaScores" = JArr summaries
    /\ List.length summaries = List.length (Spec.areasOf data)
    /\ Forall (fun summary =>
                 exists z', Spec.field summary "scorePercent" = JNum (ofZ z')
                            /\ (0 <= z' <= 100)%Z) summaries.
Proof.
  intros Hwf Hfits Hrange.
  unfold arraysFit in Hfits. apply andb_true_iff in Hfits. destruct Hfits as [Hfits Hfit].
  rewrite (processEntityFile_wellFormed rt data Hwf). cbv zeta.
  destruct (MathRound_percent _
              (aggregatedOverall_percent (Spec.areasOf data) Hfits Hfit Hrange))
    as (z & Hz & Hz100).
  eexists. exists z, (map areaSummaryOf (Spec.areasOf data)).
  split; [ reflexivity |].
  split; [ cbn; now rewrite Hz |].
  split; [ exact Hz100 |].
  split.
  { unfold spreadIf.
    destruct (truthy (Spec.field data "scoringReviewer")),
             (truthy (Spec.field data "scoringReviewDate")); reflexivity. }
  split; [ apply length_map |].
  apply Forall_forall. intros s Hs. apply in_map_iff in Hs. destruct Hs as (a & <- & Ha).
  rewrite forallb_forall in Hrange, Hfit.
  destruct (MathRound_percent _ (areaPercent_percent a (Hfit a Ha) (Hrange a Ha)))
    as (z' & Hz' & Hz'100).
  exists z'. split; [| exact Hz'100 ].
  unfold areaSummaryOf. cbn. now rewrite Hz'.
Qed.

(** X3: for a structurally valid record whose kept entries all carry a
    percent of [0,100], and whose arrays have fewer than [2^32] elements as
    every array of the engine has, [processEntityFile] returns, and the overall
    [scorePercent] of the output and the [scorePercent] of every area
    summary are whole numbers of 0..100; there is one summary for each
    area. *)
Theorem X3_output_percents_are_whole_numbers_of_0_to_100
    (rt : Runtime) (data : JsValue)
    (Hwf : Spec.wellFormedRecord data = true)
    (Hfits : arraysFit data = true)
    (Hrange : forallb keptPercentsInRange (Spec.areasOf data) = true) :
  exists (output : JsValue) (z : Z) (summaries : list JsValue),
    processEntityFile rt data = Normal output
    /\ Spec.field output "scorePercent" = JNum (ofZ z)
    /\ (0 <= z <= 100)%Z
    /\ Spec.field output "areaScores" = JArr summaries
    /\ List.length summaries = List.length (Spec.areasOf data)
    /\ Forall (fun summary =>
                 exists z', Spec.field summary "scorePercent" = JNum (ofZ z')
                            /\ (0 <= z' <= 100)%Z) summaries.
Proof. exact (processEntityFile_percents rt data Hwf Hfits Hrange). Qed.

(** The reviewed record of the examples. *)
Lemma X3_witness :
  exists (output : JsValue) (z : Z) (summaries : list JsValue),
    processEntityFile Reference.runtime Example.reviewedRecord = Normal output
    /\ Spec.field output "scorePercent" = JNum (ofZ z)
    /\ (0 <= z <= 100)%Z
    /\ Spec.field output "areaScores" = JArr summaries
    /\ List.length summaries = List.length (Spec.areasOf Example.reviewedRecord)
    /\ Forall (fun summary =>
                 exists z', Spec.field summary "scorePercent" = JNum (ofZ z')
                            /\ (0 <= z' <= 100)%Z) summaries.
Proof.
  exact (X3_output_percents_are_whole_numbers_of_0_to_100 Reference.runtime
           Example.reviewedRecord eq_refl eq_refl eq_refl).
Defined.

(** ** What the aggregator throws *)

Lemma JsValue_deep_ind (P : JsValue -> Prop) :
  P JUndefined -> P JNull -> (forall b, P (JBool b)) -> (forall n, P (JNum n)) ->
  (forall s, P (JStr s)) ->
  (forall elems, Forall P elems -> P (JArr elems)) ->
  (forall props, P (JObj props)) ->
  forall v, P v.
Proof.
  intros Hundefined Hnull Hbool Hnum Hstr Harr Hobj.
  fix IH 1.
  intros [| | b | n | s | elems | props];
    [ exact Hundefined | exact Hnull | apply Hbool | apply Hnum | apply Hstr
    | | apply Hobj ].
  apply Harr. induction elems as [| x elems IHelems]; constructor;
    [ apply IH | exact IHelems ].
Qed.

Lemma typeErrors_normal {A} (a : A) : throwsTypeErrorOnly (Normal a).
Proof. intros e H. discriminate. Qed.

Lemma typeErrors_throw {A} : throwsTypeErrorOnly (@Throw A TypeError).
Proof. intros e H. now injection H as <-. Qed.

Lemma typeErrors_bind {A B} (m : completion A) (f : A -> completion B) :
  throwsTypeErrorOnly m -> (forall a, throwsTypeErrorOnly (f a)) ->
  throwsTypeErrorOnly (bindC m f).
Proof.
  intros Hm Hf e. destruct m as [a | e']; cbn.
  - apply Hf.
  - intros H. injection H as <-. now apply Hm.
Qed.

Lemma typeErrors_Get (v : JsValue) (k : string) : throwsTypeErrorOnly (Get v k).
Proof.
  destruct v; cbn; try apply typeErrors_normal; try apply typeErrors_throw.
  destruct (lookup k props); apply typeErrors_normal.
Qed.

Lemma typeErrors_arrayOf (v : JsValue) : throwsTypeErrorOnly (arrayOf v).
Proof. destruct v; cbn; try apply typeErrors_normal; apply typeErrors_throw. Qed.

Lemma typeErrors_ToString (rt : Runtime) (v : JsValue) :
  throwsTypeErrorOnly (ToString rt v).
Proof.
  induction v as [| | [|] | n | s | elems IH | props] using JsValue_deep_ind;
    try apply typeErrors_normal.
  - cbn [ToString]. induction IH as [| x elems Hx _ IHelems]; [ apply typeErrors_normal |].
    apply typeErrors_bind.
    + destruct x; try apply typeErrors_normal; exact Hx.
    + intros s. destruct elems; [ apply typeErrors_normal |].
      apply typeErrors_bind; [ exact IHelems | intros r; apply typeErrors_normal ].
  - cbn [ToString]. destruct (hasKey "toString" props);
      [ apply typeErrors_throw | apply typeErrors_normal ].
Qed.

Lemma typeErrors_mapC {A B} (f : A -> completion B) (l : list A) :
  (forall x, throwsTypeErrorOnly (f x)) -> throwsTypeErrorOnly (mapC f l).
Proof.
  intros Hf. induction l as [| x l IH]; cbn [mapC]; [ apply typeErrors_normal |].
  apply typeErrors_bind; [ apply Hf | intros y ].
  apply typeErrors_bind; [ exact IH | intros ys; apply typeErrors_normal ].
Qed.

Lemma typeErrors_filterC {A} (p : A -> completion bool) (l : list A) :
  (forall x, throwsTypeErrorOnly (p x)) -> throwsTypeErrorOnly (filterC p l).
Proof.
  intros Hp. induction l as [| x l IH]; cbn [filterC]; [ apply typeErrors_normal |].
  apply typeErrors_bind; [ apply Hp | intros b ].
  apply typeErrors_bind; [ exact IH | intros ys; apply typeErrors_normal ].
Qed.

Lemma typeErrors_reduceC {A B} (f : B -> A -> completion B) (l : list A) (acc : B) :
  (forall acc x, throwsTypeErrorOnly (f acc x)) -> throwsTypeErrorOnly (reduceC f l acc).
Proof.
  intros Hf. revert acc. induction l as [| x l IH]; intros acc; cbn [reduceC];
    [ apply typeErrors_normal |].
  apply typeErrors_bind; [ apply Hf | intros acc'; apply IH ].
Qed.

Ltac typeErrors_step :=
  first
    [ apply typeErrors_normal
    | apply typeErrors_throw
    | apply typeErrors_Get
    | apply typeErrors_arrayOf
    | apply typeErrors_ToString
    | apply typeErrors_mapC; intros ?
    | apply typeErrors_filterC; intros ?
    | apply typeErrors_reduceC; intros ? ?
    | apply typeErrors_bind; [| intros ? ]
    | match goal with
      | |- throwsTypeErrorOnly (if ?b then _ else _) => destruct b
      | |- throwsTypeErrorOnly (match ?x with _ => _ end) => destruct x
      end ].

Section AggregatorThrows.

Variable rt : Runtime.

Lemma typeErrors_ToPrimitive (v : JsValue) : throwsTypeErrorOnly (ToPrimitive rt v).
Proof. unfold ToPrimitive. destruct v; repeat typeErrors_step. Qed.

Lemma typeErrors_ToNumber (v : JsValue) : throwsTypeErrorOnly (ToNumber rt v).
Proof. unfold ToNumber. destruct v; repeat typeErrors_step. Qed.

Lemma typeErrors_jsAdd (a b : JsValue) : throwsTypeErrorOnly (jsAdd rt a b).
Proof.
  unfold jsAdd.
  apply typeErrors_bind; [ apply typeErrors_ToPrimitive | intros pa ].
  apply typeErrors_bind; [ apply typeErrors_ToPrimitive | intros pb ].
  destruct pa, pb;
    repeat first [ apply typeErrors_ToNumber | typeErrors_step ].
Qed.

Lemma typeErrors_jsDiv (a b : JsValue) : throwsTypeErrorOnly (jsDiv rt a b).
Proof. unfold jsDiv. repeat first [ apply typeErrors_ToNumber | typeErrors_step ]. Qed.

Lemma typeErrors_firstInRange (table : list (string * range)) (percent : JsValue)
    (fallback : string) :
  throwsTypeErrorOnly (firstInRange rt table percent fallback).
Proof.
  induction table as [| [name r] table IH]; cbn [firstInRange]; [ apply typeErrors_normal |].
  unfold jsGe, jsLe.
  repeat first [ exact IH | apply typeErrors_ToNumber | typeErrors_step ].
Qed.

Lemma typeErrors_sumScorePercent (l : list JsValue) :
  throwsTypeErrorOnly (sumScorePercent rt l).
Proof. unfold sumScorePercent. repeat first [ apply typeErrors_jsAdd | typeErrors_step ]. Qed.

Lemma typeErrors_processAreaScore (area : JsValue) :
  throwsTypeErrorOnly (processAreaScore rt area).
Proof.
  unfold processAreaScore, isScoredEntry.
  repeat first [ apply typeErrors_sumScorePercent | apply typeErrors_jsDiv | typeErrors_step ].
Qed.

Lemma typeErrors_calculateOverallScore (areas : list JsValue) :
  throwsTypeErrorOnly (calculateOverallScore rt areas).
Proof.
  unfold calculateOverallScore, jsGt.
  repeat first [ apply typeErrors_sumScorePercent | apply typeErrors_jsDiv
               | apply typeErrors_ToNumber | typeErrors_step ].
Qed.

Lemma typeErrors_areaSummary (area : JsValue) : throwsTypeErrorOnly (areaSummary rt area).
Proof.
  unfold areaSummary, jsMathRound, getScoreLabel, getScoreSuccess.
  repeat first [ apply typeErrors_firstInRange | apply typeErrors_ToNumber | typeErrors_step ].
Qed.

End AggregatorThrows.

(** X4: [processEntityFile] throws its own error, "Invalid entity score
    structure", exactly when the parsed value is neither [null] nor
    [undefined] and its [entityRef] or its [areaScores] is falsy (missing,
    [null], 0, [false], the empty string).  Whatever else it throws is a
    [TypeError] of the engine: so on [null], and on a truthy [areaScores]
    that is not an array.  An empty array is truthy: no area is no error. *)
Theorem X4_invalid_structure_is_the_only_error_of_the_aggregator
    (rt : Runtime) (data : JsValue) :
  (forall message,
      processEntityFile rt data = Throw (Error message)
      <-> message = "Invalid entity score structure"
          /\ Spec.present data = true
          /\ (truthy (Spec.field data "entityRef") = false
              \/ truthy (Spec.field data "areaScores") = false))
  /\ (Spec.present data = false -> processEntityFile rt data = Throw TypeError)
  /\ (truthy (Spec.field data "areaScores") = true ->
      isArray (Spec.field data "areaScores") = false ->
      truthy (Spec.field data "entityRef") = true ->
      processEntityFile rt data = Throw TypeError).
Proof.
  split; [| split ].
  - intros message. unfold processEntityFile.
    destruct (Spec.present data) eqn:Hpresent.
    + assert (Hget : forall k, Get data k = Normal (Spec.field data k)).
      { intros k. destruct data; try discriminate; try reflexivity. apply Get_object. }
      rewrite !Hget. cbn [bindC].
      destruct (truthy (Spec.field data "entityRef")); cbn [negb].
      * destruct (truthy (Spec.field data "areaScores")); cbn [negb].
        -- split.
           ++ intros H. exfalso.
              assert (Htype : throwsTypeErrorOnly
                                (@Throw JsValue (Error message))).
              { rewrite <- H.
                unfold jsMathRound, getScoreLabel, getScoreSuccess.
                repeat first [ apply typeErrors_processAreaScore
                             | apply typeErrors_calculateOverallScore
                             | apply typeErrors_areaSummary
                             | apply typeErrors_firstInRange
                             | apply typeErrors_ToNumber
                             | typeErrors_step ]. }
              specialize (Htype _ eq_refl). discriminate.
           ++ intros (_ & _ & [H | H]); discriminate.
        -- split.
           ++ intros H. injection H as <-. auto.
           ++ intros (-> & _). reflexivity.
      * split.
        -- intros H. injection H as <-. auto.
        -- intros (-> & _). reflexivity.
    + split.
      * destruct data; discriminate.
      * intros (_ & H & _). discriminate.
  - destruct data; try discriminate; reflexivity.
  - intros Htruthy Harray Href. unfold processEntityFile.
    rewrite !(Get_truthy data) by
      (destruct data; try discriminate; reflexivity).
    cbn [bindC]. rewrite Href, Htruthy. cbn [negb].
    destruct (Spec.field data "areaScores"); try discriminate; reflexivity.
Qed.

(** ** Records on which validation returns *)

Lemma reports_ret {A} (a : A) : reports (retV a) [] a.
Proof. intros this. exists []. unfold retV. rewrite !app_nil_r. now destruct this. Qed.

Lemma reports_lift {A} (c : completion A) (a : A) : c = Normal a -> reports (liftV c) [] a.
Proof. intros ->. apply reports_ret. Qed.

Lemma reports_addError (message : string) :
  reports (addError message) (errorIf true message) tt.
Proof. intros this. exists []. unfold addError. cbn. now rewrite app_nil_r. Qed.

Lemma reports_addWarning (message : string) : reports (addWarning message) [] tt.
Proof. intros this. eexists. unfold addWarning. now rewrite app_nil_r. Qed.

Lemma reports_bind {A B} (m : V A) (f : A -> V B) (es es' : list string) (a : A) (b : B) :
  reports m es a -> reports (f a) es' b -> reports (bindV m f) (es ++ es') b.
Proof.
  intros Hm Hf this. destruct (Hm this) as [ws Hws].
  destruct (Hf {| errors := errors this ++ es; warnings := warnings this ++ ws |})
    as [ws' Hws'].
  exists (ws ++ ws'). unfold bindV. rewrite Hws, Hws'. cbn. now rewrite !app_assoc.
Qed.

Lemma reports_when (b : bool) (m : V unit) (es : list string) :
  reports m es tt -> reports (when b m) (if b then es else []) tt.
Proof. destruct b; [ auto | intros _; apply reports_ret ]. Qed.

Lemma reports_forEach {A} (f : A -> nat -> V unit) (E : nat -> A -> list string)
    (l : list A) (i : nat) :
  (forall x j, In x l -> reports (f x j) (E j x) tt) ->
  reports (forEachV f l i) (flat_mapi E l i) tt.
Proof.
  revert i. induction l as [| x l IH]; intros i Hf; cbn [forEachV flat_mapi].
  - apply reports_ret.
  - apply reports_bind with (a := tt).
    + apply Hf. now left.
    + apply IH. intros y j Hy. apply Hf. now right.
Qed.

Lemma reports_validateRequired (obj : JsValue) (fields : list string) :
  Spec.isObject obj = true ->
  reports (validateRequired obj fields) (missingFieldErrors obj fields) tt.
Proof.
  intros Hobj this. exists []. rewrite (validateRequired_object obj fields this Hobj).
  unfold withErrors. now rewrite app_nil_r.
Qed.

Lemma reports_app_nil_r {A} (m : V A) (es : list string) (a : A) :
  reports m (es ++ []) a -> reports m es a.
Proof. now rewrite app_nil_r. Qed.

Section Returns.

Variable rt : Runtime.

Lemma ToString_printable (v : JsValue) :
  printable v = true -> exists s, ToString rt v = Normal s.
Proof.
  induction v as [| | [|] | n | s | elems IH | props] using JsValue_deep_ind;
    intros Hv; try (eexists; reflexivity).
  - cbn [ToString]. cbn [printable] in Hv.
    induction IH as [| x elems Hx _ IHelems]; [ eexists; reflexivity |].
    cbn [forallb] in Hv. apply andb_true_iff in Hv. destruct Hv as [Hpx Hrest].
    destruct (IHelems Hrest) as [r Hr].
    assert (Hhead : exists s, match x with
                              | JUndefined | JNull => Normal ""
                              | _ => ToString rt x
                              end = Normal s).
    { destruct x; try (eexists; reflexivity); now apply Hx. }
    destruct Hhead as [s Hs]. rewrite Hs. cbn [bindC].
    destruct elems; [ eexists; reflexivity |].
    rewrite Hr. eexists; reflexivity.
  - cbn [ToString]. cbn [printable] in Hv. apply negb_true_iff in Hv. rewrite Hv.
    eexists; reflexivity.
Qed.

Lemma ToNumber_printable (v : JsValue) :
  printable v = true -> exists n, ToNumber rt v = Normal n.
Proof.
  intros Hv. destruct (ToString_printable v Hv) as [s Hs].
  unfold ToNumber. destruct v as [| | [|] | | | |]; try (eexists; reflexivity);
    rewrite Hs; eexists; reflexivity.
Qed.

Lemma isPrimitive_printable (v : JsValue) : isPrimitive v = true -> printable v = true.
Proof. destruct v; try discriminate; reflexivity. Qed.

Lemma ToPrimitive_printable (v : JsValue) :
  printable v = true -> exists p, ToPrimitive rt v = Normal p /\ isPrimitive p = true.
Proof.
  intros Hv. destruct (ToString_printable v Hv) as [s Hs].
  unfold ToPrimitive. destruct v; try (eexists; split; reflexivity);
    rewrite Hs; eexists; split; reflexivity.
Qed.

Lemma jsAdd_printable (a b : JsValue) :
  printable a = true -> printable b = true ->
  exists r, jsAdd rt a b = Normal r /\ isPrimitive r = true.
Proof.
  intros Ha Hb. unfold jsAdd.
  destruct (ToPrimitive_printable a Ha) as (pa & -> & Hpa).
  destruct (ToPrimitive_printable b Hb) as (pb & -> & Hpb). cbn [bindC].
  destruct (ToString_printable pa (isPrimitive_printable pa Hpa)) as [sa Hsa].
  destruct (ToString_printable pb (isPrimitive_printable pb Hpb)) as [sb Hsb].
  destruct (ToNumber_printable pa (isPrimitive_printable pa Hpa)) as [na Hna].
  destruct (ToNumber_printable pb (isPrimitive_printable pb Hpb)) as [nb Hnb].
  destruct pa, pb; try discriminate;
    rewrite ?Hsa, ?Hsb, ?Hna, ?Hnb; cbn [bindC]; eexists; split; reflexivity.
Qed.

Lemma jsDiv_printable (a b : JsValue) :
  printable a = true -> printable b = true -> exists n, jsDiv rt a b = Normal n.
Proof.
  intros Ha Hb. unfold jsDiv.
  destruct (ToNumber_printable a Ha) as [na ->].
  destruct (ToNumber_printable b Hb) as [nb ->]. eexists; reflexivity.
Qed.

Lemma jsSub_printable (a b : JsValue) :
  printable a = true -> printable b = true -> exists n, jsSub rt a b = Normal n.
Proof.
  intros Ha Hb. unfold jsSub.
  destruct (ToNumber_printable a Ha) as [na ->].
  destruct (ToNumber_printable b Hb) as [nb ->]. eexists; reflexivity.
Qed.

Lemma firstInRange_printable (table : list (string * range)) (percent : JsValue)
    (fallback : string) :
  printable percent = true ->
  exists name, firstInRange rt table percent fallback = Normal name.
Proof.
  intros Hp. destruct (ToNumber_printable percent Hp) as [n Hn].
  induction table as [| [name r] table IH]; cbn [firstInRange]; [ eexists; reflexivity |].
  unfold jsGe, jsLe. rewrite Hn. cbn [bindC].
  destruct (numGe n (ofZ (min r))); [| exact IH ].
  destruct (numLe n (ofZ (max r))); [ eexists; reflexivity | exact IH ].
Qed.

Lemma reports_entryWarningChecks (entry : JsValue) (prefix : string) :
  quietEntry entry = true ->
  reports (entryWarningChecks rt entry prefix (Spec.field entry "scorePercent")
             (Spec.field entry "scoreSuccess")) [] tt.
Proof.
  unfold quietEntry. rewrite !andb_true_iff. intros [[[Hobj Hpercent] Hsuccess] Hcomments].
  unfold entryWarningChecks.
  destruct (firstInRange_printable SCORE_SUCCESS_MAPPING _ "unknown" Hpercent)
    as [category Hcategory].
  destruct (ToString_printable _ Hpercent) as [shownPercent HshownPercent].
  destruct (ToString_printable _ Hsuccess) as [shownSuccess HshownSuccess].
  apply (reports_bind _ _ [] [] tt).
  - destruct (negb (isNull (Spec.field entry "scorePercent"))
              && negb (isStr "unknown" (Spec.field entry "scoreSuccess")));
      [| apply reports_ret ].
    unfold getScoreCategory. rewrite Hcategory.
    apply (reports_bind _ _ [] [] category); [ now apply reports_lift |].
    destruct (negb (isStr category (Spec.field entry "scoreSuccess")));
      [| apply reports_ret ].
    rewrite HshownPercent, HshownSuccess.
    apply (reports_bind _ _ [] [] shownPercent); [ now apply reports_lift |].
    apply (reports_bind _ _ [] [] shownSuccess); [ now apply reports_lift |].
    apply reports_addWarning.
  - rewrite (Get_of_object entry _ Hobj).
    apply (reports_bind _ _ [] [] (Spec.field entry "selfAssessmentComments"));
      [ now apply reports_lift |].
    destruct (truthy (Spec.field entry "selfAssessmentComments")) eqn:Htruthy;
      [| apply reports_ret ].
    unfold quietComments in Hcomments. rewrite Htruthy in Hcomments.
    destruct (Spec.field entry "selfAssessmentComments") as [| | | | c | elems |];
      try discriminate; cbn [jsIncludes].
    + apply (reports_bind _ _ [] [] (stringIncludes "TODO:" c)); [ now apply reports_lift |].
      destruct (stringIncludes "TODO:" c); [ apply reports_addWarning | apply reports_ret ].
    + apply (reports_bind _ _ [] [] (existsb (isStr "TODO:") elems));
        [ now apply reports_lift |].
      destruct (existsb (isStr "TODO:") elems); [ apply reports_addWarning | apply reports_ret ].
Qed.

Lemma reports_validateScoreEntry (entry : JsValue) (prefix : string) :
  quietEntry entry = true ->
  reports (validateScoreEntry rt entry prefix) (entryErrors prefix entry) tt.
Proof.
  intros Hquiet this.
  assert (Hobj : Spec.isObject entry = true).
  { unfold quietEntry in Hquiet. rewrite !andb_true_iff in Hquiet. tauto. }
  rewrite validateScoreEntry_phases.
  rewrite (bindV_known _ _ _ _ _ (entryErrorChecks_object entry prefix this Hobj)).
  cbn [fst snd].
  destruct (reports_entryWarningChecks entry prefix Hquiet
              (withErrors this (entryErrors prefix entry))) as [ws Hws].
  exists ws. rewrite Hws. cbn. now rewrite app_nil_r.
Qed.

Lemma reports_validateAreaScore (area : JsValue) (index : nat) :
  quietArea area = true ->
  reports (validateAreaScore rt area index) (areaErrors rt index area) tt.
Proof.
  unfold quietArea. intros Hquiet.
  assert (Hobj : Spec.isObject area = true).
  { destruct area; try reflexivity; discriminate. }
  unfold validateAreaScore, areaErrors. fold (areaPrefix rt index).
  apply (reports_bind _ _ _ _ tt); [ now apply reports_validateRequired |].
  rewrite !(Get_of_object area _ Hobj).
  apply (reports_bind _ _ [] _ (Spec.field area "id")); [ now apply reports_lift |].
  apply (reports_bind _ _ _ _ tt).
  { apply (reports_when _ _ _ (reports_addError _)). }
  apply (reports_bind _ _ [] _ (Spec.field area "scoreEntries")); [ now apply reports_lift |].
  destruct (Spec.field area "scoreEntries") as [| | | | | entries |]; try discriminate.
  apply (reports_bind _ _ _ _ tt).
  { apply (reports_when _ _ _ (reports_addError _)). }
  apply reports_forEach. intros entry j Hentry.
  apply reports_validateScoreEntry.
  rewrite forallb_forall in Hquiet. now apply Hquiet.
Qed.

Lemma isCountedEntry_returns (entry : JsValue) :
  Spec.isObject entry = true -> exists b, isCountedEntry entry = Normal b.
Proof.
  intros Hobj. unfold isCountedEntry. rewrite !(Get_of_object entry _ Hobj). cbn [bindC].
  destruct (isNull _); [ eexists; reflexivity |].
  destruct (isStr _ _); eexists; reflexivity.
Qed.

Lemma reduce_accumulateEntry_returns (entries : list JsValue) (acc : JsValue) (n : nat) :
  forallb quietEntry entries = true ->
  isPrimitive acc = true ->
  exists acc' n', reduceC (accumulateEntry rt) entries (acc, n) = Normal (acc', n')
                  /\ isPrimitive acc' = true.
Proof.
  revert acc n. induction entries as [| entry entries IH]; intros acc n Hquiet Hacc.
  - exists acc, n. split; [ reflexivity | exact Hacc ].
  - cbn [forallb] in Hquiet. apply andb_true_iff in Hquiet. destruct Hquiet as [Hentry Hrest].
    unfold quietEntry in Hentry. rewrite !andb_true_iff in Hentry.
    destruct Hentry as [[[Hobj Hpercent] _] _].
    cbn [reduceC]. unfold accumulateEntry at 1.
    destruct (isCountedEntry_returns entry Hobj) as [counted ->]. cbn [bindC fst snd].
    destruct counted.
    + rewrite (Get_of_object entry _ Hobj). cbn [bindC].
      destruct (jsAdd_printable acc _ (isPrimitive_printable acc Hacc) Hpercent)
        as (r & -> & Hr).
      cbn [bindC]. now apply IH.
    + cbn [bindC]. now apply IH.
Qed.

Lemma accumulateArea_returns (area : JsValue) (acc : number * nat) :
  quietArea area = true -> exists acc', accumulateArea rt acc area = Normal acc'.
Proof.
  unfold quietArea. intros Hquiet.
  assert (Hobj : Spec.isObject area = true).
  { destruct area; try reflexivity; discriminate. }
  unfold accumulateArea. rewrite (Get_of_object area _ Hobj). cbn [bindC].
  destruct (Spec.field area "scoreEntries") as [| | | | | entries |]; try discriminate.
  cbn [arrayOf bindC].
  destruct (reduce_accumulateEntry_returns entries (JNum (ofZ 0)) 0 Hquiet eq_refl)
    as (inner & n & -> & Hinner).
  cbn [bindC fst snd]. destruct (0 <? n)%nat; [| eexists; reflexivity ].
  destruct (jsDiv_printable inner (JNum (ofNat n)) (isPrimitive_printable _ Hinner) eq_refl)
    as [avg ->].
  eexists; reflexivity.
Qed.

Lemma reduce_accumulateArea_returns (areas : list JsValue) (acc : number * nat) :
  forallb quietArea areas = true ->
  exists acc', reduceC (accumulateArea rt) areas acc = Normal acc'.
Proof.
  revert acc. induction areas as [| area areas IH]; intros acc Hquiet.
  - eexists; reflexivity.
  - cbn [forallb] in Hquiet. apply andb_true_iff in Hquiet. destruct Hquiet as [Harea Hrest].
    cbn [reduceC]. destruct (accumulateArea_returns area acc Harea) as [acc' ->].
    cbn [bindC]. now apply IH.
Qed.

Lemma calculateScores_returns (data : JsValue) :
  quietRecord data = true -> exists scores, calculateScores rt data = Normal scores.
Proof.
  unfold quietRecord. rewrite !andb_true_iff. intros [_ Hareas].
  assert (Hobj : Spec.isObject data = true).
  { destruct data; try reflexivity; discriminate. }
  unfold calculateScores. rewrite (Get_of_object data _ Hobj). cbn [bindC].
  destruct (Spec.field data "areaScores") as [| | | | | areas |]; try discriminate.
  cbn [arrayOf bindC].
  destruct (reduce_accumulateArea_returns areas (ofZ 0, 0%nat) Hareas) as [totals ->].
  eexists; reflexivity.
Qed.

Lemma reports_validateCalculatedScores (data : JsValue) :
  quietRecord data = true -> reports (validateCalculatedScores rt data) [] tt.
Proof.
  intros Hquiet. destruct (calculateScores_returns data Hquiet) as [scores Hscores].
  unfold quietRecord in Hquiet. rewrite !andb_true_iff in Hquiet.
  destruct Hquiet as [[_ Hpercent] Hareas].
  assert (Hobj : Spec.isObject data = true).
  { destruct data; try reflexivity; discriminate. }
  unfold validateCalculatedScores. rewrite Hscores, (Get_of_object data _ Hobj).
  apply (reports_bind _ _ [] [] scores); [ now apply reports_lift |].
  apply (reports_bind _ _ [] [] (Spec.field data "scorePercent")); [ now apply reports_lift |].
  destruct (truthy (Spec.field data "scorePercent")); [| apply reports_ret ].
  destruct (jsSub_printable _ (JNum (overall scores)) Hpercent eq_refl) as [difference ->].
  apply (reports_bind _ _ [] [] difference); [ now apply reports_lift |].
  destruct (numGt (MathAbs difference) (ofZ 1)); [| apply reports_ret ].
  destruct (ToString_printable _ Hpercent) as [shown ->].
  apply (reports_bind _ _ [] [] shown); [ now apply reports_lift |].
  apply reports_addWarning.
Qed.

Lemma reports_validateEntityRef (entityRef : JsValue) :
  printable (Spec.field entityRef "kind") = true ->
  reports (validateEntityRef rt entityRef) (entityRefErrors entityRef) tt.
Proof.
  intros Hkind. unfold validateEntityRef, entityRefErrors.
  destruct (negb (truthy entityRef) || negb (typeof entityRef =? "object")) eqn:Hnot.
  - apply reports_addError.
  - assert (Hobj : Spec.isObject entityRef = true).
    { apply orb_false_iff in Hnot. destruct Hnot as [Htruthy Htype].
      destruct entityRef; try reflexivity; discriminate. }
    apply reports_app_nil_r.
    apply (reports_bind _ _ _ _ tt); [ now apply reports_validateRequired |].
    rewrite (Get_of_object entityRef _ Hobj).
    apply (reports_bind _ _ [] [] (Spec.field entityRef "kind")); [ now apply reports_lift |].
    destruct (truthy _ && negb _); [| apply reports_ret ].
    destruct (ToString_printable _ Hkind) as [shown ->].
    apply (reports_bind _ _ [] [] shown); [ now apply reports_lift |].
    apply reports_addWarning.
Qed.

Lemma reports_validateDateTime (dateStr : JsValue) (fieldName : string) :
  reports (validateDateTime rt dateStr fieldName) (dateErrors rt dateStr fieldName) tt.
Proof.
  unfold validateDateTime, dateErrors.
  destruct (NewDate rt dateStr); [ apply reports_ret | apply reports_addError .. ].
Qed.

Lemma reports_validateEntityScoreBody (data : JsValue) :
  quietRecord data = true ->
  reports (validateEntityScoreBody rt data) (recordErrors rt data) tt.
Proof.
  intros Hquiet. pose proof Hquiet as Hparts.
  unfold quietRecord in Hparts. rewrite !andb_true_iff in Hparts.
  destruct Hparts as [[Hkind _] Hareas].
  assert (Hobj : Spec.isObject data = true).
  { destruct data; try reflexivity; discriminate. }
  unfold validateEntityScoreBody, recordErrors.
  rewrite !(Get_of_object data _ Hobj).
  apply (reports_bind _ _ _ _ tt); [ now apply reports_validateRequired |].
  apply (reports_bind _ _ [] _ (Spec.field data "entityRef")); [ now apply reports_lift |].
  apply (reports_bind _ _ _ _ tt); [ now apply reports_validateEntityRef |].
  apply (reports_bind _ _ [] _ (Spec.field data "generatedDateTimeUtc"));
    [ now apply reports_lift |].
  apply (reports_bind _ _ _ _ tt); [ apply reports_validateDateTime |].
  apply (reports_bind _ _ [] _ (Spec.field data "scoringReviewDate"));
    [ now apply reports_lift |].
  apply (reports_bind _ _ _ _ tt).
  { apply (reports_when _ _ _ (reports_validateDateTime _ _)). }
  apply (reports_bind _ _ [] _ (Spec.field data "areaScores")); [ now apply reports_lift |].
  apply reports_app_nil_r.
  apply (reports_bind _ _ _ [] tt); [| now apply reports_validateCalculatedScores ].
  destruct (Spec.field data "areaScores") as [| | | | | areas |]; try discriminate.
  apply reports_forEach. intros area j Harea.
  apply reports_validateAreaScore.
  rewrite forallb_forall in Hareas. now apply Hareas.
Qed.

End Returns.

(** ** The verdict, rule by rule *)

Lemma app_nil_iff {A} (l l' : list A) : l ++ l' = [] <-> l = [] /\ l' = [].
Proof.
  split; [ apply app_eq_nil | intros [-> ->]; reflexivity ].
Qed.

Lemma errorIf_nil (b : bool) (message : string) : errorIf b message = [] <-> b = false.
Proof. destruct b; cbn; split; intros H; try reflexivity; discriminate. Qed.

Lemma missingFieldErrors_nil (obj : JsValue) (fields : list string) :
  missingFieldErrors obj fields = [] <-> Rules.allPresent obj fields = true.
Proof.
  unfold missingFieldErrors, Rules.allPresent.
  induction fields as [| field fields IH]; cbn [flat_map forallb]; [ tauto |].
  rewrite app_nil_iff, errorIf_nil, IH, andb_true_iff, negb_false_iff. tauto.
Qed.

Lemma flat_mapi_nil {A B} (E : nat -> A -> list B) (p : A -> bool) (l : list A) (i : nat) :
  (forall j x, E j x = [] <-> p x = true) ->
  flat_mapi E l i = [] <-> forallb p l = true.
Proof.
  intros HE. revert i. induction l as [| x l IH]; intros i; cbn [flat_mapi forallb]; [ tauto |].
  rewrite app_nil_iff, HE, IH, andb_true_iff. tauto.
Qed.

Lemma typeof_number (v : JsValue) :
  negb (String.eqb (typeof v) "number") = false <-> Rules.isNumber v = true.
Proof. destruct v; cbn; split; intros H; try reflexivity; discriminate. Qed.

Lemma entryErrors_nil (prefix : string) (entry : JsValue) :
  entryErrors prefix entry = [] <-> Rules.entry entry = true.
Proof.
  unfold entryErrors, Rules.entry.
  rewrite !app_nil_iff, !errorIf_nil, missingFieldErrors_nil, typeof_number.
  rewrite !andb_true_iff, negb_false_iff.
  destruct (Spec.present (Spec.field entry "scorePercent")),
           (percentOutOfRange (Spec.field entry "scorePercent")); cbn; intuition congruence.
Qed.

Lemma areaErrors_nil (rt : Runtime) (index : nat) (area : JsValue) :
  areaErrors rt index area = [] <-> Rules.area area = true.
Proof.
  unfold areaErrors, Rules.area.
  rewrite !app_nil_iff, !errorIf_nil, missingFieldErrors_nil, typeof_number.
  rewrite !andb_true_iff. unfold Rules.allPresent. cbn [forallb].
  destruct (Spec.field area "scoreEntries") as [| | | | | entries |];
    try (cbn; rewrite ?andb_false_r; intuition congruence).
  rewrite app_nil_iff, errorIf_nil, !andb_true_iff, negb_true_iff.
  rewrite (flat_mapi_nil _ Rules.entry);
    [| intros j x; apply entryErrors_nil ].
  cbn [Spec.present]. intuition congruence.
Qed.

Lemma entityRefErrors_nil (entityRef : JsValue) :
  entityRefErrors entityRef = [] <-> Rules.entityRef entityRef = true.
Proof.
  unfold entityRefErrors, Rules.entityRef.
  destruct (Spec.isObject entityRef) eqn:Hobj.
  - replace (negb (truthy entityRef) || negb (String.eqb (typeof entityRef) "object"))
      with false by (destruct entityRef; try discriminate; reflexivity).
    apply missingFieldErrors_nil.
  - replace (negb (truthy entityRef) || negb (String.eqb (typeof entityRef) "object"))
      with true.
    + cbn. split; intros H; discriminate.
    + destruct entityRef; try discriminate; cbn; try reflexivity;
        symmetry; apply orb_true_r.
Qed.

Lemma dateErrors_nil (rt : Runtime) (dateStr : JsValue) (fieldName : string) :
  dateErrors rt dateStr fieldName = [] <-> Rules.validDate rt dateStr = true.
Proof.
  unfold dateErrors, Rules.validDate.
  destruct (NewDate rt dateStr); cbn; split; intros H; try reflexivity; discriminate.
Qed.

Lemma recordErrors_nil (rt : Runtime) (data : JsValue) :
  recordErrors rt data = [] <-> Rules.record rt data = true.
Proof.
  unfold recordErrors, Rules.record.
  rewrite !app_nil_iff, missingFieldErrors_nil, entityRefErrors_nil, dateErrors_nil.
  rewrite !andb_true_iff, orb_true_iff, negb_true_iff.
  assert (Hreview :
            (if truthy (Spec.field data "scoringReviewDate")
             then dateErrors rt (Spec.field data "scoringReviewDate") "scoringReviewDate"
             else []) = []
            <-> truthy (Spec.field data "scoringReviewDate") = false
                \/ Rules.validDate rt (Spec.field data "scoringReviewDate") = true).
  { destruct (truthy (Spec.field data "scoringReviewDate")).
    - rewrite dateErrors_nil. intuition congruence.
    - tauto. }
  rewrite Hreview.
  destruct (Spec.field data "areaScores") as [| | | | | areas |];
    try (cbn; intuition congruence).
  rewrite (flat_mapi_nil _ Rules.area); [ tauto |].
  intros j x. apply areaErrors_nil.
Qed.

Lemma no_error_verdict (held es : list string) (ok : bool) :
  (es = [] <-> ok = true) ->
  (List.length (held ++ es) =? 0)%nat = (List.length held =? 0)%nat && ok.
Proof.
  intros Hok. destruct held as [| m held]; [| reflexivity ].
  cbn [app List.length Nat.eqb andb].
  destruct es as [| e es], ok; try reflexivity.
  - discriminate (proj1 Hok eq_refl).
  - discriminate (proj2 Hok eq_refl).
Qed.

Lemma validateEntityScore_quiet (rt : Runtime) (data : JsValue) (held : ScoreValidator) :
  quietRecord data = true ->
  exists ws,
    validateEntityScore rt data held
    = ({| errors := errors held ++ recordErrors rt data;
          warnings := warnings held ++ ws |},
       Normal ((List.length (errors held) =? 0)%nat && Rules.record rt data)).
Proof.
  intros Hquiet. rewrite validateEntityScore_body.
  destruct (reports_validateEntityScoreBody rt data Hquiet held) as [ws Hws].
  exists ws. rewrite (bindV_known _ _ _ _ _ Hws). cbn [errors].
  now rewrite (no_error_verdict _ _ _ (recordErrors_nil rt data)).
Qed.

(** X5: on a quiet record (its areas and entries are arrays and objects,
    its values print without a throw, its comments are strings, arrays or
    absent) [validateEntityScore] returns; the errors it pushes are exactly
    [recordErrors], behind those the validator held; and on a fresh
    validator the verdict is the conjunction of the rules [Rules.record]:
    required fields present, an entity reference with kind and name, dates
    that parse, and areas and entries that meet theirs. *)
Theorem X5_verdict_on_a_quiet_record_is_the_conjunction_of_the_rules
    (rt : Runtime) (data : JsValue) (held : ScoreValidator)
    (Hquiet : quietRecord data = true) :
  (exists ws,
      validateEntityScore rt data held
      = ({| errors := errors held ++ recordErrors rt data;
            warnings := warnings held ++ ws |},
         Normal ((List.length (errors held) =? 0)%nat && Rules.record rt data)))
  /\ (recordErrors rt data = [] <-> Rules.record rt data = true)
  /\ snd (validateEntityScore rt data newScoreValidator) = Normal (Rules.record rt data).
Proof.
  split; [ now apply validateEntityScore_quiet |]. split; [ apply recordErrors_nil |].
  destruct (validateEntityScore_quiet rt data newScoreValidator Hquiet) as [ws ->].
  reflexivity.
Qed.

(** The sound record is valid, the record with an area without entries is not. *)
Lemma X5_witness :
  snd (validateEntityScore Reference.runtime Example.soundRecord newScoreValidator)
  = Normal true
  /\ snd (validateEntityScore Reference.runtime Example.recordWithEmptyArea newScoreValidator)
     = Normal false.
Proof.
  split.
  - destruct (X5_verdict_on_a_quiet_record_is_the_conjunction_of_the_rules
                Reference.runtime Example.soundRecord newScoreValidator eq_refl)
      as (_ & _ & ->).
    reflexivity.
  - destruct (X5_verdict_on_a_quiet_record_is_the_conjunction_of_the_rules
                Reference.runtime Example.recordWithEmptyArea newScoreValidator eq_refl)
      as (_ & _ & ->).
    reflexivity.
Defined.

(** ** Where validation throws *)

Lemma throws_lift {A} (e : Exn) : throws (liftV (@Throw A e)).
Proof. intros this. now exists this, e. Qed.

Lemma throws_bind_value {A B} (a : A) (f : A -> V B) :
  throws (f a) -> throws (bindV (liftV (Normal a)) f).
Proof. intros Hf this. apply Hf. Qed.

Lemma validateRequired_throws (obj : JsValue) (field : string) (fields : list string) :
  Spec.isObject obj = false -> throws (validateRequired obj (field :: fields)).
Proof.
  intros Hobj. unfold validateRequired. cbn [forEachV].
  do 2 apply throws_bind_l.
  replace (HasProperty field obj) with (@Throw bool TypeError)
    by (destruct obj; try discriminate; reflexivity).
  apply throws_lift.
Qed.

Section Throws.

Variable rt : Runtime.

Lemma validateScoreEntry_throws (entry : JsValue) (prefix : string) :
  Spec.isObject entry = false -> throws (validateScoreEntry rt entry prefix).
Proof.
  intros Hobj. unfold validateScoreEntry. apply throws_bind_l.
  now apply validateRequired_throws.
Qed.

Lemma forEach_throws {A} (f : A -> nat -> V unit) (l : list A) (i : nat) (x : A) :
  In x l -> (forall j, throws (f x j)) -> throws (forEachV f l i).
Proof.
  intros Hx Hf. revert i. induction l as [| y l IH]; intros i; [ contradiction |].
  cbn [forEachV]. destruct Hx as [-> | Hx].
  - apply throws_bind_l, Hf.
  - apply throws_bind_r. intros ?. now apply IH.
Qed.

Lemma validateAreaScore_throws (area : JsValue) (index : nat) (entries : list JsValue) :
  Spec.field area "scoreEntries" = JArr entries ->
  forallb Spec.isObject entries = false ->
  throws (validateAreaScore rt area index).
Proof.
  intros Hentries Hbad.
  assert (Hobj : Spec.isObject area = true).
  { destruct area; try reflexivity; discriminate. }
  assert (Hentry : exists entry, In entry entries /\ Spec.isObject entry = false).
  { clear Hentries. induction entries as [| e entries IH]; [ discriminate |].
    cbn [forallb] in Hbad. destruct (Spec.isObject e) eqn:He.
    - destruct (IH Hbad) as (entry & Hin & Hentry). exists entry. split; [ now right | exact Hentry ].
    - exists e. split; [ now left | exact He ]. }
  destruct Hentry as (entry & Hin & Hentry).
  unfold validateAreaScore. rewrite !(Get_of_object area _ Hobj), Hentries.
  apply throws_bind_r; intros ?.
  apply throws_bind_r; intros ?.
  apply throws_bind_r; intros ?.
  apply throws_bind_value.
  apply throws_bind_r; intros ?.
  apply (forEach_throws _ _ _ entry Hin). intros j.
  now apply validateScoreEntry_throws.
Qed.

Lemma reduce_accumulateArea_throws (areas : list JsValue) (acc : number * nat) (area : JsValue) :
  In area areas ->
  isArray (Spec.field area "scoreEntries") = false ->
  exists e, reduceC (accumulateArea rt) areas acc = Throw e.
Proof.
  intros Hin Hbad. revert acc. induction areas as [| a areas IH]; intros acc; [ contradiction |].
  cbn [reduceC]. destruct Hin as [-> | Hin].
  - replace (accumulateArea rt acc area) with (@Throw (number * nat) TypeError);
      [ eexists; reflexivity |].
    unfold accumulateArea.
    destruct area as [| | b | n | s | elems | props]; try reflexivity.
    rewrite Get_object. cbn [bindC].
    destruct (Spec.field (JObj props) "scoreEntries"); try discriminate; reflexivity.
  - destruct (accumulateArea rt acc a) as [acc' | e]; cbn [bindC];
      [ now apply IH | eexists; reflexivity ].
Qed.

Lemma calculateScores_throws_on_area (data : JsValue) (areas : list JsValue) (area : JsValue) :
  Spec.field data "areaScores" = JArr areas ->
  In area areas ->
  isArray (Spec.field area "scoreEntries") = false ->
  exists e, calculateScores rt data = Throw e.
Proof.
  intros Hareas Hin Hbad.
  assert (Hobj : Spec.isObject data = true).
  { destruct data; try reflexivity; discriminate. }
  unfold calculateScores. rewrite (Get_of_object data _ Hobj), Hareas. cbn [bindC arrayOf].
  destruct (reduce_accumulateArea_throws areas (ofZ 0, 0%nat) area Hin Hbad) as [e ->].
  eexists; reflexivity.
Qed.

Lemma validateEntityScore_throws_without_skeleton (data : JsValue) :
  hasSkeleton data = false -> throws (validateEntityScore rt data).
Proof.
  intros Hbad this. revert this. change (throws (validateEntityScore rt data)).
  assert (Hbody : throws (validateEntityScoreBody rt data)).
  2: { intros this. rewrite validateEntityScore_body. now apply throws_bind_l. }
  unfold hasSkeleton in Hbad.
  destruct (Spec.field data "areaScores") as [| | | | | areas |] eqn:Hareas;
    try (unfold validateEntityScoreBody;
         repeat lazymatch goal with
                | |- throws (bindV _ _) => apply throws_bind_r; intros ?
                end;
         apply validateCalculatedScores_throws; now rewrite Hareas).
  assert (Harea : exists area, In area areas
                    /\ match Spec.field area "scoreEntries" with
                       | JArr entries => forallb Spec.isObject entries
                       | _ => false
                       end = false).
  { clear Hareas. induction areas as [| a areas IH]; [ discriminate |].
    cbn [forallb] in Hbad. apply andb_false_iff in Hbad. destruct Hbad as [Ha | Hrest].
    - exists a. split; [ now left | exact Ha ].
    - destruct (IH Hrest) as (area & Hin & Harea). exists area. split; [ now right | exact Harea ]. }
  destruct Harea as (area & Hin & Harea).
  assert (Hobj : Spec.isObject data = true).
  { destruct data; try reflexivity; discriminate. }
  unfold validateEntityScoreBody. rewrite !(Get_of_object data _ Hobj), Hareas.
  apply throws_bind_r; intros ?.
  apply throws_bind_r; intros ?.
  apply throws_bind_r; intros ?.
  apply throws_bind_r; intros ?.
  apply throws_bind_r; intros ?.
  apply throws_bind_r; intros ?.
  apply throws_bind_r; intros ?.
  apply throws_bind_value.
  destruct (Spec.field area "scoreEntries") as [| | | | | entries |] eqn:Hentries;
    try (apply throws_bind_r; intros ?; apply throws_bind_l; intros this;
         destruct (calculateScores_throws_on_area data areas area Hareas Hin) as [e He];
         [ now rewrite Hentries | exists this, e; unfold liftV; now rewrite He ]).
  apply throws_bind_l.
  apply (forEach_throws _ _ _ area Hin). intros j.
  now apply (validateAreaScore_throws area j entries).
Qed.

End Throws.

(** X6: [validateEntityScore] returns a verdict only for a record that has
    the skeleton: [areaScores] is an array, every area has an array
    [scoreEntries], every entry is an object.  On any other record it
    throws, behind the errors it pushed on its way. *)
Theorem X6_a_verdict_is_returned_only_for_a_record_with_the_skeleton
    (rt : Runtime) (data : JsValue) (held this' : ScoreValidator) (valid : bool)
    (Hreturns : validateEntityScore rt data held = (this', Normal valid)) :
  hasSkeleton data = true.
Proof.
  destruct (hasSkeleton data) eqn:Hskeleton; [ reflexivity |].
  destruct (validateEntityScore_throws_without_skeleton rt data Hskeleton held)
    as (this'' & e & Hthrows).
  rewrite Hthrows in Hreturns. discriminate.
Qed.

(** The sound record: a verdict is returned, and the skeleton is there. *)
Lemma X6_witness : hasSkeleton Example.soundRecord = true.
Proof.
  apply (X6_a_verdict_is_returned_only_for_a_record_with_the_skeleton
           Reference.runtime Example.soundRecord newScoreValidator newScoreValidator true).
  vm_compute. reflexivity.
Defined.

(** X7: [validateRequired], on each of the field lists the script passes.
    On an object (or an array) it pushes one error for each field that is
    absent or [null], in the order of the list, and nothing else: a field
    that holds 0, [false] or the empty string is there.  On anything else
    ([null], [undefined], a number, a string, a boolean) the [in] operator
    throws a [TypeError] before anything is pushed. *)
Theorem X7_validateRequired_reports_each_missing_field_once
    (obj : JsValue) (fields : list string) (held : ScoreValidator)
    (Hfields : In fields requiredFieldLists) :
  (Spec.isObject obj = true ->
   validateRequired obj fields held
   = ({| errors := errors held
                   ++ map (fun field => "❌ ERROR: Missing required field: " +++ field)
                        (filter (fun field => negb (Spec.present (Spec.field obj field)))
                           fields);
         warnings := warnings held |}, Normal tt))
  /\ (Spec.isObject obj = false ->
      validateRequired obj fields held = (held, Throw TypeError)).
Proof.
  split.
  - intros Hobj. rewrite (validateRequired_object obj fields held Hobj).
    unfold withErrors. do 3 f_equal. unfold missingFieldErrors.
    clear Hfields. induction fields as [| field fields IH]; [ reflexivity |].
    cbn [flat_map filter map].
    destruct (negb (Spec.present (Spec.field obj field))); cbn [errorIf app map];
      now rewrite IH.
  - intros Hobj.
    assert (Hsome : exists field rest, fields = field :: rest).
    { cbn in Hfields. destruct Hfields as [<- | [<- | [<- | [<- | []]]]]; eauto. }
    destruct Hsome as (field & rest & ->).
    unfold validateRequired. cbn [forEachV]. unfold bindV, liftV.
    destruct obj; try discriminate; reflexivity.
Qed.

(** The record without [areaScores], and [null] in place of an entity reference. *)
Lemma X7_witness :
  validateRequired Example.recordWithoutAreas
    [ "entityRef"; "generatedDateTimeUtc"; "areaScores" ] newScoreValidator
  = ({| errors := [ "❌ ERROR: Missing required field: areaScores" ]; warnings := [] |},
     Normal tt)
  /\ validateRequired JNull [ "kind"; "name" ] newScoreValidator
     = (newScoreValidator, Throw TypeError).
Proof.
  split.
  - exact (proj1 (X7_validateRequired_reports_each_missing_field_once
                    Example.recordWithoutAreas _ newScoreValidator (or_introl eq_refl))
             eq_refl).
  - exact (proj2 (X7_validateRequired_reports_each_missing_field_once
                    JNull _ newScoreValidator (or_intror (or_introl eq_refl)))
             eq_refl).
Defined.

(** ** The bands of the validator and of the aggregator *)

Lemma firstInRange_fallbacks (rt : Runtime) (table : list (string * range))
    (percent : JsValue) (fallback fallback' : string) :
  match firstInRange rt table percent fallback with
  | Normal name =>
      (In name (map fst table)
       /\ firstInRange rt table percent fallback' = Normal name)
      \/ (name = fallback
          /\ firstInRange rt table percent fallback' = Normal fallback')
  | Throw e => firstInRange rt table percent fallback' = Throw e
  end.
Proof.
  induction table as [| [name r] table IH]; cbn [firstInRange map fst].
  - right. split; reflexivity.
  - destruct (jsGe rt percent (ofZ (min r))) as [[|] | e]; cbn [bindC].
    + destruct (jsLe rt percent (ofZ (max r))) as [[|] | e]; cbn [bindC].
      * left. split; [ now left | reflexivity ].
      * destruct (firstInRange rt table percent fallback); [| exact IH ].
        destruct IH as [[Hin H] | H]; [ left; split; [ now right | exact H ] | now right ].
      * reflexivity.
    + destruct (firstInRange rt table percent fallback); [| exact IH ].
      destruct IH as [[Hin H] | H]; [ left; split; [ now right | exact H ] | now right ].
    + reflexivity.
Qed.

(** Comparisons of the canonical rationals, read in [Q]. *)
Ltac Qc_to_Q :=
  unfold Qcle, Qclt in *;
  repeat match goal with
         | H : context [this (ZtoQc ?z)] |- _ =>
             let c := eval vm_compute in (this (ZtoQc z)) in
             change (this (ZtoQc z)) with c in H
         | |- context [this (ZtoQc ?z)] =>
             let c := eval vm_compute in (this (ZtoQc z)) in
             change (this (ZtoQc z)) with c
         end.

Lemma getScoreCategory_rational (rt : Runtime) (q : Qc) :
  getScoreCategory rt (JNum (Fin q))
  = Normal (if Qcleb (ZtoQc 80) q && Qcleb q (ZtoQc 100) then "success"
            else if Qcleb (ZtoQc 70) q && Qcleb q (ZtoQc 79) then "almost-success"
            else if Qcleb (ZtoQc 50) q && Qcleb q (ZtoQc 69) then "partial"
            else if Qcleb (ZtoQc 30) q && Qcleb q (ZtoQc 49) then "almost-failure"
            else if Qcleb (ZtoQc 0) q && Qcleb q (ZtoQc 29) then "failure"
            else "unknown").
Proof.
  unfold getScoreCategory. rewrite firstInRange_number. reflexivity.
Qed.

(** X8: the validator's [getScoreCategory] and the aggregator's
    [getScoreSuccess] read the same bands and differ in their default
    alone: where the validator names a band the aggregator names the same,
    where the validator answers 'unknown' the aggregator answers 'failure',
    and they throw together.  On a number the validator answers 'unknown'
    exactly below 0, above 100 and strictly between two bands (29..30,
    49..50, 69..70, 79..80); on [NaN] too. *)
Theorem X8_validator_and_aggregator_read_the_same_bands (rt : Runtime) :
  (forall percent : JsValue,
      match getScoreCategory rt percent with
      | Normal category =>
          getScoreSuccess rt percent
          = Normal (if String.eqb category "unknown" then "failure" else category)
      | Throw e => getScoreSuccess rt percent = Throw e
      end)
  /\ (forall q : Qc,
         getScoreCategory rt (JNum (Fin q)) = Normal "unknown"
         <-> (q < ZtoQc 0 \/ (ZtoQc 29 < q /\ q < ZtoQc 30)
              \/ (ZtoQc 49 < q /\ q < ZtoQc 50) \/ (ZtoQc 69 < q /\ q < ZtoQc 70)
              \/ (ZtoQc 79 < q /\ q < ZtoQc 80) \/ ZtoQc 100 < q)%Qc)
  /\ getScoreCategory rt (JNum NaN) = Normal "unknown"
  /\ getScoreSuccess rt (JNum NaN) = Normal "failure".
Proof.
  split; [| split; [| split; reflexivity ] ].
  - intros percent. unfold getScoreCategory, getScoreSuccess.
    pose proof (firstInRange_fallbacks rt SCORE_SUCCESS_MAPPING percent "unknown" "failure")
      as H.
    destruct (firstInRange rt SCORE_SUCCESS_MAPPING percent "unknown") as [category | e];
      [| exact H ].
    destruct H as [[Hin H] | [-> H]]; [| exact H ].
    rewrite H. cbn in Hin.
    destruct Hin as [<- | [<- | [<- | [<- | [<- | []]]]]]; reflexivity.
  - intros q. rewrite getScoreCategory_rational.
    repeat match goal with
           | |- context [Qcleb ?a ?b] =>
               let H := fresh "H" in
               destruct (Qcleb a b) eqn:H;
               [ apply Qcleb_true in H | apply Qcleb_false in H ]
           end;
      cbn [andb]; Qc_to_Q;
      (split; [ intros Heq; try discriminate Heq | intros Hgap ]);
      try reflexivity; try (exfalso; lra); lra.
Qed.

(** ** What an entry draws, errors and warnings *)
Lemma truthy_quietComments (comments : JsValue) :
  quietComments comments = true -> truthy comments = false -> mentionsTodo comments = false.
Proof.
  destruct comments as [| | | | c | |]; try reflexivity; try discriminate.
  intros _ Hc. cbn in Hc. apply negb_false_iff, String.eqb_eq in Hc. now subst c.
Qed.

Lemma todoCheck_quiet (prefix : string) (comments : JsValue) (this : ScoreValidator) :
  quietComments comments = true ->
  bindV (liftV (Normal comments))
    (fun comments =>
       if truthy comments
       then bindV (liftV (jsIncludes comments "TODO:"))
              (fun todo =>
                 when todo
                   (addWarning (prefix +++ ": Self-assessment comments contain TODO placeholder")))
       else retV tt) this
  = ({| errors := errors this;
        warnings := warnings this ++ todoWarnings prefix comments |}, Normal tt).
Proof.
  intros Hcomments. unfold bindV at 1. unfold liftV at 1. unfold todoWarnings.
  destruct (truthy comments) eqn:Htruthy.
  - destruct comments as [| | | | c | elems |];
      try (unfold quietComments in Hcomments; rewrite Htruthy in Hcomments; discriminate);
      unfold bindV, liftV, jsIncludes, mentionsTodo, when, addWarning, retV.
    + destruct (stringIncludes "TODO:" c); [ reflexivity |].
      rewrite app_nil_r. now destruct this.
    + destruct (existsb (isStr "TODO:") elems); [ reflexivity |].
      rewrite app_nil_r. now destruct this.
  - rewrite (truthy_quietComments comments Hcomments Htruthy).
    unfold retV. rewrite app_nil_r. now destruct this.
Qed.

Lemma validateScoreEntry_draws
    (rt : Runtime) (entry : JsValue) (prefix : string) (held : ScoreValidator)
    (n : number) (s : string)
    (Hobject : Spec.isObject entry = true)
    (Hpercent : Spec.field entry "scorePercent" = JNum n)
    (Hsuccess : Spec.field entry "scoreSuccess" = JStr s)
    (Hcomments : quietComments (Spec.field entry "selfAssessmentComments") = true) :
  validateScoreEntry rt entry prefix held
  = ({| errors := errors held ++ entryErrors prefix entry;
        warnings := warnings held
                    ++ consistencyWarnings rt prefix n s
                    ++ todoWarnings prefix (Spec.field entry "selfAssessmentComments") |},
     Normal tt).
Proof.
  rewrite validateScoreEntry_phases.
  rewrite (bindV_known _ _ _ _ _ (entryErrorChecks_object entry prefix held Hobject)).
  cbn [fst snd]. rewrite Hpercent, Hsuccess.
  unfold entryWarningChecks, consistencyWarnings.
  cbn [isNull negb andb isStr].
  unfold getScoreCategory. rewrite firstInRange_number.
  rewrite (Get_of_object entry _ Hobject).
  set (expected := firstBand SCORE_SUCCESS_MAPPING n "unknown").
  destruct (negb (String.eqb s "unknown")) eqn:Hknown; cbn [andb].
  - unfold bindV at 1. unfold bindV at 1. unfold liftV at 1.
    destruct (negb (String.eqb s expected)) eqn:Hdiffers.
    + cbn [ToString]. unfold bindV at 1. unfold liftV at 1.
      unfold bindV at 1. unfold liftV at 1. unfold addWarning at 1.
      rewrite (todoCheck_quiet _ _ _ Hcomments).
      cbn [errors warnings withErrors]. now rewrite <- app_assoc.
    + unfold retV at 1. rewrite (todoCheck_quiet _ _ _ Hcomments). reflexivity.
  - unfold bindV at 1. unfold retV at 1. rewrite (todoCheck_quiet _ _ _ Hcomments).
    reflexivity.
Qed.


(** X9: what [validateScoreEntry] draws from an entry that is an object
    with a number for [scorePercent] and a string for [scoreSuccess]: the
    errors [entryErrors]; one consistency warning when the category is not
    'unknown' and is not the band of the percent; one placeholder warning
    when the comments hold "TODO:"; nothing else, and no throw. *)
Theorem X9_what_an_entry_draws
    (rt : Runtime) (entry : JsValue) (prefix : string) (held : ScoreValidator)
    (n : number) (s : string)
    (Hobject : Spec.isObject entry = true)
    (Hpercent : Spec.field entry "scorePercent" = JNum n)
    (Hsuccess : Spec.field entry "scoreSuccess" = JStr s)
    (Hcomments : quietComments (Spec.field entry "selfAssessmentComments") = true) :
  validateScoreEntry rt entry prefix held
  = ({| errors := errors held ++ entryErrors prefix entry;
        warnings := warnings held
                    ++ consistencyWarnings rt prefix n s
                    ++ todoWarnings prefix (Spec.field entry "selfAssessmentComments") |},
     Normal tt).
Proof.
  exact (validateScoreEntry_draws rt entry prefix held n s Hobject Hpercent Hsuccess
           Hcomments).
Qed.

(** 85 declared partial: no error, one consistency warning. *)
Lemma X9_witness :
  validateScoreEntry Reference.runtime (Example.entry 1 (Example.num 85) "partial")
    "areaScores[0].scoreEntries[0]" newScoreValidator
  = ({| errors := [];
        warnings :=
          [ "⚠️  WARNING: areaScores[0].scoreEntries[0]: scorePercent (85) suggests 'success' but scoreSuccess is 'partial'" ] |},
     Normal tt).
Proof.
  exact (X9_what_an_entry_draws
           Reference.runtime (Example.entry 1 (Example.num 85) "partial")
           "areaScores[0].scoreEntries[0]" newScoreValidator (ofZ 85) "partial"
           eq_refl eq_refl eq_refl eq_refl).
Defined.

(** ** The placeholder check *)

Lemma substring_prefix (n : nat) (s t : string) :
  substring 0 n s = t -> String.length t = n -> exists post, s = t +++ post.
Proof.
  revert s t. induction n as [| n IH]; intros s t Hsub Hlen.
  - destruct t; [| discriminate ]. exists s. reflexivity.
  - destruct s as [| c s]; cbn in Hsub.
    + subst t. discriminate.
    + destruct t as [| c' t]; [ discriminate |].
      injection Hsub as <- Hsub. cbn in Hlen. injection Hlen as Hlen.
      destruct (IH s t Hsub Hlen) as [post ->]. now exists post.
Qed.

Lemma substring_inside (m n : nat) (s t : string) :
  substring m n s = t -> String.length t = n -> exists pre post, s = pre +++ t +++ post.
Proof.
  revert s. induction m as [| m IH]; intros s Hsub Hlen.
  - destruct (substring_prefix n s t Hsub Hlen) as [post ->]. now exists "", post.
  - destruct s as [| c s].
    + assert (Ht : t = "") by (destruct n; cbn in Hsub; now subst t).
      subst t. now exists "", "".
    + cbn in Hsub. destruct (IH s Hsub Hlen) as (pre & post & ->).
      now exists (String c pre), post.
Qed.

Lemma substring_of_prefix (t post : string) :
  substring 0 (String.length t) (t +++ post) = t.
Proof.
  induction t as [| c t IH]; cbn.
  - now destruct post.
  - now rewrite IH.
Qed.

Lemma substring_of_inside (pre t post : string) :
  substring (String.length pre) (String.length t) (pre +++ t +++ post) = t.
Proof.
  induction pre as [| c pre IH]; cbn; [ apply substring_of_prefix | exact IH ].
Qed.

Lemma stringIncludes_contains (needle s : string) :
  stringIncludes needle s = true <-> exists pre post, s = pre +++ needle +++ post.
Proof.
  unfold stringIncludes. split.
  - destruct (index 0 needle s) as [m |] eqn:Hindex; [| discriminate ]. intros _.
    apply index_correct1 in Hindex. now apply (substring_inside m (String.length needle)).
  - intros (pre & post & ->).
    destruct (index 0 needle (pre +++ needle +++ post)) eqn:Hindex; [ reflexivity |].
    exfalso. destruct needle as [| c needle].
    + apply index_correct4 in Hindex. lia.
    + apply (index_correct3 0 (String.length pre)) in Hindex; [| discriminate | lia ].
      apply Hindex, substring_of_inside.
Qed.

Lemma throws_validateScoreEntry (rt : Runtime) (entry : JsValue) (prefix : string) :
  Spec.isObject entry = true ->
  truthy (Spec.field entry "selfAssessmentComments") = true ->
  quietComments (Spec.field entry "selfAssessmentComments") = false ->
  throws (validateScoreEntry rt entry prefix).
Proof.
  intros Hobject Htruthy Hquiet held. rewrite validateScoreEntry_phases.
  rewrite (bindV_known _ _ _ _ _ (entryErrorChecks_object entry prefix held Hobject)).
  cbn [fst snd]. revert held. generalize (entryErrors prefix entry). intros es held.
  generalize (withErrors held es). clear held.
  change (throws (entryWarningChecks rt entry prefix (Spec.field entry "scorePercent")
                    (Spec.field entry "scoreSuccess"))).
  unfold entryWarningChecks. apply throws_bind_r. intros _.
  rewrite (Get_of_object entry _ Hobject). apply throws_bind_value.
  rewrite Htruthy. apply throws_bind_l.
  destruct (Spec.field entry "selfAssessmentComments"); try discriminate;
    apply throws_lift.
Qed.

Lemma existsb_isStr (s : string) (elems : list JsValue) :
  existsb (isStr s) elems = true <-> In (JStr s) elems.
Proof.
  rewrite existsb_exists. split.
  - intros (x & Hin & Hx). destruct x; try discriminate.
    cbn in Hx. apply String.eqb_eq in Hx. now subst.
  - intros Hin. exists (JStr s). split; [ exact Hin | apply String.eqb_refl ].
Qed.

(** X10: the placeholder check of [validateScoreEntry], on an entry that
    is an object with a number for [scorePercent] and a string for
    [scoreSuccess].  With comments that are a string, the warning
    "Self-assessment comments contain TODO placeholder" is the last one the
    entry draws when "TODO:" occurs in the string, and is not drawn when it
    does not; with comments that are an array, the same with "TODO:" being
    one of the elements.  Truthy comments of any other kind (a number,
    [true], an object) have no [includes], and [validateScoreEntry] throws
    on every object entry that carries them. *)
Theorem X10_the_placeholder_check
    (rt : Runtime) (prefix : string) (held : ScoreValidator) :
  let placeholder :=
    "⚠️  WARNING: " +++ prefix +++ ": Self-assessment comments contain TODO placeholder" in
  let drawing (entry : JsValue) (n : number) (s : string) (last : list string) :=
    validateScoreEntry rt entry prefix held
    = ({| errors := errors held ++ entryErrors prefix entry;
          warnings := warnings held ++ consistencyWarnings rt prefix n s ++ last |},
       Normal tt) in
  (forall entry n s c,
      Spec.isObject entry = true ->
      Spec.field entry "scorePercent" = JNum n ->
      Spec.field entry "scoreSuccess" = JStr s ->
      Spec.field entry "selfAssessmentComments" = JStr c ->
      ((exists pre post, c = pre +++ "TODO:" +++ post) -> drawing entry n s [ placeholder ])
      /\ (~ (exists pre post, c = pre +++ "TODO:" +++ post) -> drawing entry n s []))
  /\ (forall entry n s elems,
         Spec.isObject entry = true ->
         Spec.field entry "scorePercent" = JNum n ->
         Spec.field entry "scoreSuccess" = JStr s ->
         Spec.field entry "selfAssessmentComments" = JArr elems ->
         (In (JStr "TODO:") elems -> drawing entry n s [ placeholder ])
         /\ (~ In (JStr "TODO:") elems -> drawing entry n s []))
  /\ (forall entry,
         Spec.isObject entry = true ->
         truthy (Spec.field entry "selfAssessmentComments") = true ->
         quietComments (Spec.field entry "selfAssessmentComments") = false ->
         exists this' e, validateScoreEntry rt entry prefix held = (this', Throw e)).
Proof.
  cbv zeta. split; [| split ].
  - intros entry n s c Hobject Hpercent Hsuccess Hcomments.
    assert (Hquiet : quietComments (Spec.field entry "selfAssessmentComments") = true)
      by now rewrite Hcomments.
    rewrite (validateScoreEntry_draws rt entry prefix held n s Hobject Hpercent Hsuccess
               Hquiet).
    rewrite Hcomments. unfold todoWarnings. cbn [mentionsTodo].
    pose proof (stringIncludes_contains "TODO:" c) as Hincludes.
    destruct (stringIncludes "TODO:" c).
    + split; [ reflexivity |]. intros Hnot. exfalso. now apply Hnot, Hincludes.
    + split; [| reflexivity ]. intros Hin. apply Hincludes in Hin. discriminate.
  - intros entry n s elems Hobject Hpercent Hsuccess Hcomments.
    assert (Hquiet : quietComments (Spec.field entry "selfAssessmentComments") = true)
      by now rewrite Hcomments.
    rewrite (validateScoreEntry_draws rt entry prefix held n s Hobject Hpercent Hsuccess
               Hquiet).
    rewrite Hcomments. unfold todoWarnings. cbn [mentionsTodo].
    pose proof (existsb_isStr "TODO:" elems) as Hincludes.
    destruct (existsb (isStr "TODO:") elems).
    + split; [ reflexivity |]. intros Hnot. exfalso. now apply Hnot, Hincludes.
    + split; [| reflexivity ]. intros Hin. apply Hincludes in Hin. discriminate.
  - intros entry Hobject Htruthy Hquiet.
    exact (throws_validateScoreEntry rt entry prefix Hobject Htruthy Hquiet held).
Qed.

(** ** From the validator to the aggregator *)

Lemma allPresent_object (obj : JsValue) (field : string) (fields : list string) :
  Rules.allPresent obj (field :: fields) = true -> exists props, obj = JObj props.
Proof.
  unfold Rules.allPresent. cbn [forallb]. intros H. apply andb_true_iff in H.
  destruct H as [H _]. destruct obj; try discriminate. eauto.
Qed.

Lemma valid_entry_wellTyped (entry : JsValue) :
  Rules.entry entry = true -> entryAsDeclared entry = true ->
  Spec.wellTypedEntry entry = true
  /\ (negb (Spec.included entry)
      || Spec.percentInRange (Spec.field entry "scorePercent")) = true.
Proof.
  unfold Rules.entry, entryAsDeclared. rewrite !andb_true_iff.
  intros [[[Hpresent _] Hpercent] _] [Hnan Hoptional].
  destruct (allPresent_object _ _ _ Hpresent) as [props ->].
  unfold Spec.wellTypedEntry, Spec.included.
  destruct (Spec.field (JObj props) "isOptional"); try discriminate;
    destruct (Spec.field (JObj props) "scorePercent") as [| | | [| q | [|]] | | |] eqn:Hq;
    try discriminate; cbn [Spec.present andb negb orb] in *;
    rewrite ?andb_false_r, ?andb_true_r; cbn [negb orb];
    try (split; reflexivity);
    (split; [ reflexivity |]);
    rewrite (percentOutOfRange_spec (JNum (Fin q))) in Hpercent by discriminate;
    rewrite negb_involutive in Hpercent; rewrite Hpercent; apply orb_true_r.
Qed.

Lemma valid_area_wellFormed (area : JsValue) :
  Rules.area area = true ->
  forallb entryAsDeclared (Spec.entriesOf area) = true ->
  Spec.wellFormedArea area = true /\ keptPercentsInRange area = true.
Proof.
  unfold Rules.area, Spec.wellFormedArea, keptPercentsInRange, Spec.entriesOf.
  rewrite !andb_true_iff. intros [[Hpresent _] Hentries] Hdeclared.
  destruct (allPresent_object _ _ _ Hpresent) as [props ->].
  destruct (Spec.field (JObj props) "scoreEntries") as [| | | | | entries |];
    try discriminate.
  apply andb_true_iff in Hentries. destruct Hentries as [_ Hentries].
  rewrite !forallb_forall in *.
  split; intros e He;
    destruct (valid_entry_wellTyped e (Hentries e He) (Hdeclared e He)) as [H1 H2];
    assumption.
Qed.

Lemma valid_record_wellFormed (rt : Runtime) (data : JsValue) :
  Rules.record rt data = true ->
  entriesAsDeclared data = true ->
  Spec.wellFormedRecord data = true
  /\ forallb keptPercentsInRange (Spec.areasOf data) = true.
Proof.
  unfold Rules.record, entriesAsDeclared, Spec.wellFormedRecord, Spec.areasWellFormed,
    Spec.areasOf.
  rewrite !andb_true_iff. intros [[[[Hpresent Href] _] _] Hareas] Hdeclared.
  destruct (allPresent_object _ _ _ Hpresent) as [props ->].
  destruct (Spec.field (JObj props) "areaScores") as [| | | | | areas |]; try discriminate.
  unfold Rules.entityRef in Href. apply andb_true_iff in Href. destruct Href as [Href _].
  rewrite !forallb_forall in *.
  split; [ split |].
  - destruct (Spec.field (JObj props) "entityRef"); try discriminate; reflexivity.
  - intros a Ha. now apply valid_area_wellFormed; [ apply Hareas | apply Hdeclared ].
  - intros a Ha. now apply valid_area_wellFormed; [ apply Hareas | apply Hdeclared ].
Qed.

(** X11: a record the validator accepts is aggregated without a throw.
    When [validateEntityScore] answers [true] on a fresh validator for a
    quiet record whose [isOptional] flags are booleans (the validator does
    not look at them) and whose arrays have fewer than [2^32] elements, as
    every array of the engine has, [processEntityFile] returns an output whose overall
    percent and area percents are whole numbers of 0..100, with one summary
    for each area. *)
Theorem X11_a_record_the_validator_accepts_is_aggregated
    (rt : Runtime) (data : JsValue)
    (Hquiet : quietRecord data = true)
    (Hdeclared : entriesAsDeclared data = true)
    (Hfits : arraysFit data = true)
    (Hvalid : snd (validateEntityScore rt data newScoreValidator) = Normal true) :
  exists (output : JsValue) (z : Z) (summaries : list JsValue),
    processEntityFile rt data = Normal output
    /\ Spec.field output "scorePercent" = JNum (ofZ z)
    /\ (0 <= z <= 100)%Z
    /\ Spec.field output "areaScores" = JArr summaries
    /\ List.length summaries = List.length (Spec.areasOf data)
    /\ Forall (fun summary =>
                 exists z', Spec.field summary "scorePercent" = JNum (ofZ z')
                            /\ (0 <= z' <= 100)%Z) summaries.
Proof.
  destruct (validateEntityScore_quiet rt data newScoreValidator Hquiet) as [ws Hrun].
  rewrite Hrun in Hvalid. cbn in Hvalid. injection Hvalid as Hrules.
  destruct (valid_record_wellFormed rt data Hrules Hdeclared) as [Hwf Hrange].
  now apply processEntityFile_percents.
Qed.

(** The sound record. *)
Lemma X11_witness :
  exists (output : JsValue) (z : Z) (summaries : list JsValue),
    processEntityFile Reference.runtime Example.soundRecord = Normal output
    /\ Spec.field output "scorePercent" = JNum (ofZ z)
    /\ (0 <= z <= 100)%Z
    /\ Spec.field output "areaScores" = JArr summaries
    /\ List.length summaries = List.length (Spec.areasOf Example.soundRecord)
    /\ Forall (fun summary =>
                 exists z', Spec.field summary "scorePercent" = JNum (ofZ z')
                            /\ (0 <= z' <= 100)%Z) summaries.
Proof.
  apply (X11_a_record_the_validator_accepts_is_aggregated
           Reference.runtime Example.soundRecord); vm_compute; reflexivity.
Defined.

(** ** Files, one validator or one for each *)

Lemma validateEntityScore_verdict (rt : Runtime) (data : JsValue)
    (held this' : ScoreValidator) (valid : bool) :
  validateEntityScore rt data held = (this', Normal valid) ->
  valid = (List.length (errors this') =? 0)%nat.
Proof.
  rewrite validateEntityScore_body. unfold bindV.
  destruct (validateEntityScoreBody rt data held) as [this1 [[] | e]];
    intros H; inversion H; reflexivity.
Qed.

Section FileFacts.

Variable h : Host.
Variable rt : Runtime.

Lemma validateFile_verdict (filePath : string) (held this' : ScoreValidator) (valid : bool) :
  validateFile h rt filePath held = (this', Normal valid) ->
  valid = (List.length (errors this') =? 0)%nat.
Proof.
  unfold validateFile. destruct (negb (existsSync h filePath)).
  - intros H. inversion H. cbn [errors]. rewrite length_app. cbn. now rewrite Nat.add_comm.
  - destruct (readJSON h filePath) as [data | error].
    + apply validateEntityScore_verdict.
    + intros H. inversion H. cbn [errors]. rewrite length_app. cbn. now rewrite Nat.add_comm.
Qed.

Lemma validateFile_on_held (filePath : string) (held : ScoreValidator) :
  let fresh := validateFile h rt filePath newScoreValidator in
  let after := validateFile h rt filePath held in
  errors (fst after) = errors held ++ errors (fst fresh)
  /\ warnings (fst after) = warnings held ++ warnings (fst fresh)
  /\ snd after
     = match snd fresh with
       | Normal valid => Normal (valid && (List.length (errors held) =? 0)%nat)
       | Throw e => Throw e
       end.
Proof.
  cbv zeta. unfold validateFile. destruct (negb (existsSync h filePath)).
  - cbn. now rewrite app_nil_r.
  - destruct (readJSON h filePath) as [data | error].
    + apply validateEntityScore_on_held.
    + cbn. now rewrite app_nil_r.
Qed.

Lemma validateEach_verdict (args : list string) (allValid : bool) (held : ScoreValidator) :
  snd (validateEach h rt args allValid held) = Normal true
  <-> allValid = true /\ Forall (validAlone h rt) args /\ (args = [] \/ errors held = []).
Proof.
  revert allValid held. induction args as [| filePath rest IH]; intros allValid held.
  - cbn. split.
    + intros H. injection H as ->. auto.
    + intros (-> & _ & _). reflexivity.
  - cbn [validateEach]. unfold bindV.
    destruct (validateFile_on_held filePath held) as (Herrors & _ & Hverdict).
    cbv zeta in Herrors, Hverdict.
    destruct (validateFile h rt filePath held) as [this1 [isValid | e]] eqn:Hafter;
      cbn [fst snd] in Herrors, Hverdict.
    + destruct (validateFile h rt filePath newScoreValidator) as [fresh [valid | e]] eqn:Hfresh;
        cbn [fst snd] in Herrors, Hverdict; [| discriminate ].
      injection Hverdict as ->.
      pose proof (validateFile_verdict _ _ _ _ Hfresh) as Hvalid. cbn [fst] in Hvalid.
      assert (Hhead : validAlone h rt filePath <-> valid = true).
      { unfold validAlone. rewrite Hfresh. cbn [snd]. split; congruence. }
      rewrite IH, Forall_cons_iff, Hhead, Herrors.
      destruct valid, (errors held) as [| m held']; cbn [andb negb List.length Nat.eqb app].
      * destruct (errors fresh); [| discriminate ].
        intuition congruence.
      * intuition congruence.
      * intuition congruence.
      * intuition congruence.
    + cbn [snd]. split; [ discriminate |].
      intros (_ & Hall & _). inversion Hall as [| ? ? Hfile _]. subst.
      unfold validAlone in Hfile.
      destruct (snd (validateFile h rt filePath newScoreValidator)); discriminate.
Qed.

Lemma validateEachAlone_verdict (files : list string) (hasErrors : bool) :
  validateEachAlone h rt files hasErrors = Normal false
  <-> hasErrors = false /\ Forall (validAlone h rt) files.
Proof.
  revert hasErrors. induction files as [| file rest IH]; intros hasErrors.
  - cbn. split.
    + intros H. injection H as ->. auto.
    + intros (-> & _). reflexivity.
  - cbn [validateEachAlone]. rewrite Forall_cons_iff.
    assert (Hhead : validAlone h rt file
                    <-> snd (validateFile h rt file newScoreValidator) = Normal true)
      by reflexivity.
    rewrite Hhead.
    destruct (validateFile h rt file newScoreValidator) as [validator [[|] | e]];
      cbn [snd negb printResults].
    + rewrite IH. intuition congruence.
    + rewrite IH. intuition congruence.
    + intuition congruence.
Qed.

End FileFacts.

(** X12: [validateFile] does not throw on a file it cannot read.  A
    missing file is the error "File not found", a read or a parse that
    throws is the error "Invalid JSON" with the message of the exception,
    and the verdict is [false]; a file that parses is validated as
    [validateEntityScore] validates its value.  Whenever [validateFile]
    returns, its verdict is [true] exactly when the validator holds no
    error. *)
Theorem X12_a_file_that_cannot_be_read_is_an_error_not_a_throw
    (h : Host) (rt : Runtime) (filePath : string) (held : ScoreValidator) :
  (existsSync h filePath = false ->
   validateFile h rt filePath held
   = ({| errors := errors held ++ [ "❌ ERROR: File not found: " +++ filePath ];
         warnings := warnings held |}, Normal false))
  /\ (forall error,
         existsSync h filePath = true ->
         readJSON h filePath = Throw error ->
         validateFile h rt filePath held
         = ({| errors := errors held ++ [ "❌ ERROR: Invalid JSON: " +++ messageOf h filePath error ];
               warnings := warnings held |}, Normal false))
  /\ (forall data,
         existsSync h filePath = true ->
         readJSON h filePath = Normal data ->
         validateFile h rt filePath held = validateEntityScore rt data held)
  /\ (forall this' valid,
         validateFile h rt filePath held = (this', Normal valid) ->
         (valid = true <-> errors this' = [])).
Proof.
  split; [| split; [| split ] ].
  - intros Hexists. unfold validateFile. now rewrite Hexists.
  - intros error Hexists Hread. unfold validateFile. now rewrite Hexists, Hread.
  - intros data Hexists Hread. unfold validateFile. now rewrite Hexists, Hread.
  - intros this' valid Hreturns. rewrite (validateFile_verdict h rt _ _ _ _ Hreturns).
    destruct (errors this'); cbn; split; intros H; try reflexivity; discriminate.
Qed.

(** X13: the command line of validate-scores.js exits with the code 0
    exactly when it is given one file at least and every file is valid when
    it is validated alone: the one validator the command shares between the
    files keeps their errors, and the conjunction of its verdicts is what
    fresh validators would say.  Without a file the code is 1; no other
    code than 0 and 1 is given. *)
Theorem X13_the_command_exits_with_0_when_every_file_is_valid_alone
    (h : Host) (rt : Runtime) (args : list string) :
  (validateScoresCommand h rt args = Normal 0%nat
   <-> args <> [] /\ Forall (validAlone h rt) args)
  /\ (forall code, validateScoresCommand h rt args = Normal code -> code = 0%nat \/ code = 1%nat)
  /\ validateScoresCommand h rt [] = Normal 1%nat.
Proof.
  split; [| split; [| reflexivity ] ].
  - unfold validateScoresCommand. destruct args as [| filePath rest].
    + cbn. split; [ discriminate | intros [H _]; contradiction ].
    + cbn [List.length Nat.eqb].
      pose proof (validateEach_verdict h rt (filePath :: rest) true newScoreValidator) as Hloop.
      unfold bindV at 1.
      destruct (validateEach h rt (filePath :: rest) true newScoreValidator)
        as [final [[|] | e]]; cbn [snd] in Hloop |- *.
      * split; [ intros _ | reflexivity ].
        split; [ discriminate | now apply Hloop ].
      * split; [ discriminate |]. intros [_ Hall].
        assert (Hfalse : @Normal bool false = Normal true) by (apply Hloop; auto).
        discriminate.
      * split; [ discriminate |]. intros [_ Hall].
        assert (Hfalse : @Throw bool e = Normal true) by (apply Hloop; auto).
        discriminate.
  - intros code. unfold validateScoresCommand.
    destruct (List.length args =? 0)%nat; [ intros H; injection H as <-; auto |].
    unfold bindV at 1.
    destruct (validateEach h rt args true newScoreValidator) as [final [[|] | e]];
      cbn; intros H; try discriminate; injection H as <-; auto.
Qed.

(** X14: [validateChangedFiles] of process-pr-merge.js, which validates
    each file on a validator of its own, reports success exactly when every
    file is valid alone; on a list that is not empty, that is exactly when
    the command line of validate-scores.js exits with 0 on the same files.
    What it returns otherwise has [success: false] and an [error]. *)
Theorem X14_the_merge_check_and_the_command_agree
    (h : Host) (rt : Runtime) (files : list string)
    (Hfiles : files <> []) :
  (validateChangedFiles h rt files = Normal (JObj [ ("success", JBool true) ])
   <-> Forall (validAlone h rt) files)
  /\ (validateChangedFiles h rt files = Normal (JObj [ ("success", JBool true) ])
      <-> validateScoresCommand h rt files = Normal 0%nat)
  /\ (forall result,
         validateChangedFiles h rt files = Normal result ->
         Spec.field result "success" = JBool true
         \/ (Spec.field result "success" = JBool false
             /\ Spec.present (Spec.field result "error") = true)).
Proof.
  assert (Hmerge : validateChangedFiles h rt files = Normal (JObj [ ("success", JBool true) ])
                   <-> Forall (validAlone h rt) files).
  { unfold validateChangedFiles.
    pose proof (validateEachAlone_verdict h rt files false) as Hloop.
    destruct (validateEachAlone h rt files false) as [[|] | e]; cbn [bindC].
    - split; [ discriminate |]. intros Hall.
      assert (Hfalse : @Normal bool true = Normal false) by (apply Hloop; auto).
      discriminate.
    - split; [ intros _; now apply Hloop | reflexivity ].
    - split; [ discriminate |]. intros Hall.
      assert (Hfalse : @Throw bool e = Normal false) by (apply Hloop; auto).
      discriminate. }
  split; [ exact Hmerge |]. split.
  - rewrite Hmerge.
    assert (Hcommand : validateScoresCommand h rt files = Normal 0%nat
                       <-> files <> [] /\ Forall (validAlone h rt) files).
    { unfold validateScoresCommand. destruct files as [| filePath rest]; [ contradiction |].
      cbn [List.length Nat.eqb].
      pose proof (validateEach_verdict h rt (filePath :: rest) true newScoreValidator) as Hloop.
      unfold bindV at 1.
      destruct (validateEach h rt (filePath :: rest) true newScoreValidator)
        as [final [[|] | e]]; cbn [snd] in Hloop |- *.
      - split; [ intros _ | reflexivity ].
        split; [ discriminate | now apply Hloop ].
      - split; [ discriminate |]. intros [_ Hall].
        assert (Hfalse : @Normal bool false = Normal true) by (apply Hloop; auto).
        discriminate.
      - split; [ discriminate |]. intros [_ Hall].
        assert (Hfalse : @Throw bool e = Normal true) by (apply Hloop; auto).
        discriminate. }
    rewrite Hcommand. tauto.
  - intros result. unfold validateChangedFiles.
    destruct (validateEachAlone h rt files false) as [[|] | e]; cbn [bindC];
      intros H; try discriminate; injection H as <-; [ right | left ]; auto.
Qed.

(** One valid file: both say so. *)
Lemma X14_witness :
  validateChangedFiles Disk.host Reference.runtime [ "entity-scores/billing-service.json" ]
  = Normal (JObj [ ("success", JBool true) ])
  /\ validateScoresCommand Disk.host Reference.runtime [ "entity-scores/billing-service.json" ]
     = Normal 0%nat.
Proof.
  assert (Hfiles : [ "entity-scores/billing-service.json" ] <> []) by discriminate.
  destruct (X14_the_merge_check_and_the_command_agree Disk.host Reference.runtime
              [ "entity-scores/billing-service.json" ] Hfiles) as (_ & Hagree & _).
  assert (Hmerge : validateChangedFiles Disk.host Reference.runtime
                     [ "entity-scores/billing-service.json" ]
                   = Normal (JObj [ ("success", JBool true) ]))
    by (vm_compute; reflexivity).
  split; [ exact Hmerge | exact (proj1 Hagree Hmerge) ].
Defined.

(** ** The batch *)

Section BatchFacts.

Variable h : Host.
Variable rt : Runtime.

Lemma processEntityFile_returns_an_object (data output : JsValue) :
  processEntityFile rt data = Normal output -> truthy output = true.
Proof.
  intros H. apply processEntityFile_shape in H.
  destruct H as (percent & label & success & summaries & -> & _). reflexivity.
Qed.

Lemma processEntityFileAt_returns_an_object (file : string) (output : JsValue) :
  processEntityFileAt h rt file = Normal output -> truthy output = true.
Proof.
  unfold processEntityFileAt.
  destruct (readFileSync h file) as [content |]; [| discriminate ]. cbn [bindC].
  destruct (JSONparse h content) as [data |]; [| discriminate ]. cbn [bindC].
  apply processEntityFile_returns_an_object.
Qed.

Lemma fold_processOne (this : ScoreCalculator) (files : list string)
    (acc : list JsValue * list string) :
  fold_left (processOne h rt this) files acc
  = (fst acc ++ processedScores h rt files, snd acc ++ processingErrors h rt this files).
Proof.
  revert acc. induction files as [| file files IH]; intros [scores errors].
  - cbn. now rewrite !app_nil_r.
  - cbn [fold_left]. rewrite IH. unfold processedScores, processingErrors.
    cbn [flat_map]. unfold processOne.
    destruct (processEntityFileAt h rt file) as [entityScore | error] eqn:Hfile.
    + rewrite (processEntityFileAt_returns_an_object file entityScore Hfile).
      destruct (verbose this); [ destruct (processedLine rt entityScore) |];
        cbn [fst snd]; rewrite <- ?app_assoc; cbn [app]; rewrite ?app_nil_r; reflexivity.
    + cbn [fst snd]. rewrite <- ?app_assoc. cbn [app]. reflexivity.
Qed.

Lemma processed_or_failed (files : list string) :
  (List.length (processedScores h rt files) + List.length (failedFiles h rt files)
   = List.length files)%nat.
Proof.
  unfold processedScores, failedFiles.
  induction files as [| file files IH]; [ reflexivity |].
  cbn [flat_map filter]. destruct (processEntityFileAt h rt file);
    cbn [app List.length]; lia.
Qed.

Lemma quiet_processingErrors (this : ScoreCalculator) (files : list string) :
  verbose this = false ->
  processingErrors h rt this files
  = flat_map (fun file =>
                match processEntityFileAt h rt file with
                | Normal _ => []
                | Throw error => [ processingError h file error ]
                end) files.
Proof.
  intros Hquiet. unfold processingErrors. apply flat_map_ext. intros file.
  rewrite Hquiet. reflexivity.
Qed.

Lemma quiet_processingErrors_length (this : ScoreCalculator) (files : list string) :
  verbose this = false ->
  List.length (processingErrors h rt this files) = List.length (failedFiles h rt files).
Proof.
  intros Hquiet. rewrite (quiet_processingErrors this files Hquiet). unfold failedFiles.
  induction files as [| file files IH]; [ reflexivity |].
  cbn [flat_map filter]. destruct (processEntityFileAt h rt file);
    cbn [app List.length]; now rewrite IH.
Qed.

(** *** sorting *)

Lemma insertC_Permutation {A} (compare : A -> A -> completion Z) (x : A)
    (sorted result : list A) :
  insertC compare x sorted = Normal result -> Permutation result (x :: sorted).
Proof.
  revert result. induction sorted as [| y sorted IH]; intros result; cbn [insertC].
  - intros H. injection H as <-. reflexivity.
  - destruct (compare x y) as [c |]; [| discriminate ]. cbn [bindC].
    destruct (c <? 0)%Z.
    + intros H. injection H as <-. reflexivity.
    + destruct (insertC compare x sorted) as [r |]; [| discriminate ]. cbn [bindC].
      intros H. injection H as <-.
      rewrite (IH r eq_refl). apply perm_swap.
Qed.

Lemma reduce_insertC_Permutation {A} (compare : A -> A -> completion Z)
    (l acc result : list A) :
  reduceC (fun sorted x => insertC compare x sorted) l acc = Normal result ->
  Permutation result (acc ++ l).
Proof.
  revert acc. induction l as [| x l IH]; intros acc; cbn [reduceC].
  - intros H. injection H as <-. now rewrite app_nil_r.
  - destruct (insertC compare x acc) as [acc' |] eqn:Hinsert; [| discriminate ].
    cbn [bindC]. intros H. rewrite (IH _ H).
    rewrite (insertC_Permutation _ _ _ _ Hinsert).
    cbn [app]. apply Permutation_middle.
Qed.

Lemma sortC_Permutation {A} (compare : A -> A -> completion Z) (l result : list A) :
  sortC compare l = Normal result -> Permutation result l.
Proof. apply (reduce_insertC_Permutation compare l []). Qed.

Lemma compareByName_named (a b : JsValue) :
  hasNameText a = true -> hasNameText b = true ->
  compareByName h rt a b = Normal (localeCompare h (nameText a) (nameText b)).
Proof.
  unfold hasNameText, nameText, nameOf, compareByName.
  intros Ha Hb.
  assert (Hget : forall v k x, Spec.field v k = JStr x -> Get v k = Normal (JStr x)).
  { intros v k x Hx. rewrite <- Hx. apply Get_of_object.
    destruct v; try discriminate; reflexivity. }
  assert (Hobj : forall v x, Spec.field (Spec.field v "entityRef") "name" = JStr x ->
                             Get v "entityRef" = Normal (Spec.field v "entityRef")).
  { intros v x Hx. apply Get_of_object.
    destruct v as [| | | | | | props]; try discriminate; reflexivity. }
  destruct (Spec.field (Spec.field a "entityRef") "name") as [| | | | s | |] eqn:Hs;
    try discriminate.
  destruct (Spec.field (Spec.field b "entityRef") "name") as [| | | | t | |] eqn:Ht;
    try discriminate.
  rewrite (Hobj a s Hs), (Hobj b t Ht). cbn [bindC].
  rewrite (Hget _ _ _ Hs), (Hget _ _ _ Ht). reflexivity.
Qed.

Lemma compareByName_unnamed (a b : JsValue) :
  hasNameText a = false -> exists e, compareByName h rt a b = Throw e.
Proof.
  unfold hasNameText, nameOf, compareByName. intros Ha.
  destruct a as [| | | | | | props]; try (eexists; reflexivity).
  rewrite Get_object. cbn [bindC].
  destruct (Spec.field (JObj props) "entityRef") as [| | | | | | refProps] eqn:Href;
    try (eexists; reflexivity);
    rewrite ?Get_object; cbn [Get bindC];
    (destruct (Get b "entityRef") as [entityRef' |]; [| eexists; reflexivity ]);
    cbn [bindC];
    (destruct (Get entityRef' "name") as [name' |]; [| eexists; reflexivity ]);
    cbn [bindC];
    try (eexists; reflexivity).
  destruct (Spec.field (JObj refProps) "name"); try discriminate; eexists; reflexivity.
Qed.

Hypothesis collation : consistentCollation h.

Lemma insertC_sorted (x : JsValue) (sorted : list JsValue) :
  hasNameText x = true ->
  forallb hasNameText sorted = true ->
  StronglySorted (inNameOrder h) sorted ->
  exists result,
    insertC (compareByName h rt) x sorted = Normal result
    /\ StronglySorted (inNameOrder h) result.
Proof.
  destruct collation as (Htotal & Htrans & Hsame).
  intros Hx. induction sorted as [| y sorted IH]; intros Hnamed Hsorted.
  - exists [ x ]. split; [ reflexivity |]. repeat constructor.
  - cbn [forallb] in Hnamed. apply andb_true_iff in Hnamed. destruct Hnamed as [Hy Hrest].
    apply StronglySorted_inv in Hsorted. destruct Hsorted as [Hsorted Hhead].
    cbn [insertC]. rewrite (compareByName_named x y Hx Hy). cbn [bindC].
    destruct (localeCompare h (nameText x) (nameText y) <? 0)%Z eqn:Hlt.
    + exists (x :: y :: sorted). split; [ reflexivity |].
      assert (Hxy : inNameOrder h x y) by (unfold inNameOrder; lia).
      constructor; [ now constructor |].
      constructor; [ exact Hxy |].
      apply Forall_forall. intros z Hz. rewrite Forall_forall in Hhead.
      exact (Htrans _ _ _ Hxy (Hhead z Hz)).
    + destruct (IH Hrest Hsorted) as (r & Hr & Hrsorted). rewrite Hr. cbn [bindC].
      exists (y :: r). split; [ reflexivity |].
      constructor; [ exact Hrsorted |].
      apply Forall_forall. intros z Hz.
      apply (Permutation_in _ (insertC_Permutation _ _ _ _ Hr)) in Hz.
      destruct Hz as [<- | Hz].
      * unfold inNameOrder. apply Z.ltb_ge in Hlt.
        destruct (Z.eq_dec (localeCompare h (nameText x) (nameText y)) 0) as [E | E].
        -- rewrite (Hsame _ _ E). lia.
        -- destruct (Htotal (nameText x) (nameText y)) as [H | H]; [ lia | exact H ].
      * rewrite Forall_forall in Hhead. now apply Hhead.
Qed.

Lemma insertC_named (x : JsValue) (sorted result : list JsValue) :
  hasNameText x = true -> forallb hasNameText sorted = true ->
  insertC (compareByName h rt) x sorted = Normal result ->
  forallb hasNameText result = true.
Proof.
  intros Hx Hsorted Hresult. apply insertC_Permutation in Hresult.
  apply (forallb_Permutation _ (x :: sorted)); [ now symmetry |].
  cbn [forallb]. now rewrite Hx.
Qed.

Lemma reduce_insertC_sorted (l acc : list JsValue) :
  forallb hasNameText l = true ->
  forallb hasNameText acc = true ->
  StronglySorted (inNameOrder h) acc ->
  exists result,
    reduceC (fun sorted x => insertC (compareByName h rt) x sorted) l acc = Normal result
    /\ StronglySorted (inNameOrder h) result.
Proof.
  revert acc. induction l as [| x l IH]; intros acc Hl Hacc Hsorted.
  - exists acc. split; [ reflexivity | exact Hsorted ].
  - cbn [forallb] in Hl. apply andb_true_iff in Hl. destruct Hl as [Hx Hl].
    destruct (insertC_sorted x acc Hx Hacc Hsorted) as (acc' & Hinsert & Hsorted').
    cbn [reduceC]. rewrite Hinsert. cbn [bindC].
    apply IH; [ exact Hl | | exact Hsorted' ].
    exact (insertC_named x acc acc' Hx Hacc Hinsert).
Qed.

Lemma sortC_sorted (l : list JsValue) :
  forallb hasNameText l = true ->
  exists result,
    sortC (compareByName h rt) l = Normal result
    /\ StronglySorted (inNameOrder h) result
    /\ Permutation result l.
Proof.
  intros Hl.
  destruct (reduce_insertC_sorted l [] Hl eq_refl (SSorted_nil _)) as (result & Hsort & Hsorted).
  exists result. split; [ exact Hsort |]. split; [ exact Hsorted |].
  now apply sortC_Permutation in Hsort.
Qed.

End BatchFacts.

Lemma compareStrings_le (a b : string) :
  (Disk.compareStrings a b <= 0)%Z <-> String_as_OT.lt a b \/ a = b.
Proof.
  unfold Disk.compareStrings.
  destruct (String.compare a b) eqn:Hcompare.
  - apply String_as_OT.cmp_eq in Hcompare. split; [ now right | lia ].
  - apply String_as_OT.cmp_lt in Hcompare. split; [ now left | lia ].
  - split; [ lia |]. intros [Hlt | Heq].
    + apply String_as_OT.cmp_lt in Hlt. unfold String_as_OT.cmp in Hlt. congruence.
    + apply String_as_OT.cmp_eq in Heq. unfold String_as_OT.cmp in Heq. congruence.
Qed.

Lemma Disk_collation : consistentCollation Disk.host.
Proof.
  split; [| split ].
  - intros a b. cbn [localeCompare Disk.host].
    unfold Disk.compareStrings. rewrite (String.compare_antisym b a).
    destruct (String.compare a b); cbn; lia.
  - intros a b c. cbn [localeCompare Disk.host]. rewrite !compareStrings_le.
    intros [Hab | ->] [Hbc | ->]; auto.
    left. exact (String_as_OT.lt_trans _ _ _ Hab Hbc).
  - intros a b. cbn [localeCompare Disk.host].
    unfold Disk.compareStrings. rewrite (String.compare_antisym b a).
    destruct (String.compare a b); cbn; intros H; try reflexivity; discriminate H.
Qed.

Lemma Disk_writes (this : ScoreCalculator) (scores : list JsValue) :
  snd (writeOutputFile Disk.host this scores) = Normal tt.
Proof.
  unfold writeOutputFile.
  destruct (negb (existsSync Disk.host (pathDirname Disk.host (outputFile this))));
    reflexivity.
Qed.

(** X15: [calculateAllScores] accounts for every file.  When it returns,
    [scores] is a permutation of the outputs of the files
    [processEntityFile] returns on, [errors] holds the messages of the
    loop in the order of the files, [totalEntities] is the number of
    scores, the scores and the files that failed add up to the files of the
    directory, and the scores are what was written to the output file.
    With [verbose] a processed file whose name does not print is both a
    score and an error; without, errors and scores add up to the files. *)
Theorem X15_every_file_gives_a_score_or_an_error
    (h : Host) (rt : Runtime) (this : ScoreCalculator) (files : list string)
    (effects : list FsEffect) (result : JsValue)
    (Hfiles : getEntityScoreFiles h this = Normal files)
    (Hreturns : calculateAllScores h rt this = (effects, Normal result)) :
  exists scores,
    result = JObj [ ("scores", JArr scores);
                    ("errors", JArr (map JStr (processingErrors h rt this files)));
                    ("totalEntities", JNum (ofNat (List.length scores))) ]
    /\ Permutation scores (processedScores h rt files)
    /\ (List.length scores + List.length (failedFiles h rt files) = List.length files)%nat
    /\ (verbose this = false ->
        (List.length scores + List.length (processingErrors h rt this files)
         = List.length files)%nat)
    /\ In (WriteFile (outputFile this) (JSONstringify h (JArr scores))) effects.
Proof.
  unfold calculateAllScores in Hreturns. rewrite Hfiles in Hreturns.
  cbv zeta in Hreturns. rewrite fold_processOne in Hreturns. cbn [fst snd app] in Hreturns.
  destruct (sortC (compareByName h rt) (processedScores h rt files)) as [scores | e] eqn:Hsort;
    [| discriminate ].
  pose proof (sortC_Permutation _ _ _ Hsort) as Hperm.
  exists scores.
  assert (Hwrite : In (WriteFile (outputFile this) (JSONstringify h (JArr scores)))
                      (fst (writeOutputFile h this scores))
                   \/ exists e, snd (writeOutputFile h this scores) = Throw e).
  { unfold writeOutputFile. destruct (negb (existsSync h _)).
    - destruct (mkdirSync h _); [ left; cbn; auto | right; eexists; reflexivity ].
    - left. cbn. auto. }
  destruct (writeOutputFile h this scores) as [effects' [[] | e]]; [| discriminate ].
  injection Hreturns as <- <-.
  split; [ reflexivity |]. split; [ exact Hperm |].
  rewrite (Permutation_length Hperm). split; [ apply processed_or_failed |].
  split.
  - intros Hquiet. rewrite (quiet_processingErrors_length h rt this files Hquiet).
    apply processed_or_failed.
  - destruct Hwrite as [Hin | [e He]]; [ exact Hin | discriminate ].
Qed.

(** X16: when the names of the processed records are strings and
    [localeCompare] is a total and transitive order, in which two names that
    compare equal do so both ways, [calculateAllScores] sorts without a
    throw: the scores are in the order of their names and
    are a permutation of the outputs, and they are returned unless writing
    the output file throws. *)
Theorem X16_the_scores_come_out_in_the_order_of_the_names
    (h : Host) (rt : Runtime) (this : ScoreCalculator) (files : list string)
    (Hcollation : consistentCollation h)
    (Hfiles : getEntityScoreFiles h this = Normal files)
    (Hnamed : forallb hasNameText (processedScores h rt files) = true) :
  exists scores,
    StronglySorted (inNameOrder h) scores
    /\ Permutation scores (processedScores h rt files)
    /\ calculateAllScores h rt this
       = (fst (writeOutputFile h this scores),
          match snd (writeOutputFile h this scores) with
          | Normal _ =>
              Normal (JObj [ ("scores", JArr scores);
                             ("errors", JArr (map JStr (processingErrors h rt this files)));
                             ("totalEntities", JNum (ofNat (List.length scores))) ])
          | Throw error => Throw error
          end).
Proof.
  destruct (sortC_sorted h rt Hcollation _ Hnamed) as (scores & Hsort & Hsorted & Hperm).
  exists scores. split; [ exact Hsorted |]. split; [ exact Hperm |].
  unfold calculateAllScores. rewrite Hfiles. cbv zeta. rewrite fold_processOne.
  cbn [fst snd app]. rewrite Hsort.
  destruct (writeOutputFile h this scores) as [effects [[] | e]]; reflexivity.
Qed.

(** X17: two processed records or more, none of which has a string for
    its name: the comparison of [sort] calls [localeCompare] on a name that
    has none, [calculateAllScores] throws, and nothing is written. *)
Theorem X17_records_without_a_name_stop_the_batch
    (h : Host) (rt : Runtime) (this : ScoreCalculator) (files : list string)
    (first second : JsValue) (others : list JsValue)
    (Hfiles : getEntityScoreFiles h this = Normal files)
    (Hprocessed : processedScores h rt files = first :: second :: others)
    (Hunnamed : forallb (fun score => negb (hasNameText score))
                  (first :: second :: others) = true) :
  exists error, calculateAllScores h rt this = ([], Throw error).
Proof.
  cbn [forallb] in Hunnamed. apply andb_true_iff in Hunnamed.
  destruct Hunnamed as [_ Hsecond]. apply andb_true_iff in Hsecond.
  destruct Hsecond as [Hsecond _]. apply negb_true_iff in Hsecond.
  destruct (compareByName_unnamed h rt second first Hsecond) as [e He].
  exists e. unfold calculateAllScores. rewrite Hfiles. cbv zeta. rewrite fold_processOne.
  cbn [fst snd app]. rewrite Hprocessed.
  unfold sortC. cbn [reduceC insertC bindC]. rewrite He. reflexivity.
Qed.

(** The disk of the examples: four files, two scores and two errors.  The
    disk of the two values that are no records: no score, and the two
    errors with the texts of their two [TypeError]s. *)
Lemma X15_witness :
  (exists scores,
      snd (calculateAllScores Disk.host Reference.runtime Disk.calculator)
      = Normal (JObj [ ("scores", JArr scores);
                       ("errors",
                        JArr (map JStr (processingErrors Disk.host Reference.runtime
                                          Disk.calculator Disk.entityFiles)));
                       ("totalEntities", JNum (ofNat (List.length scores))) ])
      /\ Permutation scores (processedScores Disk.host Reference.runtime Disk.entityFiles)
      /\ (List.length scores = 2)%nat)
  /\ snd (calculateAllScores Disk.malformed Reference.runtime Disk.calculator)
     = Normal (JObj [ ("scores", JArr []);
                      ("errors",
                       JArr [ JStr "Error processing entity-scores/null.json: Cannot read properties of null (reading 'entityRef')";
                              JStr "Error processing entity-scores/areas.json: data.areaScores.map is not a function" ]);
                      ("totalEntities", Example.num 0) ]).
Proof.
  split; [| vm_compute; reflexivity ].
  destruct (calculateAllScores Disk.host Reference.runtime Disk.calculator)
    as [effects [result | error]] eqn:Hrun;
    [| vm_compute in Hrun; discriminate ].
  assert (Hfiles : getEntityScoreFiles Disk.host Disk.calculator = Normal Disk.entityFiles)
    by (vm_compute; reflexivity).
  destruct (X15_every_file_gives_a_score_or_an_error Disk.host Reference.runtime
              Disk.calculator Disk.entityFiles effects result Hfiles Hrun)
    as (scores & -> & Hperm & Hcount & _).
  exists scores. split; [ reflexivity |]. split; [ exact Hperm |].
  assert (Hfailed : List.length (failedFiles Disk.host Reference.runtime Disk.entityFiles)
                    = 2%nat) by (vm_compute; reflexivity).
  rewrite Hfailed in Hcount. cbn [List.length Disk.entityFiles] in Hcount. lia.
Defined.

(** The disk of the examples: billing-service comes before ledger. *)
Lemma X16_witness :
  exists scores,
    StronglySorted (inNameOrder Disk.host) scores
    /\ Permutation scores (processedScores Disk.host Reference.runtime Disk.entityFiles)
    /\ map nameOf scores = [ JStr "billing-service"; JStr "ledger" ].
Proof.
  assert (Hfiles : getEntityScoreFiles Disk.host Disk.calculator = Normal Disk.entityFiles)
    by (vm_compute; reflexivity).
  assert (Hnamed : forallb hasNameText
                     (processedScores Disk.host Reference.runtime Disk.entityFiles) = true)
    by (vm_compute; reflexivity).
  destruct (X16_the_scores_come_out_in_the_order_of_the_names Disk.host Reference.runtime
              Disk.calculator Disk.entityFiles Disk_collation Hfiles Hnamed)
    as (scores & Hsorted & Hperm & Hrun).
  exists scores. split; [ exact Hsorted |]. split; [ exact Hperm |].
  assert (Hscores : Spec.field
                      (match snd (calculateAllScores Disk.host Reference.runtime
                                    Disk.calculator) with
                       | Normal result => result
                       | Throw _ => JNull
                       end) "scores" = JArr scores).
  { rewrite Hrun. cbn [snd]. now rewrite Disk_writes. }
  vm_compute in Hscores. injection Hscores as <-. vm_compute. reflexivity.
Defined.

(** The disk with two records that carry no name. *)
Lemma X17_witness :
  exists error,
    calculateAllScores Disk.unnamed Reference.runtime Disk.calculator = ([], Throw error).
Proof.
  eapply (X17_records_without_a_name_stop_the_batch Disk.unnamed Reference.runtime
            Disk.calculator [ "entity-scores/first.json"; "entity-scores/second.json" ]).
  - vm_compute. reflexivity.
  - lazy. reflexivity.
  - vm_compute. reflexivity.
Defined.

(** ** The files of a pull request *)

Lemma stripPrefix_app (p s : string) : stripPrefix p (p +++ s) = Some s.
Proof.
  induction p as [| c p IH]; cbn; [ reflexivity |]. now rewrite Ascii.eqb_refl.
Qed.

Lemma stripPrefix_Some (p s rest : string) : stripPrefix p s = Some rest -> s = p +++ rest.
Proof.
  revert s. induction p as [| c p IH]; intros s; cbn.
  - intros H. now injection H as ->.
  - destruct s as [| d s]; [ discriminate |].
    destruct (Ascii.eqb c d) eqn:Hcd; [| discriminate ].
    apply Ascii.eqb_eq in Hcd. subst d. intros H. now rewrite (IH s H).
Qed.

Lemma noSlash_app (a b : string) : noSlash (a +++ b) = noSlash a && noSlash b.
Proof.
  induction a as [| c a IH]; cbn; [ reflexivity |]. now rewrite IH, andb_assoc.
Qed.

Lemma length_append (a b : string) :
  String.length (a +++ b) = (String.length a + String.length b)%nat.
Proof. induction a as [| c a IH]; cbn; [ reflexivity | now rewrite IH ]. Qed.

Lemma substring_at (m n : nat) (s t : string) :
  substring m n s = t -> String.length t = n -> (0 < n)%nat ->
  exists pre post, s = pre +++ t +++ post /\ String.length pre = m.
Proof.
  revert s. induction m as [| m IH]; intros s Hsub Hlen Hn.
  - destruct (substring_prefix n s t Hsub Hlen) as [post ->]. now exists "", post.
  - destruct s as [| c s].
    + exfalso. destruct n; [ lia |]. cbn in Hsub. subst t. discriminate.
    + cbn in Hsub. destruct (IH s Hsub Hlen Hn) as (pre & post & -> & Hpre).
      exists (String c pre), post. split; [ reflexivity | cbn; now rewrite Hpre ].
Qed.

Lemma endsWith_append (suffix name : string) : endsWith suffix (name +++ suffix) = true.
Proof.
  unfold endsWith. rewrite length_append.
  replace (String.length name + String.length suffix - String.length suffix)%nat
    with (String.length name) by lia.
  rewrite andb_true_iff. split; [ apply Nat.leb_le; lia |].
  apply String.eqb_eq.
  pose proof (substring_of_inside name suffix "") as H.
  replace (suffix +++ "") with suffix in H; [ exact H |].
  clear H. induction suffix as [| c suffix IH]; cbn; [ reflexivity | now rewrite <- IH ].
Qed.

Lemma endsWith_split (suffix s : string) :
  suffix <> "" -> endsWith suffix s = true -> exists name, s = name +++ suffix.
Proof.
  unfold endsWith. intros Hsuffix H. apply andb_true_iff in H. destruct H as [Hle Heq].
  apply Nat.leb_le in Hle. apply String.eqb_eq in Heq.
  assert (Hn : (0 < String.length suffix)%nat).
  { destruct suffix; [ contradiction | cbn; lia ]. }
  destruct (substring_at _ _ _ _ Heq eq_refl Hn) as (pre & post & Hs & Hpre).
  exists pre. rewrite Hs at 1.
  assert (Hlen : String.length s
                 = (String.length pre + (String.length suffix + String.length post))%nat).
  { rewrite Hs at 1. now rewrite !length_append. }
  assert (Hpost : post = "").
  { destruct post; [ reflexivity | cbn in Hlen; lia ]. }
  subst post. f_equal.
  clear. induction suffix as [| c suffix IH]; cbn; [ reflexivity | now rewrite IH ].
Qed.

Lemma entityScorePattern_reads (file : string) :
  entityScorePattern file = true
  <-> exists name,
        file = "entity-scores/" +++ name +++ ".json" /\ name <> "" /\ noSlash name = true.
Proof.
  unfold entityScorePattern. split.
  - destruct (stripPrefix "entity-scores/" file) as [rest |] eqn:Hrest; [| discriminate ].
    apply stripPrefix_Some in Hrest. rewrite !andb_true_iff.
    intros [[Hslash Hjson] Hlong]. apply Nat.ltb_lt in Hlong.
    destruct (endsWith_split ".json" rest) as [name Hname]; [ discriminate | exact Hjson |].
    exists name. subst rest. split; [ exact Hrest |].
    rewrite noSlash_app in Hslash. apply andb_true_iff in Hslash.
    split; [| tauto ].
    intros ->. cbn in Hlong. lia.
  - intros (name & -> & Hname & Hslash).
    rewrite stripPrefix_app, noSlash_app, Hslash, endsWith_append, length_append.
    cbn [andb noSlash]. apply Nat.ltb_lt.
    destruct name; [ contradiction | cbn; lia ].
Qed.

(** X18: of the files a pull request changed, [filterEntityScoreFiles]
    keeps, in their order, those that exist and are named
    "entity-scores/<name>.json" with a name that is not empty and has no
    "/": nothing of a subdirectory, nothing outside of the directory, no
    file that was deleted. *)
Theorem X18_only_the_records_of_the_directory_are_picked
    (h : Host) (changedFiles : list string)
    (Hchanged : changedFiles <> []) :
  filterEntityScoreFiles h changedFiles
  = Normal (filter (existsSync h) (filter entityScorePattern changedFiles))
  /\ (forall file,
         In file (filter (existsSync h) (filter entityScorePattern changedFiles))
         <-> In file changedFiles
             /\ existsSync h file = true
             /\ exists name,
                  file = "entity-scores/" +++ name +++ ".json"
                  /\ name <> "" /\ noSlash name = true).
Proof.
  split.
  - unfold filterEntityScoreFiles.
    destruct changedFiles as [| file files]; [ contradiction | reflexivity ].
  - intros f. rewrite !filter_In, entityScorePattern_reads. tauto.
Qed.

(** Six changed files, one of which is a record of the directory that exists. *)
Lemma X18_witness :
  filterEntityScoreFiles Disk.host
    [ "README.md"; "entity-scores/ledger.json"; "entity-scores/drafts/ledger.json";
      "entity-scores/removed.json"; "scores/ledger.json"; "entity-scores/.json" ]
  = Normal [ "entity-scores/ledger.json" ].
Proof.
  assert (Hchanged : [ "README.md"; "entity-scores/ledger.json";
                       "entity-scores/drafts/ledger.json"; "entity-scores/removed.json";
                       "scores/ledger.json"; "entity-scores/.json" ] <> [])
    by discriminate.
  rewrite (proj1 (X18_only_the_records_of_the_directory_are_picked
                    Disk.host _ Hchanged)).
  vm_compute. reflexivity.
Defined.

(** ** The command line of calculate-scores.js *)

Lemma parseArguments_skips (arg : string) (rest : list string) (options : Options) :
  isOption arg = false -> parseArguments (arg :: rest) options = parseArguments rest options.
Proof.
  unfold isOption. rewrite !orb_false_iff. intros [[[Hdir Houtput] Hverbose] Hhelp].
  cbn [parseArguments]. now rewrite Hdir, Houtput, Hverbose, Hhelp.
Qed.

Lemma parseArguments_ignores_within (n : nat) :
  forall (before after : list string) (arg : string) (options : Options),
    (List.length before <= n)%nat ->
    expectsValue before = false ->
    isOption arg = false ->
    parseArguments (before ++ arg :: after) options
    = parseArguments (before ++ after) options.
Proof.
  induction n as [| n IH]; intros before after arg options Hlength Hvalue Harg.
  - destruct before; [| cbn in Hlength; lia ]. now apply parseArguments_skips.
  - destruct before as [| first before]; [ now apply parseArguments_skips |].
    cbn [List.length] in Hlength. cbn [expectsValue] in Hvalue.
    cbn [app parseArguments].
    destruct (String.eqb first "--entity-scores-dir") eqn:Hdir; cbn [orb] in Hvalue.
    { destruct before as [| value before]; [ discriminate |].
      cbn [app]. apply IH; [ cbn [List.length] in Hlength; lia | exact Hvalue | exact Harg ]. }
    destruct (String.eqb first "--output") eqn:Houtput; cbn [orb] in Hvalue.
    { destruct before as [| value before]; [ discriminate |].
      cbn [app]. apply IH; [ cbn [List.length] in Hlength; lia | exact Hvalue | exact Harg ]. }
    destruct (String.eqb first "--verbose");
      [ apply IH; [ lia | exact Hvalue | exact Harg ] |].
    destruct (String.eqb first "--help"); [ reflexivity |].
    apply IH; [ lia | exact Hvalue | exact Harg ].
Qed.

Lemma orElse_not_empty (given : option string) (fallback : string) :
  fallback <> "" -> orElse given fallback <> "".
Proof.
  intros Hfallback. unfold orElse. destruct given as [s |]; [| exact Hfallback ].
  destruct (String.eqb s "") eqn:Hs; [ exact Hfallback |].
  now apply String.eqb_neq.
Qed.

(** X19: the command line of calculate-scores.js.  An argument that is
    none of its four options, and does not stand where "--entity-scores-dir"
    or "--output" takes its value, is ignored wherever it stands: the
    command does what it does without it.  Whatever the arguments, the
    calculator gets a directory and an output file that are not empty: an
    option left out, or given the empty string, takes its default.  A
    directory that does not exist gives the code 1 and no write; the code
    is 0 exactly when [calculateAllScores] returns, whatever the number of
    files that could not be processed; a request for help gives the code 0
    and runs nothing. *)
Theorem X19_the_calculation_command_ignores_what_it_does_not_know
    (h : Host) (rt : Runtime) (args : list string) :
  (forall before after arg,
      args = before ++ arg :: after ->
      expectsValue before = false ->
      isOption arg = false ->
      calculateScoresCommand h rt args = calculateScoresCommand h rt (before ++ after))
  /\ (forall options,
         parseArguments args noOptions = Run options ->
         entityScoresDir (newScoreCalculator options) <> ""
         /\ outputFile (newScoreCalculator options) <> ""
         /\ (existsSync h (entityScoresDir (newScoreCalculator options)) = false ->
             calculateScoresCommand h rt args = ([], 1%nat))
         /\ (snd (calculateScoresCommand h rt args) = 0%nat
             <-> exists result,
                   snd (calculateAllScores h rt (newScoreCalculator options))
                   = Normal result))
  /\ (parseArguments args noOptions = Help ->
      calculateScoresCommand h rt args = ([], 0%nat)).
Proof.
  split; [| split ].
  - intros before after arg -> Hvalue Harg. unfold calculateScoresCommand.
    now rewrite (parseArguments_ignores_within (List.length before) before after arg
                   noOptions (le_n _) Hvalue Harg).
  - intros options Hparsed. unfold calculateScoresCommand. rewrite Hparsed.
    split; [ apply orElse_not_empty; discriminate |].
    split; [ apply orElse_not_empty; discriminate |].
    split.
    + intros Hmissing. unfold calculateAllScores, getEntityScoreFiles.
      now rewrite Hmissing.
    + destruct (calculateAllScores h rt (newScoreCalculator options))
        as [effects [result | error]]; cbn [snd].
      * split; [ eauto | reflexivity ].
      * split; [ discriminate | intros [result H]; discriminate ].
  - intros Hhelp. unfold calculateScoresCommand. now rewrite Hhelp.
Qed.
